(** * Job orchestration and deferred commentary batch queue of [src/main.py]

    A shallow embedding of the orchestration code of the video-analysis
    service: the per-unit job [process_s3_user_video_analysis], the scan
    [auto_analyze_all_s3_videos], the status sink [update_analysis_status],
    the deferred batch queue ([add_to_gpt_batch_queue], [process_gpt_batch],
    [check_and_trigger_gpt_batch]) and the request handler
    [analyze_s3_user_video].

    Python exceptions are values of [exn]; a coroutine is a function from the
    process state ([world]) to an outcome and a new state.  The external
    collaborators (object store, analyzers, databases, commentary generator)
    are the fields of an environment [env]: each call either returns a value
    or raises.  Python list objects live in a heap, so that the aliasing
    between the module global [_pending_gpt_analyses] and the drain's
    [batch_to_process] is part of the model. *)

From Stdlib Require Import ZArith Lia Ascii.
From stdpp Require Import base option list sorting strings gmap pretty.

(** ** Exceptions *)

(** The exception classes the code distinguishes.  [Exception] stands for
    every subclass of Python's [Exception] other than [HTTPException];
    [CancelledError] derives from [BaseException] only, so [except Exception]
    does not catch it. *)
Inductive exn : Type :=
| Exception (msg : string)
| HTTPException (status_code : Z) (detail : string)
| CancelledError.

Definition isinstance_Exception (e : exn) : bool :=
  match e with
  | CancelledError => false
  | _ => true
  end.

Definition isinstance_HTTPException (e : exn) : bool :=
  match e with
  | HTTPException _ _ => true
  | _ => false
  end.

(** [str(e)]. *)
Definition str (e : exn) : string :=
  match e with
  | Exception msg => msg
  | HTTPException c d => pretty c +:+ ": " +:+ d
  | CancelledError => ""
  end.

Inductive outcome (A : Type) : Type :=
| Return (a : A)
| Raise (e : exn).
Arguments Return {A} a.
Arguments Raise {A} e.

(** ** Data model *)

(** Results of the two scoring stages.  They are dictionaries produced by
    collaborators; the fields below are the keys the orchestration reads,
    [None] meaning the key is absent, and the [_extra] field lists the other
    keys (it only matters for the truth value of the dictionary).  Scores
    and progress are whole numbers of points. *)
Record emotion_result := {
  interview_score : option Z;
  emotion_extra : list string
}.

Record basic_scores_t := {
  total_eye_score : option Z;
  concentration_score : option Z;
  stability_score : option Z;
  blink_score : option Z
}.

Record analysis_summary_t := {
  total_violations : option Z;
  face_multiple_detected : option bool
}.

Record gaze_result := {
  basic_scores : option basic_scores_t;
  attention_score : option Z;
  analysis_summary : option analysis_summary_t;
  gaze_extra : list string
}.

(** [bool(d)] of a dictionary: false exactly when it has no key. *)
Definition emotion_truthy (r : emotion_result) : bool :=
  bool_decide (is_Some (interview_score r)) || negb (bool_decide (emotion_extra r = [])).

Definition gaze_truthy (r : gaze_result) : bool :=
  bool_decide (is_Some (basic_scores r)) || bool_decide (is_Some (attention_score r))
  || bool_decide (is_Some (analysis_summary r)) || negb (bool_decide (gaze_extra r = [])).

(** [bool(s)] of a string. *)
Definition str_truthy (s : string) : bool := negb (bool_decide (s = "")).

Record cheating_detection_t := {
  suspected_copying : bool;
  suspected_impersonation : bool;
  cd_total_violations : Z;
  cd_face_multiple_detected : bool;
  error_occurred : option bool
}.

Record video_info_t := {
  s3_bucket : string;
  s3_key : string;
  local_path : string
}.

(** A document of the [analysis_results] collection. *)
Record doc := {
  analysis_id : string;
  user_id : option string;
  question_num : option string;
  session_id : option string;
  video_info : option video_info_t;
  emotion_analysis : option emotion_result;
  eye_tracking_analysis : option gaze_result;
  cheating_detection : option cheating_detection_t;
  status : string;
  error : option string;
  created_at : nat;
  completed_at : option nat;
  failed_at : option nat
}.

(** An entry of the commentary queue. *)
Record queue_entry := {
  qe_analysis_id : string;
  qe_user_id : string;
  qe_question_num : string;
  added_at : nat
}.

Record gpt_analysis_t := {
  strength_keyword : string;
  weakness_keyword : string
}.

Record llm_comment_t := {
  overall_feedback : string;
  overall_score : Z
}.

(** Arguments of one [mariadb_handler.save_interview_attitude] call. *)
Record interview_attitude := {
  ia_user_id : string;
  ia_question_num : string;
  ia_emotion_score : Z;
  ia_eye_score : Z;
  ia_suspected_copying : bool;
  ia_suspected_impersonation : bool;
  ia_gpt_analysis : gpt_analysis_t
}.

Record keyword_analysis_data := {
  kw_emotion_score : Z;
  kw_eye_score : Z;
  kw_concentration_score : Z;
  kw_stability_score : Z;
  kw_blink_score : Z;
  kw_total_violations : Z;
  kw_face_multiple_detected : bool;
  kw_suspected_copying : bool;
  kw_suspected_impersonation : bool
}.

#[global] Instance queue_entry_eq_dec : EqDecision queue_entry.
Proof. solve_decision. Defined.

(** What the process does that an observer can see, oldest first. *)
Inductive event : Type :=
| StatusUpdate (id st : string) (stage : option string) (progress : Z)
               (failure : option string)
| ReplaceOne (d : doc)
| ErrorSaveFailed (id msg : string)
| SaveInterviewAttitude (row : interview_attitude) (saved : bool)
| MariadbSaveFailed (msg : string)
| BatchItemStart (i n : nat) (item : queue_entry)
| BatchItemSkipped (id : string)
| BatchItemFailed (id msg : string)
| BatchItemDone (id : string) (score : Z)
| BatchError (msg : string)
| Cleanup (temp_dir : string)
| ScanSkipped (user question : string)
| ScanFailed (user question msg : string)
| ScanError (msg : string)
| TriggerCheckFailed (msg : string).

(** References to Python list objects. *)
Abbreviation loc := positive (only parsing).

(** The state of the process: the job collection, the list objects, the two
    module globals, the clock (in seconds) and the events so far. *)
Record world := {
  analysis_results : list doc;
  heap : gmap loc (list queue_entry);
  _pending_gpt_analyses : loc;
  _batch_processing_active : bool;
  now : nat;
  trace : list event
}.

Definition set_analysis_results (f : list doc → list doc) (w : world) : world :=
  {| analysis_results := f (analysis_results w); heap := heap w;
     _pending_gpt_analyses := _pending_gpt_analyses w;
     _batch_processing_active := _batch_processing_active w;
     now := now w; trace := trace w |}.

Definition set_heap (f : gmap loc (list queue_entry) → gmap loc (list queue_entry))
    (w : world) : world :=
  {| analysis_results := analysis_results w; heap := f (heap w);
     _pending_gpt_analyses := _pending_gpt_analyses w;
     _batch_processing_active := _batch_processing_active w;
     now := now w; trace := trace w |}.

Definition set_pending (l : loc) (w : world) : world :=
  {| analysis_results := analysis_results w; heap := heap w;
     _pending_gpt_analyses := l;
     _batch_processing_active := _batch_processing_active w;
     now := now w; trace := trace w |}.

Definition set_active (b : bool) (w : world) : world :=
  {| analysis_results := analysis_results w; heap := heap w;
     _pending_gpt_analyses := _pending_gpt_analyses w;
     _batch_processing_active := b;
     now := now w; trace := trace w |}.

Definition set_now (f : nat → nat) (w : world) : world :=
  {| analysis_results := analysis_results w; heap := heap w;
     _pending_gpt_analyses := _pending_gpt_analyses w;
     _batch_processing_active := _batch_processing_active w;
     now := f (now w); trace := trace w |}.

Definition set_trace (f : list event → list event) (w : world) : world :=
  {| analysis_results := analysis_results w; heap := heap w;
     _pending_gpt_analyses := _pending_gpt_analyses w;
     _batch_processing_active := _batch_processing_active w;
     now := now w; trace := f (trace w) |}.

(** The list the global [_pending_gpt_analyses] refers to. *)
Definition pending (w : world) : list queue_entry :=
  default [] (heap w !! _pending_gpt_analyses w).

(** ** Coroutines: state and exceptions *)

Definition M (A : Type) : Type := world → outcome A * world.

#[global] Instance M_ret : MRet M := λ A a w, (Return a, w).
#[global] Instance M_bind : MBind M := λ A B f m w,
  match m w with
  | (Return a, w') => f a w'
  | (Raise e, w') => (Raise e, w')
  end.

Definition raise {A} (e : exn) : M A := λ w, (Raise e, w).

(** Result of a collaborator call. *)
Definition call {A} (r : outcome A) : M A := λ w, (r, w).

(** Result of a synchronous database call: [Some msg] is an [Exception]. *)
Definition call_db (r : option string) : M unit :=
  λ w, (match r with None => Return () | Some msg => Raise (Exception msg) end, w).

Definition get_now : M nat := λ w, (Return (now w), w).
Definition get_analysis_results : M (list doc) := λ w, (Return (analysis_results w), w).
Definition get_pending : M (list queue_entry) := λ w, (Return (pending w), w).
Definition modify (f : world → world) : M unit := λ w, (Return (), f w).
Definition print (ev : event) : M unit := modify (set_trace (λ t, t ++ [ev])).

(** [try: body except Exception as e: handler e]. *)
Definition try_except {A} (body : M A) (handler : exn → M A) : M A := λ w,
  match body w with
  | (Return a, w') => (Return a, w')
  | (Raise e, w') => if isinstance_Exception e then handler e w' else (Raise e, w')
  end.

(** [try: body finally: cleanup]; an exception of [cleanup] replaces the
    one of [body]. *)
Definition try_finally {A} (body : M A) (cleanup : M unit) : M A := λ w,
  match body w with
  | (r, w') =>
    match cleanup w' with
    | (Return _, w'') => (r, w'')
    | (Raise e, w'') => (Raise e, w'')
    end
  end.

(** [datetime.now().strftime('%Y%m%d_%H%M%S')]: the clock counts seconds and
    is rendered as a numeral. *)
Definition strftime (t : nat) : string := pretty t.

(** [os.path.join(a, b)] for POSIX paths: an absolute [b] replaces [a];
    otherwise [b] is appended, after a separator unless [a] is empty or
    ends with one. *)
Definition startswith_sep (s : string) : bool :=
  match s with
  | String c _ => bool_decide (c = "/"%char)
  | EmptyString => false
  end.

Fixpoint endswith_sep (s : string) : bool :=
  match s with
  | EmptyString => false
  | String c EmptyString => bool_decide (c = "/"%char)
  | String _ s' => endswith_sep s'
  end.

Definition os_path_join (a b : string) : string :=
  if startswith_sep b then b
  else if bool_decide (a = "") || endswith_sep a then a +:+ b
  else a +:+ "/" +:+ b.

(** [s.replace(c, '')] for a one-character [c]. *)
Fixpoint remove_char (c : ascii) (s : string) : string :=
  match s with
  | EmptyString => EmptyString
  | String a s' =>
    if decide (a = c) then remove_char c s' else String a (remove_char c s')
  end.

(** ** The job collection *)

(** [collection.replace_one({'analysis_id': id}, d, upsert=True)]: the first
    document with that id is replaced; without one, [d] is inserted. *)
Fixpoint replace_one (id : string) (d : doc) (c : list doc) : list doc :=
  match c with
  | [] => [d]
  | x :: c' =>
    if decide (analysis_id x = id) then d :: c' else x :: replace_one id d c'
  end.

(** [collection.find_one({'analysis_id': id})]. *)
Fixpoint find_one (id : string) (c : list doc) : option doc :=
  match c with
  | [] => None
  | x :: c' => if decide (analysis_id x = id) then Some x else find_one id c'
  end.

(** ** Collaborators *)

(** A synchronous call returns or raises an [Exception] with a message; an
    awaited call may also raise [CancelledError]. *)
Record env := {
  S3_BUCKET_NAME : option string;
  TEMP_UPLOAD_DIR : option string;
  (* s3_handler *)
  list_available_users_and_questions :
    string → outcome (list (string * list string));
  find_video_file : string → string → string → outcome (option string);
  download_file : string → string → string → outcome string;
  (* os.makedirs(temp_dir, exist_ok=True) *)
  makedirs : string → option string;
  (* emotion_analyzer, eye_tracking_analyzer *)
  emotion_analyze_video : string → outcome emotion_result;
  eye_tracking_analyze_video :
    string → string → string → string → outcome gaze_result;
  (* keyword_analyzer.analyze_keywords, not awaited *)
  analyze_keywords : keyword_analysis_data → string + gpt_analysis_t;
  (* mariadb_handler, gpt_analyzer *)
  save_interview_attitude : interview_attitude → outcome bool;
  analyze_interview_results :
    emotion_result → gaze_result → string → string → outcome llm_comment_t;
  (* get_db_session() and the query made in it: [Some msg] raises *)
  status_session : string → string → option string → Z → option string;
  replace_one_session : doc → option string;
  find_one_session : string → option string;
  find_session : option string;
  (* asyncio.sleep: whether the sleep of [n] seconds that starts at time [t]
     is cancelled *)
  sleep_cancelled : nat → nat → bool
}.

Definition call_sync {A} (r : string + A) : M A :=
  λ w, (match r with inl msg => Raise (Exception msg) | inr a => Return a end, w).

(** No await is cancelled: neither a call of a collaborator nor a sleep. *)
Record no_cancellation (E : env) : Prop := {
  nc_list : ∀ b, list_available_users_and_questions E b ≠ Raise CancelledError;
  nc_find : ∀ b u q, find_video_file E b u q ≠ Raise CancelledError;
  nc_download : ∀ b k d, download_file E b k d ≠ Raise CancelledError;
  nc_emotion : ∀ p, emotion_analyze_video E p ≠ Raise CancelledError;
  nc_eye : ∀ p u q k, eye_tracking_analyze_video E p u q k ≠ Raise CancelledError;
  nc_attitude : ∀ r, save_interview_attitude E r ≠ Raise CancelledError;
  nc_gpt : ∀ e g u q, analyze_interview_results E e g u q ≠ Raise CancelledError;
  nc_sleep : ∀ t n, sleep_cancelled E t n = false
}.

(** ** Cheat signals *)

(** [gaze_result.get('analysis_summary', {}).get('total_violations', 0)] *)
Definition get_total_violations (g : gaze_result) : Z :=
  default 0%Z (analysis_summary g ≫= total_violations).

(** [gaze_result.get('analysis_summary', {}).get('face_multiple_detected', False)] *)
Definition get_face_multiple_detected (g : gaze_result) : bool :=
  default false (analysis_summary g ≫= face_multiple_detected).

(** [total_violations >= 5] *)
Definition compute_suspected_copying (total_violations : Z) : bool :=
  bool_decide (5 ≤ total_violations)%Z.

Definition compute_suspected_impersonation (face_multiple_detected : bool) : bool :=
  face_multiple_detected.

Section orchestrator.
Context (E : env).

(** [await asyncio.sleep(n)]: the clock advances by [n] seconds, unless the
    coroutine is cancelled while it sleeps. *)
Definition sleep (n : nat) : M unit := λ w,
  if sleep_cancelled E (now w) n then (Raise CancelledError, w)
  else (Return (), set_now (λ t, (t + n)%nat) w).

(** ** [update_analysis_status] (lines 1167-1198) *)

(** The whole body is inside [try ... except Exception]: when the session
    cannot be opened, the failure is printed and the call returns.  One
    [StatusUpdate] event is recorded per call, with the failure if any. *)
Definition update_analysis_status (id st : string) (stage : option string)
    (progress : Z) : M unit :=
  try_except
    (call_db (status_session E id st stage progress);;
     print (StatusUpdate id st stage progress None))
    (λ e, print (StatusUpdate id st stage progress (Some (str e)))).

(** ** [add_to_gpt_batch_queue] (lines 1302-1311) *)

(** [_pending_gpt_analyses.append(...)] mutates the list object the global
    refers to at the time of the call. *)
Definition add_to_gpt_batch_queue (id user question : string) : M unit :=
  modify (λ w,
    set_heap (alter (λ q, q ++ [ {| qe_analysis_id := id; qe_user_id := user;
                                    qe_question_num := question;
                                    added_at := now w |} ])
                    (_pending_gpt_analyses w)) w).

(** ** [process_s3_user_video_analysis] (lines 822-1049)

    This is the second definition of that name in the module: it replaces
    the one of lines 708-820, and is the one every caller runs. *)

(** The record stored for a completed job (lines 893-915). *)
Definition analysis_data (id bucket key user question : string)
    (session : option string) (temp_file_path : string)
    (emotion : emotion_result) (gaze : gaze_result) (t : nat) : doc :=
  {| analysis_id := id;
     user_id := Some user;
     question_num := Some question;
     session_id := session;
     video_info := Some {| s3_bucket := bucket; s3_key := key;
                           local_path := temp_file_path |};
     emotion_analysis := Some emotion;
     eye_tracking_analysis := Some gaze;
     cheating_detection := Some
       {| suspected_copying := compute_suspected_copying (get_total_violations gaze);
          suspected_impersonation :=
            compute_suspected_impersonation (get_face_multiple_detected gaze);
          cd_total_violations := get_total_violations gaze;
          cd_face_multiple_detected := get_face_multiple_detected gaze;
          error_occurred := None |};
     status := "completed";
     error := None;
     created_at := t;
     completed_at := Some t;
     failed_at := None |}.

(** The record stored for a failed job (lines 1014-1030). *)
Definition error_data (id user question : string) (session : option string)
    (e : exn) (t : nat) : doc :=
  {| analysis_id := id;
     user_id := Some user;
     question_num := Some question;
     session_id := session;
     video_info := None;
     emotion_analysis := None;
     eye_tracking_analysis := None;
     cheating_detection := Some
       {| suspected_copying := false;
          suspected_impersonation := false;
          cd_total_violations := 0;
          cd_face_multiple_detected := false;
          error_occurred := Some true |};
     status := "error";
     error := Some (str e);
     created_at := t;
     completed_at := None;
     failed_at := Some t |}.

(** [with get_db_session() as db: db['analysis_results'].replace_one(...)] *)
Definition upsert (d : doc) : M unit :=
  call_db (replace_one_session E d);;
  modify (set_analysis_results (replace_one (analysis_id d) d));;
  print (ReplaceOne d).

(** Line 842:
    [os.path.join(os.getenv('TEMP_UPLOAD_DIR', './src/temp_uploads'), analysis_id)] *)
Definition temp_dir_of (id : string) : string :=
  os_path_join (default "./src/temp_uploads" (TEMP_UPLOAD_DIR E)) id.

(** [await mariadb_handler.save_interview_attitude(...)].  The call answers
    whether the row was saved, and the callers do not look at the answer;
    the event records the row together with the answer. *)
Definition save_attitude (row : interview_attitude) : M unit :=
  saved ← call (save_interview_attitude E row);
  print (SaveInterviewAttitude row saved).

(** Lines 872-878: [gaze_result['basic_scores']['concentration_score']] is a
    subscript, it raises [KeyError] when [basic_scores] lacks the key. *)
Definition read_concentration_score (gaze : gaze_result) : M Z :=
  match basic_scores gaze with
  | Some bs =>
    match concentration_score bs with
    | Some c => mret c
    | None => raise (Exception "'concentration_score'")
    end
  | None => mret (default 0%Z (attention_score gaze))
  end.

(** Lines 932 and 940-986: the scores with their defaults, and the input of
    the keyword analysis. *)
Definition emotion_score_of (emotion : emotion_result) : Z :=
  if emotion_truthy emotion then default 48%Z (interview_score emotion)
  else 48%Z.

Definition basic_scores_of (gaze : gaze_result) : option basic_scores_t :=
  if gaze_truthy gaze then basic_scores gaze else None.

Definition eye_score_of (gaze : gaze_result) : Z :=
  default 32%Z (basic_scores_of gaze ≫= total_eye_score).

Definition keyword_data (emotion : emotion_result) (gaze : gaze_result)
    : keyword_analysis_data :=
  let total_violations := get_total_violations gaze in
  let face_multiple_detected := get_face_multiple_detected gaze in
  {| kw_emotion_score := emotion_score_of emotion;
     kw_eye_score := eye_score_of gaze;
     kw_concentration_score :=
       default 12%Z (basic_scores_of gaze ≫= concentration_score);
     kw_stability_score :=
       default 12%Z (basic_scores_of gaze ≫= stability_score);
     kw_blink_score := default 8%Z (basic_scores_of gaze ≫= blink_score);
     kw_total_violations := total_violations;
     kw_face_multiple_detected := face_multiple_detected;
     kw_suspected_copying := compute_suspected_copying total_violations;
     kw_suspected_impersonation :=
       compute_suspected_impersonation face_multiple_detected |}.

(** Lines 992-1000: the evaluation row of a completed job. *)
Definition job_attitude (user question : string) (emotion : emotion_result)
    (gaze : gaze_result) (gpt_analysis : gpt_analysis_t) : interview_attitude :=
  {| ia_user_id := user;
     ia_question_num := remove_char "q"%char (remove_char "Q"%char question);
     ia_emotion_score := emotion_score_of emotion;
     ia_eye_score := eye_score_of gaze;
     ia_suspected_copying := compute_suspected_copying (get_total_violations gaze);
     ia_suspected_impersonation :=
       compute_suspected_impersonation (get_face_multiple_detected gaze);
     ia_gpt_analysis := gpt_analysis |}.

(** The [try] block (lines 835-1006).  The values that only feed [print]
    (the total score and the improvement suggestions) are left out. *)
Definition job_body (id bucket key user question : string)
    (session : option string) : M unit :=
  update_analysis_status id "processing" (Some "download") 10;;
  call_db (makedirs E (temp_dir_of id));;
  temp_file_path ← call (download_file E bucket key (temp_dir_of id));
  update_analysis_status id "processing" (Some "emotion_analysis") 30;;
  emotion ← call (emotion_analyze_video E temp_file_path);
  update_analysis_status id "processing" (Some "eye_tracking") 60;;
  gaze ← call (eye_tracking_analyze_video E temp_file_path user question key);
  read_concentration_score gaze;;
  update_analysis_status id "processing" (Some "save_results") 80;;
  t ← get_now;
  upsert (analysis_data id bucket key user question session temp_file_path
            emotion gaze t);;
  add_to_gpt_batch_queue id user question;;
  gpt_analysis ← call_sync (analyze_keywords E (keyword_data emotion gaze));
  save_attitude (job_attitude user question emotion gaze gpt_analysis);;
  update_analysis_status id "completed" (Some "completed") 100.

(** The [except Exception as e] block (lines 1008-1040). *)
Definition job_handler (id user question : string) (session : option string)
    (e : exn) : M unit :=
  update_analysis_status id "failed" (Some "error") 0;;
  try_except
    (t ← get_now; upsert (error_data id user question session e t))
    (λ save_error, print (ErrorSaveFailed id (str save_error))).

(** The [finally] block (lines 1042-1049): the temporary directory, if it
    exists, is removed, and a failure of the removal is printed; the block
    raises nothing.  The event records that it ran. *)
Definition job_cleanup (id : string) : M unit :=
  print (Cleanup (temp_dir_of id)).

Definition process_s3_user_video_analysis (id bucket key user question : string)
    (session : option string) : M unit :=
  try_finally
    (try_except (job_body id bucket key user question session)
                (job_handler id user question session))
    (job_cleanup id).

(** ** [process_gpt_batch] (lines 1313-1427) *)

(** Lines 1317-1322.  There is no [await] between the test of the flag and
    the rebinding of the global, so the event loop runs these lines as one
    step.  [.copy()] and [[]] each create a list object. *)
Definition gpt_batch_enter (w : world) : option loc * world :=
  if _batch_processing_active w || bool_decide (pending w = []) then (None, w)
  else
    let w1 := set_active true w in
    let b := fresh (dom (heap w1)) in
    let w2 := set_heap (insert b (pending w1)) w1 in
    let g := fresh (dom (heap w2)) in
    (Some b, set_pending g (set_heap (insert g []) w2)).

(** Lines 1363-1396: the evaluation row of one item, saved best-effort. *)
Definition batch_attitude (user question : string) (emotion : emotion_result)
    (gaze : gaze_result) : interview_attitude :=
  let suspected_copying := compute_suspected_copying (get_total_violations gaze) in
  {| ia_user_id := user;
     ia_question_num := question;
     ia_emotion_score := default 0%Z (interview_score emotion);
     ia_eye_score := default 0%Z (basic_scores gaze ≫= total_eye_score);
     ia_suspected_copying := suspected_copying;
     ia_suspected_impersonation :=
       compute_suspected_impersonation (get_face_multiple_detected gaze);
     ia_gpt_analysis :=
       {| strength_keyword := "면접 태도 양호, 집중력 우수";
          weakness_keyword :=
            if suspected_copying then "시선 분산, 부정행위 의심" else "개선 필요" |} |}.

(** Lines 1328-1420: the body of the loop for the [i]-th of [n] items. *)
Definition gpt_batch_item (i n : nat) (item : queue_entry) : M unit :=
  let id := qe_analysis_id item in
  try_except
    (print (BatchItemStart i n item);;
     call_db (find_one_session E id);;
     c ← get_analysis_results;
     match find_one id c with
     | None => print (BatchItemSkipped id)
     | Some d =>
       match emotion_analysis d, eye_tracking_analysis d with
       | Some emotion, Some gaze =>
         if emotion_truthy emotion && gaze_truthy gaze then
           llm_comment ← call (analyze_interview_results E emotion gaze
                                 (qe_user_id item) (qe_question_num item));
           try_except
             (save_attitude (batch_attitude (qe_user_id item)
                               (qe_question_num item) emotion gaze))
             (λ mariadb_error, print (MariadbSaveFailed (str mariadb_error)));;
           print (BatchItemDone id (overall_score llm_comment));;
           if decide (i < n)%nat then sleep 1 else mret ()
         else print (BatchItemSkipped id)
       | _, _ => print (BatchItemSkipped id)
       end
     end)
    (λ e, print (BatchItemFailed id (str e))).

(** [for i, item in enumerate(items, i): ...] *)
Fixpoint gpt_batch_loop (n i : nat) (items : list queue_entry) : M unit :=
  match items with
  | [] => mret ()
  | item :: rest => gpt_batch_item i n item;; gpt_batch_loop n (S i) rest
  end.

(** The [finally] block (line 1427). *)
Definition gpt_batch_exit : M unit := modify (set_active false).

Definition process_gpt_batch : M unit := λ w,
  match gpt_batch_enter w with
  | (None, w') => (Return (), w')
  | (Some b, w') =>
    let batch_to_process := default [] (heap w' !! b) in
    try_finally
      (try_except
         (gpt_batch_loop (length batch_to_process) 1 batch_to_process)
         (λ e, print (BatchError (str e))))
      gpt_batch_exit w'
  end.

(** ** The scan: [auto_analyze_all_s3_videos] (lines 1200-1283) *)

(** [f"{user_id}_{question_num}"] *)
Definition analysis_key (user question : string) : string :=
  user +:+ "_" +:+ question.

(** The key a stored document contributes (lines 1219-1222): none when
    [user_id] or [question_num] is missing or empty. *)
Definition doc_key (d : doc) : option string :=
  u ← user_id d;
  q ← question_num d;
  if str_truthy u && str_truthy q then Some (analysis_key u q) else None.

Definition existing_analyses (c : list doc) : gset string :=
  list_to_set (omap doc_key c).

(** Lines 1227-1232, over the listing in its order. *)
Definition videos_to_analyze (available : list (string * list string))
    (existing : gset string) : list (string * string) :=
  '(user, question_nums) ← available;
  question ← question_nums;
  if decide (analysis_key user question ∉ existing) then [(user, question)] else [].

(** [check_existing_analysis] (lines 1285-1300).  It asks for a record with
    status [completed]; nothing in the module calls it, the scan decides by
    [existing_analyses]. *)
Definition check_existing_analysis (user question : string) : M bool :=
  try_except
    (call_db (find_session E);;
     c ← get_analysis_results;
     mret (bool_decide
             (Exists (λ d, user_id d = Some user
                           ∧ question_num d = Some question
                           ∧ status d = "completed") c)))
    (λ e, mret false).

(** Lines 1429-1463. *)
Definition check_and_trigger_gpt_batch : M unit :=
  try_except
    (available ← call (list_available_users_and_questions E "skala25a");
     call_db (find_session E);;
     c ← get_analysis_results;
     let todo := videos_to_analyze available (existing_analyses c) in
     queue ← get_pending;
     if bool_decide (length todo = 0%nat) && bool_decide (0 < length queue)%nat
     then process_gpt_batch
     else mret ())
    (λ e, print (TriggerCheckFailed (str e))).

(** Lines 1242-1274: the body of the scan loop for one unit.  [continue]
    ends the body. *)
Definition scan_unit (bucket : string) (unit_ : string * string) : M unit :=
  let '(user, question) := unit_ in
  try_except
    (t ← get_now;
     let id := "auto_s3_analysis_" +:+ user +:+ "_" +:+ question +:+ "_"
               +:+ strftime t in
     video_key ← call (find_video_file E bucket user question);
     match video_key with
     | Some key =>
       if str_truthy key then
         process_s3_user_video_analysis id bucket key user question
           (Some "auto_batch");;
         sleep 2
       else print (ScanSkipped user question)
     | None => print (ScanSkipped user question)
     end)
    (λ e, print (ScanFailed user question (str e))).

Fixpoint scan_loop (bucket : string) (units : list (string * string)) : M unit :=
  match units with
  | [] => mret ()
  | u :: rest => scan_unit bucket u;; scan_loop bucket rest
  end.

Definition auto_analyze_all_s3_videos : M unit :=
  try_except
    (let bucket_name := "skala25a" in
     available ← call (list_available_users_and_questions E bucket_name);
     call_db (find_session E);;
     c ← get_analysis_results;
     let todo := videos_to_analyze available (existing_analyses c) in
     if bool_decide (todo = []) then mret ()
     else scan_loop bucket_name todo;; check_and_trigger_gpt_batch)
    (λ e, print (ScanError (str e))).

(** ** Request handlers *)

Record S3UserVideoRequest := {
  req_user_id : string;
  req_question_num : string;
  req_session_id : option string
}.

Record AnalysisResponse := {
  resp_analysis_id : string;
  resp_status : string;
  resp_message : string
}.

(** Arguments of a [process_s3_user_video_analysis] run handed to
    [background_tasks.add_task]. *)
Record background_task := {
  bt_analysis_id : string;
  bt_bucket : string;
  bt_key : string;
  bt_user_id : string;
  bt_question_num : string;
  bt_session_id : option string
}.

(** [analyze_s3_user_video] (lines 149-190).  The [raise HTTPException(404)]
    is inside the [try], and the only handler is [except Exception]. *)
Definition analyze_s3_user_video (request : S3UserVideoRequest)
    : M (AnalysisResponse * list background_task) :=
  let user := req_user_id request in
  let question := req_question_num request in
  try_except
    (t ← get_now;
     let id := "manual_s3_analysis_" +:+ user +:+ "_" +:+ question +:+ "_"
               +:+ strftime t in
     let bucket_name := default "skala25a" (S3_BUCKET_NAME E) in
     video_key ← call (find_video_file E bucket_name user question);
     match video_key with
     | Some key =>
       if str_truthy key then
         mret ({| resp_analysis_id := id;
                  resp_status := "processing";
                  resp_message := "사용자 " +:+ user +:+ ", 질문 " +:+ question
                                  +:+ " 영상 분석이 시작되었습니다." |},
               [ {| bt_analysis_id := id; bt_bucket := bucket_name;
                    bt_key := key; bt_user_id := user;
                    bt_question_num := question;
                    bt_session_id :=
                      Some (match req_session_id request with
                            | Some s => if str_truthy s then s else "manual"
                            | None => "manual"
                            end) |} ])
       else raise (HTTPException 404
                     ("사용자 " +:+ user +:+ ", 질문 " +:+ question
                      +:+ "의 영상 파일을 찾을 수 없습니다."))
     | None => raise (HTTPException 404
                        ("사용자 " +:+ user +:+ ", 질문 " +:+ question
                         +:+ "의 영상 파일을 찾을 수 없습니다."))
     end)
    (λ e, raise (HTTPException 500 ("분석 시작 실패: " +:+ str e))).

(** [try: body except HTTPException: raise except Exception as e: handler e],
    the form the query handlers use. *)
Definition try_except_reraising_http {A} (body : M A) (handler : exn → M A)
    : M A := λ w,
  match body w with
  | (Return a, w') => (Return a, w')
  | (Raise e, w') =>
    if isinstance_HTTPException e then (Raise e, w')
    else if isinstance_Exception e then handler e w'
    else (Raise e, w')
  end.

(** [get_analysis_result] (lines 192-214). *)
Definition get_analysis_result (id : string) : M doc :=
  try_except_reraising_http
    (call_db (find_one_session E id);;
     c ← get_analysis_results;
     match find_one id c with
     | Some result => mret result
     | None => raise (HTTPException 404 "분석 결과를 찾을 수 없습니다.")
     end)
    (λ e, raise (HTTPException 500 ("분석 결과 조회 중 오류 발생: " +:+ str e))).

End orchestrator.

(** The status code of the response the framework sends. *)
Definition response_status {A} (r : outcome A) : Z :=
  match r with
  | Return _ => 200
  | Raise (HTTPException c _) => c
  | Raise _ => 500
  end.

(** ** Concurrent triggers of the drain

    The handlers and background tasks are coroutines of one event loop: a
    coroutine runs alone from one [await] to the next.  A task is one call
    of [process_gpt_batch]; its segments are the entry (lines 1317-1322),
    one pass through the loop body, and the exit through [finally].  The
    loop reads the list object [batch_to_process] by index, as Python's list
    iterator does.  A pass through the body is one step: the body reads the
    job collection before its first [await] and never reads or writes the
    queue or the flag, so what other coroutines do during its awaits can be
    placed before or after it. *)
Inductive task : Type :=
| Created
| Draining (batch_to_process : loc) (i : nat)
| Finished (r : outcome unit).

Definition is_draining (t : task) : bool :=
  match t with
  | Draining _ _ => true
  | _ => false
  end.

Section machine.
Context (E : env).

(** The way out of the [try] of [process_gpt_batch] with result [r]. *)
Definition gpt_batch_leave (r : outcome unit) : M unit :=
  try_finally
    (try_except (call r) (λ e, print (BatchError (str e))))
    gpt_batch_exit.

(** The next segment of a task. *)
Definition task_step (t : task) (w : world) : task * world :=
  match t with
  | Created =>
    match gpt_batch_enter w with
    | (None, w') => (Finished (Return ()), w')
    | (Some b, w') => (Draining b 0, w')
    end
  | Draining b i =>
    let batch_to_process := default [] (heap w !! b) in
    match batch_to_process !! i with
    | Some item =>
      match gpt_batch_item E (S i) (length batch_to_process) item w with
      | (Return _, w') => (Draining b (S i), w')
      | (Raise e, w') =>
        let '(r, w'') := gpt_batch_leave (Raise e) w' in (Finished r, w'')
      end
    | None =>
      let '(r, w') := gpt_batch_leave (Return ()) w in (Finished r, w')
    end
  | Finished r => (Finished r, w)
  end.

Record system := {
  shared : world;
  tasks : list task
}.

Inductive label : Type :=
| LTrigger                      (* a new call of process_gpt_batch is scheduled *)
| LTask (i : nat)               (* task i runs its next segment *)
| LEnqueue (e : queue_entry)    (* a job reaches add_to_gpt_batch_queue *)
| LUpsert (d : doc)             (* a job writes its record *)
| LTick (n : nat).              (* time passes *)

Inductive step : system → label → system → Prop :=
| step_trigger s :
    step s LTrigger {| shared := shared s; tasks := tasks s ++ [Created] |}
| step_task s i t :
    tasks s !! i = Some t →
    step s (LTask i)
      {| shared := (task_step t (shared s)).2;
         tasks := <[i := (task_step t (shared s)).1]> (tasks s) |}
| step_enqueue s id user question :
    step s
      (LEnqueue {| qe_analysis_id := id; qe_user_id := user;
                   qe_question_num := question; added_at := now (shared s) |})
      {| shared := (add_to_gpt_batch_queue id user question (shared s)).2;
         tasks := tasks s |}
| step_upsert s d :
    step s (LUpsert d)
      {| shared := set_analysis_results (replace_one (analysis_id d) d) (shared s);
         tasks := tasks s |}
| step_tick s n :
    step s (LTick n)
      {| shared := set_now (λ t, (t + n)%nat) (shared s); tasks := tasks s |}.

Inductive run : system → list label → system → Prop :=
| run_refl s : run s [] s
| run_step s L s' l s'' : run s L s' → step s' l s'' → run s (L ++ [l]) s''.

(** The process after start-up (lines 50-51): an empty queue, no drain
    active; the job collection is whatever the database holds. *)
Definition startup (c : list doc) (t : nat) : world :=
  {| analysis_results := c;
     heap := {[ 1%positive := [] ]};
     _pending_gpt_analyses := 1%positive;
     _batch_processing_active := false;
     now := t;
     trace := [] |}.

Definition reachable (s : system) : Prop :=
  ∃ c t L, run {| shared := startup c t; tasks := [] |} L s.

End machine.

(** The entries enqueued along a run, and the items the drains started on. *)
Definition enqueued (L : list label) : list queue_entry :=
  omap (λ l, match l with LEnqueue e => Some e | _ => None end) L.

Definition batch_items (t : list event) : list queue_entry :=
  omap (λ ev, match ev with BatchItemStart _ _ item => Some item | _ => None end) t.

(** The progress values of the status updates of one job, in order. *)
Definition progress_of (id : string) (t : list event) : list Z :=
  omap (λ ev, match ev with
              | StatusUpdate id' _ _ p _ => if decide (id' = id) then Some p else None
              | _ => None
              end) t.

(** A relation between the state before and after that every step of a
    coroutine respects. *)
Definition stable (S : relation world) {A} (m : M A) : Prop :=
  ∀ w, S w (m w).2.

(** Events are only ever added. *)
Definition trace_extends : relation world :=
  λ w w', trace w `prefix_of` trace w'.

(** The queue, its list objects and the flag are untouched. *)
Definition same_queue : relation world :=
  λ w w', heap w' = heap w
          ∧ _pending_gpt_analyses w' = _pending_gpt_analyses w
          ∧ _batch_processing_active w' = _batch_processing_active w.

(** The same collaborators with another status sink. *)
Definition with_status_session
    (sink : string → string → option string → Z → option string) (E : env) : env :=
  {| S3_BUCKET_NAME := S3_BUCKET_NAME E;
     TEMP_UPLOAD_DIR := TEMP_UPLOAD_DIR E;
     list_available_users_and_questions := list_available_users_and_questions E;
     find_video_file := find_video_file E;
     download_file := download_file E;
     makedirs := makedirs E;
     emotion_analyze_video := emotion_analyze_video E;
     eye_tracking_analyze_video := eye_tracking_analyze_video E;
     analyze_keywords := analyze_keywords E;
     save_interview_attitude := save_interview_attitude E;
     analyze_interview_results := analyze_interview_results E;
     status_session := sink;
     replace_one_session := replace_one_session E;
     find_one_session := find_one_session E;
     find_session := find_session E;
     sleep_cancelled := sleep_cancelled E |}.

(** The state with the outcome of every status write forgotten: what is
    left is everything the job did apart from the sink's own failures. *)
Definition erase_failure (ev : event) : event :=
  match ev with
  | StatusUpdate id st sg p _ => StatusUpdate id st sg p None
  | _ => ev
  end.

Definition erase_sink (w : world) : world := set_trace (fmap erase_failure) w.

(** Two coroutines that behave alike up to the outcomes of status writes. *)
Definition sink_related {A} (m1 m2 : M A) : Prop :=
  ∀ w1 w2, erase_sink w1 = erase_sink w2 →
    (m1 w1).1 = (m2 w2).1 ∧ erase_sink (m1 w1).2 = erase_sink (m2 w2).2.

(** The all-absent cheat signals of an error record. *)
Definition no_cheating_detected : cheating_detection_t :=
  {| suspected_copying := false;
     suspected_impersonation := false;
     cd_total_violations := 0;
     cd_face_multiple_detected := false;
     error_occurred := Some true |}.

(** ** Sample collaborators

    One listing of three units of one owner; every collaborator answers,
    except that scoring the gaze of unit [Q2] fails. *)
Definition sample_emotion : emotion_result :=
  {| interview_score := Some 45%Z; emotion_extra := [] |}.

Definition sample_gaze (violations : Z) (multi_face : bool) : gaze_result :=
  {| basic_scores := Some {| total_eye_score := Some 28%Z;
                             concentration_score := Some 15%Z;
                             stability_score := Some 8%Z;
                             blink_score := Some 5%Z |};
     attention_score := Some 25%Z;
     analysis_summary := Some {| total_violations := Some violations;
                                 face_multiple_detected := Some multi_face |};
     gaze_extra := [] |}.

Definition sample_env : env :=
  {| S3_BUCKET_NAME := None;
     TEMP_UPLOAD_DIR := None;
     list_available_users_and_questions := λ _, Return [("iv001", ["Q1"; "Q2"; "Q3"])];
     find_video_file := λ _ u q, Return (Some (u +:+ "/" +:+ q +:+ ".mp4"));
     download_file := λ _ _ d, Return (d +:+ "/video.mp4");
     makedirs := λ _, None;
     emotion_analyze_video := λ _, Return sample_emotion;
     eye_tracking_analyze_video := λ _ _ q _,
       if decide (q = "Q2") then Raise (Exception "scoring failed")
       else Return (sample_gaze 5 true);
     analyze_keywords := λ _, inr {| strength_keyword := "focus";
                                     weakness_keyword := "gaze" |};
     save_interview_attitude := λ _, Return true;
     analyze_interview_results := λ _ _ _ _,
       Return {| overall_feedback := "steady"; overall_score := 80 |};
     status_session := λ _ _ _ _, None;
     replace_one_session := λ _, None;
     find_one_session := λ _, None;
     find_session := None;
     sleep_cancelled := λ _ _, false |}.

(** The same, with a status sink that is down. *)
Definition sink_down_env : env :=
  with_status_session (λ _ _ _ _, Some "connection refused") sample_env.

(** The same, with an evaluation database that rejects every row: the job
    fails after its scores were computed and stored. *)
Definition attitude_down_env : env :=
  {| S3_BUCKET_NAME := None;
     TEMP_UPLOAD_DIR := None;
     list_available_users_and_questions := list_available_users_and_questions sample_env;
     find_video_file := find_video_file sample_env;
     download_file := download_file sample_env;
     makedirs := makedirs sample_env;
     emotion_analyze_video := emotion_analyze_video sample_env;
     eye_tracking_analyze_video := λ _ _ _ _, Return (sample_gaze 9 true);
     analyze_keywords := analyze_keywords sample_env;
     save_interview_attitude := λ _, Raise (Exception "mariadb is down");
     analyze_interview_results := analyze_interview_results sample_env;
     status_session := status_session sample_env;
     replace_one_session := replace_one_session sample_env;
     find_one_session := find_one_session sample_env;
     find_session := None;
     sleep_cancelled := sleep_cancelled sample_env |}.

(** The same, with an object store that holds no file for any unit. *)
Definition no_video_env : env :=
  {| S3_BUCKET_NAME := None;
     TEMP_UPLOAD_DIR := None;
     list_available_users_and_questions := list_available_users_and_questions sample_env;
     find_video_file := λ _ _ _, Return None;
     download_file := download_file sample_env;
     makedirs := makedirs sample_env;
     emotion_analyze_video := emotion_analyze_video sample_env;
     eye_tracking_analyze_video := eye_tracking_analyze_video sample_env;
     analyze_keywords := analyze_keywords sample_env;
     save_interview_attitude := save_interview_attitude sample_env;
     analyze_interview_results := analyze_interview_results sample_env;
     status_session := status_session sample_env;
     replace_one_session := replace_one_session sample_env;
     find_one_session := find_one_session sample_env;
     find_session := None;
     sleep_cancelled := sleep_cancelled sample_env |}.

(** The same, with a commentary call that is cancelled. *)
Definition cancelled_env : env :=
  {| S3_BUCKET_NAME := None;
     TEMP_UPLOAD_DIR := None;
     list_available_users_and_questions := list_available_users_and_questions sample_env;
     find_video_file := find_video_file sample_env;
     download_file := download_file sample_env;
     makedirs := makedirs sample_env;
     emotion_analyze_video := emotion_analyze_video sample_env;
     eye_tracking_analyze_video := eye_tracking_analyze_video sample_env;
     analyze_keywords := analyze_keywords sample_env;
     save_interview_attitude := save_interview_attitude sample_env;
     analyze_interview_results := λ _ _ _ _, Raise CancelledError;
     status_session := status_session sample_env;
     replace_one_session := replace_one_session sample_env;
     find_one_session := find_one_session sample_env;
     find_session := None;
     sleep_cancelled := sleep_cancelled sample_env |}.

Definition sample_world : world := startup [] 100.

Definition sample_request : S3UserVideoRequest :=
  {| req_user_id := "iv001"; req_question_num := "Q1"; req_session_id := None |}.

(** Whether a string contains a character, and the listing of a unit. *)
Fixpoint contains_char (c : ascii) (s : string) : bool :=
  match s with
  | EmptyString => false
  | String a s' => bool_decide (a = c) || contains_char c s'
  end.

Definition listed (available : list (string * list string)) (user question : string)
    : Prop :=
  ∃ question_nums, (user, question_nums) ∈ available ∧ question ∈ question_nums.

(** A stored record for the pair. *)
Definition has_record (c : list doc) (user question : string) : Prop :=
  ∃ d, d ∈ c ∧ user_id d = Some user ∧ question_num d = Some question.

Definition set_status (s : string) (d : doc) : doc :=
  {| analysis_id := analysis_id d; user_id := user_id d;
     question_num := question_num d; session_id := session_id d;
     video_info := video_info d; emotion_analysis := emotion_analysis d;
     eye_tracking_analysis := eye_tracking_analysis d;
     cheating_detection := cheating_detection d;
     status := s; error := error d; created_at := created_at d;
     completed_at := completed_at d; failed_at := failed_at d |}.

(** A stored record of a unit, as a failed job leaves it. *)
Definition stored_record (user question st : string) : doc :=
  set_status st (error_data ("auto_s3_analysis_" +:+ user +:+ "_" +:+ question +:+ "_0")
                   user question (Some "auto_batch") (Exception "scoring failed") 0).

(** ** The invariant of the drain

    The queue is a list object; the flag is set exactly while some task is
    in its loop; no two tasks are in their loops; and the list a task loops
    over is an object of its own, not the queue. *)
Record machine_inv (s : system) : Prop := {
  inv_queue : is_Some (heap (shared s) !! _pending_gpt_analyses (shared s));
  inv_flag :
    _batch_processing_active (shared s) = true ↔
    ∃ i b k, tasks s !! i = Some (Draining b k);
  inv_single : ∀ i j b k b' k',
    tasks s !! i = Some (Draining b k) →
    tasks s !! j = Some (Draining b' k') → i = j;
  inv_batch : ∀ i b k,
    tasks s !! i = Some (Draining b k) →
    is_Some (heap (shared s) !! b) ∧ b ≠ _pending_gpt_analyses (shared s)
}.

(** No new item is started. *)
Definition same_batch_items : relation world :=
  λ w w', batch_items (trace w') = batch_items (trace w).

(** Moves of the machine, as functions. *)
Definition do_trigger (s : system) : system :=
  {| shared := shared s; tasks := tasks s ++ [Created] |}.

Definition do_task (E : env) (i : nat) (s : system) : system :=
  match tasks s !! i with
  | Some t =>
    {| shared := (task_step E t (shared s)).2;
       tasks := <[i := (task_step E t (shared s)).1]> (tasks s) |}
  | None => s
  end.

Definition do_enqueue (id user question : string) (s : system) : system :=
  {| shared := (add_to_gpt_batch_queue id user question (shared s)).2;
     tasks := tasks s |}.

(** Two triggers of the drain while one job is queued: the first enters its
    loop, the second finds the flag set; then a second job is queued. *)
Definition sample_entry (id question : string) (t : nat) : queue_entry :=
  {| qe_analysis_id := id; qe_user_id := "iv001"; qe_question_num := question;
     added_at := t |}.

(** The state a completed sample job leaves, from which a drain can start. *)
Definition sample_completed_world : world :=
  (process_s3_user_video_analysis sample_env "job-1" "skala25a" "iv001/Q1.mp4"
     "iv001" "Q1" (Some "manual") sample_world).2.

Definition sample_started : system :=
  {| shared := startup (analysis_results sample_completed_world) 100;
     tasks := [] |}.

Definition sample_queued : system :=
  do_enqueue "job-1" "iv001" "Q1" (do_trigger (do_trigger sample_started)).

Definition sample_draining : system := do_task sample_env 0 sample_queued.

Definition sample_second_trigger : system := do_task sample_env 1 sample_draining.

Definition sample_late_entry : system :=
  do_enqueue "job-2" "iv001" "Q3" sample_second_trigger.

(** Then the first task handles its item. *)
Definition sample_item_done : system := do_task sample_env 0 sample_late_entry.

(** The segments of one task run without interleaving, at most [n] of them. *)
Fixpoint run_task (E : env) (n : nat) (t : task) (w : world) : task * world :=
  match n with
  | O => (t, w)
  | S n' => let '(t', w') := task_step E t w in run_task E n' t' w'
  end.

(** ** Notions used in the further properties *)

(** What a job may change: the record of its own analysis id, and the
    queue, to which it may add entries of its own; the flag and the identity
    of the queue object are left alone. *)
Definition own_entry (id user question : string) (e : queue_entry) : Prop :=
  qe_analysis_id e = id ∧ qe_user_id e = user ∧ qe_question_num e = question.

Definition job_frame (id user question : string) : relation world :=
  λ w w',
    (∀ id', id' ≠ id →
       find_one id' (analysis_results w') = find_one id' (analysis_results w))
    ∧ _pending_gpt_analyses w' = _pending_gpt_analyses w
    ∧ _batch_processing_active w' = _batch_processing_active w
    ∧ ∃ l, pending w' = pending w ++ l ∧ Forall (own_entry id user question) l.

(** The job collection is untouched. *)
Definition same_analysis_results : relation world :=
  λ w w', analysis_results w' = analysis_results w.

(** The units of a listing, in its order. *)
Definition listing_units (available : list (string * list string))
    : list (string * string) :=
  '(user, question_nums) ← available;
  question ← question_nums;
  [(user, question)].

(** The statuses this module stores. *)
Definition terminal_status (d : doc) : Prop :=
  status d = "completed" ∨ status d = "error".

(** A coroutine that is not left by a cancellation. *)
Definition uncancelled {A} (m : M A) : Prop :=
  ∀ w, (m w).1 ≠ Raise CancelledError.

(** The sample collaborators, with an object store that cannot be listed. *)
Definition listing_down_env : env :=
  {| S3_BUCKET_NAME := None;
     TEMP_UPLOAD_DIR := None;
     list_available_users_and_questions := λ _, Raise (Exception "bucket unreachable");
     find_video_file := find_video_file sample_env;
     download_file := download_file sample_env;
     makedirs := makedirs sample_env;
     emotion_analyze_video := emotion_analyze_video sample_env;
     eye_tracking_analyze_video := eye_tracking_analyze_video sample_env;
     analyze_keywords := analyze_keywords sample_env;
     save_interview_attitude := save_interview_attitude sample_env;
     analyze_interview_results := analyze_interview_results sample_env;
     status_session := status_session sample_env;
     replace_one_session := replace_one_session sample_env;
     find_one_session := find_one_session sample_env;
     find_session := None;
     sleep_cancelled := sleep_cancelled sample_env |}.

(** The records of [w'] are records of [w] or satisfy [P]. *)
Definition records_from (P : doc → Prop) : relation world :=
  λ w w', ∀ d, d ∈ analysis_results w' → d ∈ analysis_results w ∨ P d.

(** A record as a job of the unit stores it. *)
Definition job_record (user question : string) (d : doc) : Prop :=
  user_id d = Some user ∧ question_num d = Some question ∧ terminal_status d.

(** ** [cancel_analysis] (lines 286-307) *)

(** [collection.update_one({"analysis_id": id, "status": "processing"},
    {"$set": {"status": "cancelled", ...}})]: the first record that matches
    the filter is updated; [None] stands for [matched_count == 0].  The
    update also sets the time stamp [cancelled_at], a field that nothing in
    the module reads and that [doc] does not carry. *)
Fixpoint update_one_cancel (id : string) (c : list doc) : option (list doc) :=
  match c with
  | [] => None
  | d :: c' =>
    if decide (analysis_id d = id ∧ status d = "processing")
    then Some (set_status "cancelled" d :: c')
    else (d ::.) <$> update_one_cancel id c'
  end.

Record cancel_response := {
  cr_message : string;
  cr_analysis_id : string
}.

(** [update_one_session] is [get_db_session()] and the update made in it,
    as the fields of [env] are for the other queries. *)
Definition cancel_analysis (update_one_session : string → option string)
    (id : string) : M cancel_response :=
  try_except_reraising_http
    (call_db (update_one_session id);;
     c ← get_analysis_results;
     match update_one_cancel id c with
     | Some c' =>
       modify (set_analysis_results (λ _, c'));;
       mret {| cr_message := "분석이 취소되었습니다."; cr_analysis_id := id |}
     | None => raise (HTTPException 404 "취소할 수 있는 분석을 찾을 수 없습니다.")
     end)
    (λ e, raise (HTTPException 500 ("분석 취소 중 오류 발생: " +:+ str e))).

(** The run of a job that [analyze_s3_user_video] handed to
    [background_tasks.add_task]; the framework runs it after the response
    is sent. *)
Definition run_background_task (E : env) (t : background_task) : M unit :=
  process_s3_user_video_analysis E (bt_analysis_id t) (bt_bucket t) (bt_key t)
    (bt_user_id t) (bt_question_num t) (bt_session_id t).

(** The state after a job has run for each of the three sample units, and
    no drain yet. *)
Definition sample_all_analysed : world :=
  let job q w :=
    (process_s3_user_video_analysis sample_env ("job-" +:+ q) "skala25a"
       ("iv001/" +:+ q +:+ ".mp4") "iv001" q (Some "manual") w).2 in
  job "Q3" (job "Q2" (job "Q1" sample_world)).

(** The answers of [find_video_file] on which the scan starts no job for
    the unit: no key, an empty key, or an [Exception]. *)
Definition file_missing (r : outcome (option string)) : Prop :=
  match r with
  | Return None => True
  | Return (Some key) => str_truthy key = false
  | Raise e => isinstance_Exception e = true
  end.

(** The sample collaborators, with an object store that lists the unit
    [Q3] and holds no file for it. *)
Definition missing_file_env : env :=
  {| S3_BUCKET_NAME := None;
     TEMP_UPLOAD_DIR := None;
     list_available_users_and_questions := list_available_users_and_questions sample_env;
     find_video_file := λ b u q,
       if decide (q = "Q3") then Return None else find_video_file sample_env b u q;
     download_file := download_file sample_env;
     makedirs := makedirs sample_env;
     emotion_analyze_video := emotion_analyze_video sample_env;
     eye_tracking_analyze_video := eye_tracking_analyze_video sample_env;
     analyze_keywords := analyze_keywords sample_env;
     save_interview_attitude := save_interview_attitude sample_env;
     analyze_interview_results := analyze_interview_results sample_env;
     status_session := status_session sample_env;
     replace_one_session := replace_one_session sample_env;
     find_one_session := find_one_session sample_env;
     find_session := None;
     sleep_cancelled := sleep_cancelled sample_env |}.

(** The entries a task has still before it: those of its list from its
    index on. *)
Definition remaining_of (w : world) (t : task) : list queue_entry :=
  match t with
  | Draining b i => drop i (default [] (heap w !! b))
  | _ => []
  end.

Definition remaining (s : system) : list queue_entry :=
  tasks s ≫= remaining_of (shared s).

(** ** The routes

    The [@app.get] and [@app.post] decorators of the module, in the order
    of their declaration (lines 99-691).  The framework serves a request by
    the first route, in that order, whose path pattern and method match; a
    path parameter [{name}] matches one non-empty segment.  A request path
    [/s1/.../sn] is the list of its segments. *)
Inductive http_method : Type := GET | POST.

Inductive segment : Type :=
| Lit (s : string)
| Param.

Inductive endpoint : Type :=
| ep_root
| ep_get_available_users_and_questions
| ep_find_specific_video
| ep_analyze_s3_user_video
| ep_get_analysis_result
| ep_get_llm_comment
| ep_get_recent_analyses
| ep_get_analysis_status
| ep_cancel_analysis
| ep_get_interview_attitude_by_user
| ep_get_interview_attitude_by_user_question
| ep_health_check
| ep_test_yaml_keywords
| ep_test_mariadb_save
| ep_test_yaml_all_features
| ep_get_auto_analysis_status
| ep_restart_auto_analysis
| ep_get_gpt_batch_status
| ep_trigger_gpt_batch
| ep_check_and_trigger_gpt_batch_endpoint.

#[global] Instance http_method_eq_dec : EqDecision http_method.
Proof. solve_decision. Defined.

Definition routes : list (http_method * list segment * endpoint) :=
  [ (GET, [], ep_root);
    (GET, [Lit "s3"; Lit "available-users-questions"],
     ep_get_available_users_and_questions);
    (GET, [Lit "s3"; Lit "find-video"; Param; Param], ep_find_specific_video);
    (POST, [Lit "analyze-s3-user-video"], ep_analyze_s3_user_video);
    (GET, [Lit "analysis"; Param], ep_get_analysis_result);
    (GET, [Lit "analysis"; Param; Lit "llm-comment"], ep_get_llm_comment);
    (GET, [Lit "analysis"; Lit "recent"], ep_get_recent_analyses);
    (GET, [Lit "analysis"; Param; Lit "status"], ep_get_analysis_status);
    (POST, [Lit "analysis"; Param; Lit "cancel"], ep_cancel_analysis);
    (GET, [Lit "interview-attitude"; Param], ep_get_interview_attitude_by_user);
    (GET, [Lit "interview-attitude"; Param; Param],
     ep_get_interview_attitude_by_user_question);
    (GET, [Lit "health"], ep_health_check);
    (POST, [Lit "test"; Lit "yaml-keywords"], ep_test_yaml_keywords);
    (POST, [Lit "test"; Lit "mariadb-save"], ep_test_mariadb_save);
    (GET, [Lit "test"; Lit "yaml-all-features"], ep_test_yaml_all_features);
    (GET, [Lit "auto-analysis"; Lit "status"], ep_get_auto_analysis_status);
    (POST, [Lit "auto-analysis"; Lit "restart"], ep_restart_auto_analysis);
    (GET, [Lit "gpt-batch"; Lit "status"], ep_get_gpt_batch_status);
    (POST, [Lit "gpt-batch"; Lit "trigger"], ep_trigger_gpt_batch);
    (POST, [Lit "gpt-batch"; Lit "check-and-trigger"],
     ep_check_and_trigger_gpt_batch_endpoint) ].

(** The path parameters when the pattern matches the path. *)
Fixpoint match_path (pattern : list segment) (path : list string)
    : option (list string) :=
  match pattern, path with
  | [], [] => Some []
  | Lit s :: pattern', x :: path' =>
    if decide (x = s) then match_path pattern' path' else None
  | Param :: pattern', x :: path' =>
    if decide (x = "") then None else (x ::.) <$> match_path pattern' path'
  | _, _ => None
  end.

(** The first route, in the order of declaration, that matches the method
    and the path. *)
Fixpoint first_match (m : http_method) (path : list string)
    (rs : list (http_method * list segment * endpoint))
    : option (endpoint * list string) :=
  match rs with
  | [] => None
  | (m', pattern, e) :: rs' =>
    if decide (m' = m) then
      match match_path pattern path with
      | Some params => Some (e, params)
      | None => first_match m path rs'
      end
    else first_match m path rs'
  end.

Definition dispatch (m : http_method) (path : list string)
    : option (endpoint * list string) :=
  first_match m path routes.

(** ** Handlers that start coroutines *)

(** A coroutine handed to [background_tasks.add_task] or
    [asyncio.create_task]; it runs after the handler has returned. *)
Inductive coroutine : Type :=
| co_auto_analyze_all_s3_videos
| co_process_gpt_batch
| co_check_and_trigger_gpt_batch.

Definition run_coroutine (E : env) (c : coroutine) : M unit :=
  match c with
  | co_auto_analyze_all_s3_videos => auto_analyze_all_s3_videos E
  | co_process_gpt_batch => process_gpt_batch E
  | co_check_and_trigger_gpt_batch => check_and_trigger_gpt_batch E
  end.

(** [startup_event] (lines 53-68); [create_pool] is the outcome of
    [await mariadb_handler.create_pool()].  The scan is started inside the
    [try], after the pool. *)
Definition startup_event (create_pool : outcome unit) : M (list coroutine) :=
  try_except
    (call create_pool;;
     mret [co_auto_analyze_all_s3_videos])
    (λ e, mret []).

Record restart_response := {
  rr_message : string;
  rr_timestamp : nat
}.

(** [restart_auto_analysis] (lines 629-644). *)
Definition restart_auto_analysis : M (restart_response * list coroutine) :=
  try_except
    (t ← get_now;
     mret ({| rr_message := "자동 분석이 백그라운드에서 시작되었습니다.";
              rr_timestamp := t |},
           [co_auto_analyze_all_s3_videos]))
    (λ e, raise (HTTPException 500 ("자동 분석 재시작 중 오류 발생: " +:+ str e))).



Record trigger_response := {
  tr_status : string;
  tr_message : string;
  tr_pending_count : nat;
  tr_timestamp : option nat
}.

(** [trigger_gpt_batch] (lines 665-689). *)
Definition trigger_gpt_batch : M (trigger_response * list coroutine) :=
  queue ← get_pending;
  if bool_decide (queue = []) then
    mret ({| tr_status := "success";
             tr_message := "GPT 분석 대기 항목이 없습니다.";
             tr_pending_count := 0;
             tr_timestamp := None |}, [])
  else
    try_except
      (let pending_count := length queue in
       t ← get_now;
       mret ({| tr_status := "success";
                tr_message := "GPT 배치 처리를 시작했습니다.";
                tr_pending_count := pending_count;
                tr_timestamp := Some t |}, [co_process_gpt_batch]))
      (λ e, raise (HTTPException 500 ("GPT 배치 처리 시작 실패: " +:+ str e))).

(** [check_and_trigger_gpt_batch_endpoint] (lines 691-704). *)
Definition check_and_trigger_gpt_batch_endpoint
    : M (trigger_response * list coroutine) :=
  try_except
    (t ← get_now;
     mret ({| tr_status := "success";
              tr_message := "GPT 배치 처리 확인을 시작했습니다.";
              tr_pending_count := 0;
              tr_timestamp := Some t |}, [co_check_and_trigger_gpt_batch]))
    (λ e, raise (HTTPException 500 ("GPT 배치 확인 실패: " +:+ str e))).

(** ** Handlers on the object store *)

Record find_video_response := {
  fv_found : bool;
  fv_user_id : string;
  fv_question_num : string;
  fv_s3_key : option string;
  fv_s3_url : option string;
  fv_message : option string
}.

(** [find_specific_video] (lines 122-147). *)
Definition find_specific_video (E : env) (user question : string)
    : M find_video_response :=
  try_except
    (let bucket_name := default "skala25a" (S3_BUCKET_NAME E) in
     video_key ← call (find_video_file E bucket_name user question);
     let not_found :=
       {| fv_found := false; fv_user_id := user; fv_question_num := question;
          fv_s3_key := None; fv_s3_url := None;
          fv_message := Some "해당 사용자/질문의 영상 파일을 찾을 수 없습니다." |} in
     match video_key with
     | Some key =>
       if str_truthy key then
         mret {| fv_found := true; fv_user_id := user; fv_question_num := question;
                 fv_s3_key := Some key;
                 fv_s3_url := Some ("s3://" +:+ bucket_name +:+ "/" +:+ key);
                 fv_message := None |}
       else mret not_found
     | None => mret not_found
     end)
    (λ e, raise (HTTPException 500 ("영상 검색 실패: " +:+ str e))).

Record available_response := {
  av_bucket : string;
  av_available_videos : list (string * list string);
  av_total_users : nat;
  av_total_videos : nat
}.

(** [get_available_users_and_questions] (lines 104-120). *)
Definition get_available_users_and_questions (E : env) : M available_response :=
  try_except
    (let bucket_name := default "skala25a" (S3_BUCKET_NAME E) in
     available_videos ← call (list_available_users_and_questions E bucket_name);
     mret {| av_bucket := bucket_name;
             av_available_videos := available_videos;
             av_total_users := length available_videos;
             av_total_videos := sum_list (length ∘ snd <$> available_videos) |})
    (λ e, raise (HTTPException 500 ("S3 목록 조회 실패: " +:+ str e))).

(** The collaborators with another value of the environment variable
    [S3_BUCKET_NAME]. *)
Definition with_bucket (bucket : option string) (E : env) : env :=
  {| S3_BUCKET_NAME := bucket;
     TEMP_UPLOAD_DIR := TEMP_UPLOAD_DIR E;
     list_available_users_and_questions := list_available_users_and_questions E;
     find_video_file := find_video_file E;
     download_file := download_file E;
     makedirs := makedirs E;
     emotion_analyze_video := emotion_analyze_video E;
     eye_tracking_analyze_video := eye_tracking_analyze_video E;
     analyze_keywords := analyze_keywords E;
     save_interview_attitude := save_interview_attitude E;
     analyze_interview_results := analyze_interview_results E;
     status_session := status_session E;
     replace_one_session := replace_one_session E;
     find_one_session := find_one_session E;
     find_session := find_session E;
     sleep_cancelled := sleep_cancelled E |}.

(** ** [health_check] (lines 350-390) *)

Record health_services := {
  hs_mongodb : string;
  hs_mariadb : string;
  hs_s3 : string
}.

Record health_response := {
  hr_status : string;
  hr_timestamp : nat;
  hr_services : health_services
}.

(** The three probes: [db.list_collection_names()] in a database session,
    [await mariadb_handler.test_connection()] and
    [await s3_handler.test_connection(bucket_name)]. *)
Definition health_check (mongodb_probe : option string)
    (mariadb_probe : outcome unit) (s3_probe : string → outcome unit)
    (E : env) : M health_response :=
  try_except
    (mongodb_status ←
       try_except (call_db mongodb_probe;; mret "healthy")
                  (λ e, mret ("error: " +:+ str e));
     mariadb_status ←
       try_except (call mariadb_probe;; mret "healthy")
                  (λ e, mret ("error: " +:+ str e));
     s3_status ←
       try_except
         (let bucket_name := default "skala25a" (S3_BUCKET_NAME E) in
          call (s3_probe bucket_name);; mret "healthy")
         (λ e, mret ("error: " +:+ str e));
     t ← get_now;
     mret {| hr_status := "healthy";
             hr_timestamp := t;
             hr_services := {| hs_mongodb := mongodb_status;
                               hs_mariadb := mariadb_status;
                               hs_s3 := s3_status |} |})
    (λ e, raise (HTTPException 500 ("상태 확인 실패: " +:+ str e))).

(** ** [get_analysis_status] (lines 259-284) *)

(** The projection of the record on the fields the query asks for.  It
    also asks for [progress] and [stage]; the records of [analysis_data]
    and [error_data] have no such field. *)
Record status_response := {
  sr_analysis_id : string;
  sr_status : string;
  sr_created_at : nat;
  sr_completed_at : option nat
}.

Definition get_analysis_status (E : env) (id : string) : M status_response :=
  try_except_reraising_http
    (call_db (find_one_session E id);;
     c ← get_analysis_results;
     match find_one id c with
     | Some result =>
       mret {| sr_analysis_id := analysis_id result;
               sr_status := status result;
               sr_created_at := created_at result;
               sr_completed_at := completed_at result |}
     | None => raise (HTTPException 404 "분석을 찾을 수 없습니다.")
     end)
    (λ e, raise (HTTPException 500 ("분석 상태 조회 중 오류 발생: " +:+ str e))).

(** The statuses of the status updates of one job, in order. *)
Definition statuses_of (id : string) (t : list event) : list string :=
  omap (λ ev, match ev with
              | StatusUpdate id' st _ _ _ => if decide (id' = id) then Some st else None
              | _ => None
              end) t.

(** The sample collaborators, with every sleep cancelled. *)
Definition sleep_cancelled_env : env :=
  {| S3_BUCKET_NAME := None;
     TEMP_UPLOAD_DIR := None;
     list_available_users_and_questions := list_available_users_and_questions sample_env;
     find_video_file := find_video_file sample_env;
     download_file := download_file sample_env;
     makedirs := makedirs sample_env;
     emotion_analyze_video := emotion_analyze_video sample_env;
     eye_tracking_analyze_video := eye_tracking_analyze_video sample_env;
     analyze_keywords := analyze_keywords sample_env;
     save_interview_attitude := save_interview_attitude sample_env;
     analyze_interview_results := analyze_interview_results sample_env;
     status_session := status_session sample_env;
     replace_one_session := replace_one_session sample_env;
     find_one_session := find_one_session sample_env;
     find_session := None;
     sleep_cancelled := λ _ _, true |}.

(** The sample collaborators, with an evaluation database that answers
    every save with [False]. *)
Definition attitude_refused_env : env :=
  {| S3_BUCKET_NAME := None;
     TEMP_UPLOAD_DIR := None;
     list_available_users_and_questions := list_available_users_and_questions sample_env;
     find_video_file := find_video_file sample_env;
     download_file := download_file sample_env;
     makedirs := makedirs sample_env;
     emotion_analyze_video := emotion_analyze_video sample_env;
     eye_tracking_analyze_video := eye_tracking_analyze_video sample_env;
     analyze_keywords := analyze_keywords sample_env;
     save_interview_attitude := λ _, Return false;
     analyze_interview_results := analyze_interview_results sample_env;
     status_session := status_session sample_env;
     replace_one_session := replace_one_session sample_env;
     find_one_session := find_one_session sample_env;
     find_session := None;
     sleep_cancelled := sleep_cancelled sample_env |}.

(** The rows of the save calls that returned, with the answers, in order. *)
Definition save_calls (t : list event) : list (interview_attitude * bool) :=
  omap (λ ev, match ev with
              | SaveInterviewAttitude row saved => Some (row, saved)
              | _ => None
              end) t.

(** * Properties *)

(** ** Running coroutines *)

Lemma bind_run {A B} (m : M A) (f : A → M B) w :
  (m ≫= f) w =
  match m w with
  | (Return a, w') => f a w'
  | (Raise e, w') => (Raise e, w')
  end.
Proof. reflexivity. Qed.

Lemma bind_Return {A B} (m : M A) (f : A → M B) w a w' :
  m w = (Return a, w') → (m ≫= f) w = f a w'.
Proof. intros H. by rewrite bind_run, H. Qed.

Lemma bind_Raise {A B} (m : M A) (f : A → M B) w e w' :
  m w = (Raise e, w') → (m ≫= f) w = (Raise e, w').
Proof. intros H. by rewrite bind_run, H. Qed.

Ltac raised H := rewrite ?bind_run in H; simpl in H; simplify_eq.

Lemma not_cancelled_Exception e :
  e ≠ CancelledError → isinstance_Exception e = true.
Proof. by destruct e. Qed.

Section stable_rules.
Context (S : relation world) `{!PreOrder S}.

Lemma stable_ret {A} (a : A) : stable S (mret a).
Proof. intros w. simpl. reflexivity. Qed.

Lemma stable_raise {A} e : stable S (@raise A e).
Proof. intros w. simpl. reflexivity. Qed.

Lemma stable_call {A} (r : outcome A) : stable S (call r).
Proof. intros w. simpl. reflexivity. Qed.

Lemma stable_call_db r : stable S (call_db r).
Proof. intros w. simpl. reflexivity. Qed.

Lemma stable_call_sync {A} (r : string + A) : stable S (call_sync r).
Proof. intros w. simpl. reflexivity. Qed.

Lemma stable_get_now : stable S get_now.
Proof. intros w. simpl. reflexivity. Qed.

Lemma stable_get_analysis_results : stable S get_analysis_results.
Proof. intros w. simpl. reflexivity. Qed.

Lemma stable_get_pending : stable S get_pending.
Proof. intros w. simpl. reflexivity. Qed.

Lemma stable_modify f : (∀ w, S w (f w)) → stable S (modify f).
Proof. intros H w. apply H. Qed.

Lemma stable_sleep E n :
  (∀ w, S w (set_now (λ t, (t + n)%nat) w)) → stable S (sleep E n).
Proof.
  intros H w. unfold sleep. destruct (sleep_cancelled E (now w) n); [|apply H].
  simpl. reflexivity.
Qed.

Lemma stable_bind {A B} (m : M A) (f : A → M B) :
  stable S m → (∀ a, stable S (f a)) → stable S (m ≫= f).
Proof.
  intros Hm Hf w. rewrite bind_run. specialize (Hm w).
  destruct (m w) as [[a|e] w1]; simpl in *; [|done].
  etrans; [done|apply Hf].
Qed.

Lemma stable_try_except {A} (body : M A) handler :
  stable S body → (∀ e, stable S (handler e)) → stable S (try_except body handler).
Proof.
  intros Hb Hh w. unfold try_except. specialize (Hb w).
  destruct (body w) as [[a|e] w1]; simpl in *; [done|].
  destruct (isinstance_Exception e); [|done].
  etrans; [done|apply Hh].
Qed.

Lemma stable_try_finally {A} (body : M A) cleanup :
  stable S body → stable S cleanup → stable S (try_finally body cleanup).
Proof.
  intros Hb Hc w. unfold try_finally. specialize (Hb w).
  destruct (body w) as [r w1]; simpl in *. specialize (Hc w1).
  destruct (cleanup w1) as [[?|?] w2]; simpl in *; by etrans.
Qed.

End stable_rules.

#[local] Instance trace_extends_preorder : PreOrder trace_extends.
Proof.
  split; [intros w|intros w1 w2 w3]; unfold trace_extends; [done|].
  intros. by etrans.
Qed.

#[local] Instance same_queue_preorder : PreOrder same_queue.
Proof.
  split; [by intros w|intros w1 w2 w3 (?&?&?) (?&?&?)].
  unfold same_queue. split_and!; congruence.
Qed.

Ltac stable_rule lem := apply lem; [apply _|..].

Ltac stable_leaf :=
  first [ stable_rule stable_call | stable_rule stable_call_db
        | stable_rule stable_call_sync | stable_rule stable_get_now
        | stable_rule stable_get_analysis_results | stable_rule stable_get_pending
        | stable_rule stable_ret | stable_rule stable_raise ].

(** ** The job collection *)

Lemma find_one_replace_one id d c :
  analysis_id d = id → find_one id (replace_one id d c) = Some d.
Proof.
  intros Hd. induction c as [|x c IH]; simpl.
  - by rewrite decide_True.
  - destruct (decide (analysis_id x = id)); simpl.
    + by rewrite decide_True.
    + by rewrite decide_False.
Qed.

Lemma find_one_replace_one_ne id id' d c :
  id ≠ id' → analysis_id d = id → find_one id' (replace_one id d c) = find_one id' c.
Proof.
  intros Hne Hd. induction c as [|x c IH]; simpl.
  - rewrite decide_False; [done|congruence].
  - destruct (decide (analysis_id x = id)) as [Hx|Hx]; simpl.
    + rewrite !decide_False; [done|congruence..].
    + destruct (decide (analysis_id x = id')); [done|apply IH].
Qed.

Lemma find_one_Some id c d :
  find_one id c = Some d → d ∈ c ∧ analysis_id d = id.
Proof.
  induction c as [|x c IH]; simpl; [done|].
  destruct (decide (analysis_id x = id)).
  - intros [= ->]. split; [left|done].
  - intros [??]%IH. split; [by right|done].
Qed.

(** ** The status sink and the job *)

Section job.
Context (E : env).

Lemma update_analysis_status_run id st sg p w :
  update_analysis_status E id st sg p w =
  (Return (),
   set_trace (λ t, t ++ [StatusUpdate id st sg p (status_session E id st sg p)]) w).
Proof.
  unfold update_analysis_status, try_except, call_db, print, modify.
  rewrite bind_run. by destruct (status_session E id st sg p).
Qed.

Lemma upsert_run d w :
  upsert E d w =
  match replace_one_session E d with
  | None =>
    (Return (),
     set_trace (λ t, t ++ [ReplaceOne d])
       (set_analysis_results (replace_one (analysis_id d) d) w))
  | Some msg => (Raise (Exception msg), w)
  end.
Proof.
  unfold upsert, call_db. rewrite bind_run.
  by destruct (replace_one_session E d).
Qed.

Lemma save_attitude_run row w :
  save_attitude E row w =
  match save_interview_attitude E row with
  | Return saved =>
    (Return (), set_trace (λ t, t ++ [SaveInterviewAttitude row saved]) w)
  | Raise e => (Raise e, w)
  end.
Proof.
  unfold save_attitude, call. rewrite bind_run.
  by destruct (save_interview_attitude E row).
Qed.

(** What a run of the [try] block that reaches its end has done. *)
Lemma job_body_Return id bucket key user q session w w' :
  job_body E id bucket key user q session w = (Return (), w') →
  ∃ path emotion gaze gpt saved,
    let d := analysis_data id bucket key user q session path emotion gaze (now w) in
    eye_tracking_analyze_video E path user q key = Return gaze
    ∧ replace_one_session E d = None
    ∧ analysis_results w' = replace_one id d (analysis_results w)
    ∧ now w' = now w
    ∧ download_file E bucket key (temp_dir_of E id) = Return path
    ∧ emotion_analyze_video E path = Return emotion
    ∧ analyze_keywords E (keyword_data emotion gaze) = inr gpt
    ∧ save_interview_attitude E (job_attitude user q emotion gaze gpt) = Return saved
    ∧ trace w' = trace w ++
        [StatusUpdate id "processing" (Some "download") 10
           (status_session E id "processing" (Some "download") 10);
         StatusUpdate id "processing" (Some "emotion_analysis") 30
           (status_session E id "processing" (Some "emotion_analysis") 30);
         StatusUpdate id "processing" (Some "eye_tracking") 60
           (status_session E id "processing" (Some "eye_tracking") 60);
         StatusUpdate id "processing" (Some "save_results") 80
           (status_session E id "processing" (Some "save_results") 80);
         ReplaceOne d;
         SaveInterviewAttitude (job_attitude user q emotion gaze gpt) saved;
         StatusUpdate id "completed" (Some "completed") 100
           (status_session E id "completed" (Some "completed") 100)].
Proof.
  intros H. unfold job_body in H.
  rewrite !bind_run, !update_analysis_status_run in H.
  unfold call_db, call in H.
  destruct (makedirs E (temp_dir_of E id)); [done|].
  destruct (download_file E bucket key (temp_dir_of E id)) as [path|] eqn:Hd; [|done].
  rewrite !bind_run, !update_analysis_status_run in H.
  destruct (emotion_analyze_video E path) as [emotion|] eqn:He; [|done].
  rewrite !bind_run, !update_analysis_status_run in H.
  destruct (eye_tracking_analyze_video E path user q key) as [gaze|] eqn:Hg; [|done].
  rewrite !bind_run in H.
  destruct (read_concentration_score gaze _) as [[c|e] w1] eqn:Hc; [|done].
  assert (w1 = set_trace (λ t, t ++
            [StatusUpdate id "processing" (Some "eye_tracking") 60
               (status_session E id "processing" (Some "eye_tracking") 60)])
          (set_trace (λ t, t ++
            [StatusUpdate id "processing" (Some "emotion_analysis") 30
               (status_session E id "processing" (Some "emotion_analysis") 30)])
          (set_trace (λ t, t ++
            [StatusUpdate id "processing" (Some "download") 10
               (status_session E id "processing" (Some "download") 10)]) w)))
    as ->.
  { unfold read_concentration_score in Hc.
    destruct (basic_scores gaze) as [bs|]; [destruct (concentration_score bs)|];
      unfold mret, M_ret, raise in Hc; by simplify_eq. }
  clear Hc. rewrite !bind_run, !update_analysis_status_run in H.
  unfold get_now in H. simpl now in H.
  rewrite !bind_run, upsert_run in H.
  destruct (replace_one_session E _) eqn:Hr; [done|].
  unfold add_to_gpt_batch_queue, modify, call_sync in H. rewrite !bind_run in H.
  destruct (analyze_keywords E _) as [|gpt] eqn:Hk; [done|].
  rewrite !bind_run, save_attitude_run in H.
  destruct (save_interview_attitude E _) as [saved|] eqn:Hsave; [|done].
  rewrite update_analysis_status_run in H. simplify_eq.
  exists path, emotion, gaze, gpt, saved. simpl. split_and!; try done.
  by rewrite <- !(assoc_L (++)).
Qed.

(** The [try] block raises nothing but [Exception]s unless an awaited call
    is cancelled. *)
Lemma job_body_Raise id bucket key user q session w e w' :
  no_cancellation E →
  job_body E id bucket key user q session w = (Raise e, w') →
  isinstance_Exception e = true.
Proof.
  intros Hnc H. unfold job_body in H.
  rewrite !bind_run, !update_analysis_status_run in H.
  unfold call_db, call in H.
  destruct (makedirs E (temp_dir_of E id)); [by raised H|].
  destruct (download_file E bucket key (temp_dir_of E id)) as [path|] eqn:Hd.
  2:{ raised H. apply not_cancelled_Exception. intros ->.
      by eapply nc_download. }
  rewrite !bind_run, !update_analysis_status_run in H.
  destruct (emotion_analyze_video E path) as [emotion|] eqn:He.
  2:{ raised H. apply not_cancelled_Exception. intros ->.
      by eapply nc_emotion. }
  rewrite !bind_run, !update_analysis_status_run in H.
  destruct (eye_tracking_analyze_video E path user q key) as [gaze|] eqn:Hg.
  2:{ raised H. apply not_cancelled_Exception. intros ->.
      by eapply nc_eye. }
  rewrite !bind_run in H.
  destruct (read_concentration_score gaze _) as [[c|e'] w1] eqn:Hc.
  2:{ simplify_eq. unfold read_concentration_score in Hc.
      destruct (basic_scores gaze) as [bs|]; [destruct (concentration_score bs)|];
        unfold mret, M_ret, raise in Hc; by simplify_eq. }
  rewrite !bind_run, !update_analysis_status_run in H.
  unfold get_now in H. rewrite !bind_run, upsert_run in H.
  destruct (replace_one_session E _); [by simplify_eq|].
  unfold add_to_gpt_batch_queue, modify, call_sync in H. rewrite !bind_run in H.
  destruct (analyze_keywords E _) as [|gpt]; [by raised H|].
  rewrite !bind_run, save_attitude_run in H.
  destruct (save_interview_attitude E _) eqn:Hs.
  - by rewrite update_analysis_status_run in H.
  - simplify_eq. apply not_cancelled_Exception. intros ->.
    by eapply nc_attitude.
Qed.

(** The handler never raises: it publishes progress 0 and tries to store
    the error record. *)
Lemma job_handler_run id user q session e w :
  job_handler E id user q session e w =
  let w1 := set_trace (λ t, t ++
              [StatusUpdate id "failed" (Some "error") 0
                 (status_session E id "failed" (Some "error") 0)]) w in
  let d := error_data id user q session e (now w) in
  (Return (),
   match replace_one_session E d with
   | None =>
     set_trace (λ t, t ++ [ReplaceOne d])
       (set_analysis_results (replace_one id d) w1)
   | Some msg => set_trace (λ t, t ++ [ErrorSaveFailed id msg]) w1
   end).
Proof.
  unfold job_handler. rewrite bind_run, update_analysis_status_run.
  unfold try_except, get_now. rewrite bind_run, upsert_run. simpl.
  by destruct (replace_one_session E _).
Qed.

Lemma process_run_Return id bucket key user q session w w1 :
  job_body E id bucket key user q session w = (Return (), w1) →
  process_s3_user_video_analysis E id bucket key user q session w =
  (Return (), set_trace (λ t, t ++ [Cleanup (temp_dir_of E id)]) w1).
Proof.
  intros H. unfold process_s3_user_video_analysis, try_finally, try_except.
  by rewrite H.
Qed.

Lemma process_run_Raise id bucket key user q session w e w1 :
  job_body E id bucket key user q session w = (Raise e, w1) →
  isinstance_Exception e = true →
  process_s3_user_video_analysis E id bucket key user q session w =
  (Return (),
   set_trace (λ t, t ++ [Cleanup (temp_dir_of E id)])
     (job_handler E id user q session e w1).2).
Proof.
  intros H He. unfold process_s3_user_video_analysis, try_finally, try_except.
  rewrite H, He, job_handler_run. done.
Qed.

(** A job that is cancelled passes the cancellation on, after the cleanup. *)
Lemma process_run_cancelled id bucket key user q session w w1 :
  job_body E id bucket key user q session w = (Raise CancelledError, w1) →
  process_s3_user_video_analysis E id bucket key user q session w =
  (Raise CancelledError, set_trace (λ t, t ++ [Cleanup (temp_dir_of E id)]) w1).
Proof.
  intros H. unfold process_s3_user_video_analysis, try_finally, try_except.
  by rewrite H.
Qed.

End job.

Lemma progress_of_app id t1 t2 :
  progress_of id (t1 ++ t2) = progress_of id t1 ++ progress_of id t2.
Proof. apply omap_app. Qed.

Lemma job_body_trace_extends E id bucket key user q session :
  stable trace_extends (job_body E id bucket key user q session).
Proof.
  assert (∀ ev, stable trace_extends (print ev)) as Hprint.
  { intros ev w. by apply prefix_app_r. }
  assert (∀ a b c d, stable trace_extends (update_analysis_status E a b c d)) as Hst.
  { intros a b c d w. rewrite update_analysis_status_run. by apply prefix_app_r. }
  unfold job_body, upsert, save_attitude, add_to_gpt_batch_queue, read_concentration_score.
  repeat first
    [ apply Hst | apply Hprint
    | stable_rule stable_bind; [|intros ?]
    | apply stable_modify; intros ?; unfold trace_extends; simpl; reflexivity
    | stable_leaf
    | case_match ].
Qed.

(** ** Cheat signals *)

Lemma compute_suspected_copying_spec v :
  compute_suspected_copying v = true ↔ (5 ≤ v)%Z.
Proof. unfold compute_suspected_copying. apply bool_decide_eq_true. Qed.

(** The two signals in terms of the keys of the gaze stage's output: an
    absent [analysis_summary], or an absent key in it, counts as no
    violation and no second face. *)
Lemma suspected_copying_of_gaze gaze :
  compute_suspected_copying (get_total_violations gaze) = true ↔
  ∃ s v, analysis_summary gaze = Some s ∧ total_violations s = Some v ∧ (5 ≤ v)%Z.
Proof.
  unfold compute_suspected_copying, get_total_violations. rewrite bool_decide_eq_true.
  destruct (analysis_summary gaze) as [s|]; simpl.
  - destruct (total_violations s) as [v|] eqn:Hv; simpl.
    + split; [intros; by exists s, v|].
      intros (s' & v' & [= <-] & Hv' & Hle). rewrite Hv in Hv'. by injection Hv' as <-.
    + split; [lia|]. intros (s' & v' & [= <-] & Hv' & _). congruence.
  - split; [lia|]. by intros (s' & v' & [=] & _).
Qed.

Lemma suspected_impersonation_of_gaze gaze :
  compute_suspected_impersonation (get_face_multiple_detected gaze) = true ↔
  ∃ s, analysis_summary gaze = Some s ∧ face_multiple_detected s = Some true.
Proof.
  unfold compute_suspected_impersonation, get_face_multiple_detected.
  destruct (analysis_summary gaze) as [s|]; simpl.
  - destruct (face_multiple_detected s) as [b|] eqn:Hb; simpl.
    + split; [intros ->; by exists s|].
      intros (s' & [= <-] & Hb'). rewrite Hb in Hb'. by injection Hb' as ->.
    + split; [done|]. intros (s' & [= <-] & Hb'). congruence.
  - split; [done|]. by intros (s' & [=] & _).
Qed.

(** C5.  A job that completes stores, under its analysis id, a completed
    record that holds the result [gaze] the gaze stage returned for the
    job's downloaded file, and cheat signals that are a function of that
    result alone: [suspected_copying] holds exactly when the result's
    violation count ([analysis_summary.total_violations]) is at least 5, so
    that 4 gives false and 5 gives true, and [suspected_impersonation]
    exactly when the result says that several faces were detected
    ([analysis_summary.face_multiple_detected]), whatever the count.  The
    record also carries the count and the flag themselves, the row of the
    job's save call carries the same two signals, and the drain recomputes
    the same two signals from the stored gaze result. *)
Theorem cheat_signals_of_completed_job E id bucket key user q session w w' :
  job_body E id bucket key user q session w = (Return (), w') →
  ∃ path gaze d cd row saved,
    download_file E bucket key (temp_dir_of E id) = Return path
    ∧ eye_tracking_analyze_video E path user q key = Return gaze
    ∧ find_one id (analysis_results w') = Some d
    ∧ status d = "completed"
    ∧ eye_tracking_analysis d = Some gaze
    ∧ cheating_detection d = Some cd
    ∧ (suspected_copying cd = true ↔
       ∃ s v, analysis_summary gaze = Some s ∧ total_violations s = Some v
              ∧ (5 ≤ v)%Z)
    ∧ (suspected_impersonation cd = true ↔
       ∃ s, analysis_summary gaze = Some s ∧ face_multiple_detected s = Some true)
    ∧ (∀ s, analysis_summary gaze = Some s → total_violations s = Some 4%Z →
            suspected_copying cd = false)
    ∧ (∀ s, analysis_summary gaze = Some s → total_violations s = Some 5%Z →
            suspected_copying cd = true)
    ∧ (∀ s, analysis_summary gaze = Some s → face_multiple_detected s = Some true →
            suspected_impersonation cd = true)
    ∧ (∀ s v, analysis_summary gaze = Some s → total_violations s = Some v →
              cd_total_violations cd = v)
    ∧ (∀ s b, analysis_summary gaze = Some s → face_multiple_detected s = Some b →
              cd_face_multiple_detected cd = b)
    ∧ SaveInterviewAttitude row saved ∈ trace w'
    ∧ ia_suspected_copying row = suspected_copying cd
    ∧ ia_suspected_impersonation row = suspected_impersonation cd
    ∧ (∀ user' q' emotion,
         let drain_row := batch_attitude user' q' emotion gaze in
         ia_suspected_copying drain_row = suspected_copying cd
         ∧ ia_suspected_impersonation drain_row = suspected_impersonation cd).
Proof.
  intros (path & emotion & gaze & gpt & saved & Hg & Hr & Hres & _ & Hd & _ & _ & _
          & Ht)%job_body_Return.
  pose proof (suspected_copying_of_gaze gaze) as Hcopy.
  pose proof (suspected_impersonation_of_gaze gaze) as Himp.
  exists path, gaze,
    (analysis_data id bucket key user q session path emotion gaze (now w)),
    {| suspected_copying := compute_suspected_copying (get_total_violations gaze);
       suspected_impersonation :=
         compute_suspected_impersonation (get_face_multiple_detected gaze);
       cd_total_violations := get_total_violations gaze;
       cd_face_multiple_detected := get_face_multiple_detected gaze;
       error_occurred := None |},
    (job_attitude user q emotion gaze gpt), saved.
  rewrite Hres, Ht. cbn [suspected_copying suspected_impersonation
    cd_total_violations cd_face_multiple_detected].
  split_and!; try done.
  - by apply find_one_replace_one.
  - intros s Hs Hv. apply not_true_is_false. intros (s' & v & Hs' & Hv' & Hle)%Hcopy.
    rewrite Hs in Hs'. injection Hs' as <-. rewrite Hv in Hv'. injection Hv' as <-. lia.
  - intros s Hs Hv. apply Hcopy. exists s, 5%Z. by split_and!.
  - intros s Hs Hb. apply Himp. by exists s.
  - intros s v Hs Hv. unfold get_total_violations. by rewrite Hs; simpl; rewrite Hv.
  - intros s b Hs Hb. unfold get_face_multiple_detected.
    by rewrite Hs; simpl; rewrite Hb.
  - rewrite !elem_of_app, !elem_of_cons. tauto.
Qed.

Lemma cheat_signals_of_completed_job_witness :
  let w' := (job_body sample_env "job-1" "skala25a" "iv001/Q1.mp4" "iv001" "Q1"
               (Some "manual") sample_world).2 in
  ∃ path gaze d cd row saved,
    download_file sample_env "skala25a" "iv001/Q1.mp4" (temp_dir_of sample_env "job-1")
    = Return path
    ∧ eye_tracking_analyze_video sample_env path "iv001" "Q1" "iv001/Q1.mp4"
      = Return gaze
    ∧ find_one "job-1" (analysis_results w') = Some d
    ∧ status d = "completed"
    ∧ eye_tracking_analysis d = Some gaze
    ∧ cheating_detection d = Some cd
    ∧ (suspected_copying cd = true ↔
       ∃ s v, analysis_summary gaze = Some s ∧ total_violations s = Some v
              ∧ (5 ≤ v)%Z)
    ∧ (suspected_impersonation cd = true ↔
       ∃ s, analysis_summary gaze = Some s ∧ face_multiple_detected s = Some true)
    ∧ (∀ s, analysis_summary gaze = Some s → total_violations s = Some 4%Z →
            suspected_copying cd = false)
    ∧ (∀ s, analysis_summary gaze = Some s → total_violations s = Some 5%Z →
            suspected_copying cd = true)
    ∧ (∀ s, analysis_summary gaze = Some s → face_multiple_detected s = Some true →
            suspected_impersonation cd = true)
    ∧ (∀ s v, analysis_summary gaze = Some s → total_violations s = Some v →
              cd_total_violations cd = v)
    ∧ (∀ s b, analysis_summary gaze = Some s → face_multiple_detected s = Some b →
              cd_face_multiple_detected cd = b)
    ∧ SaveInterviewAttitude row saved ∈ trace w'
    ∧ ia_suspected_copying row = suspected_copying cd
    ∧ ia_suspected_impersonation row = suspected_impersonation cd
    ∧ (∀ user' q' emotion,
         let drain_row := batch_attitude user' q' emotion gaze in
         ia_suspected_copying drain_row = suspected_copying cd
         ∧ ia_suspected_impersonation drain_row = suspected_impersonation cd).
Proof.
  apply (cheat_signals_of_completed_job sample_env "job-1" "skala25a"
           "iv001/Q1.mp4" "iv001" "Q1" (Some "manual") sample_world).
  vm_compute. reflexivity.
Defined.

(** At the boundary: the sample gaze stage reports 5 violations for the
    unit [Q1], and with 4 violations the stored signal is false. *)
Example cheat_signal_boundary :
  let signals g :=
    cheating_detection
      (analysis_data "job-1" "skala25a" "k" "iv001" "Q1" None "p" sample_emotion g 0) in
  suspected_copying <$> signals (sample_gaze 4 true) = Some false
  ∧ suspected_copying <$> signals (sample_gaze 5 false) = Some true
  ∧ suspected_impersonation <$> signals (sample_gaze 0 true) = Some true
  ∧ suspected_impersonation <$> signals (sample_gaze 9 false) = Some false.
Proof. by split_and!. Qed.

(** ** The error record *)

(** C10.  When the [try] block of a job raises, the record the handler
    upserts under the job's analysis id has status [error], carries the
    message, and reports every cheat signal as absent, whatever the stages
    had computed; once the job collection accepts the write, it is the record
    stored under that id. *)
Theorem error_record_reports_no_cheating E id bucket key user q session w e w1 :
  job_body E id bucket key user q session w = (Raise e, w1) →
  isinstance_Exception e = true →
  let w' := (process_s3_user_video_analysis E id bucket key user q session w).2 in
  let d := error_data id user q session e (now w1) in
  analysis_id d = id
  ∧ status d = "error"
  ∧ error d = Some (str e)
  ∧ cheating_detection d = Some no_cheating_detected
  ∧ (replace_one_session E d = None →
     find_one id (analysis_results w') = Some d ∧ ReplaceOne d ∈ trace w').
Proof.
  intros Hb He. simpl. split_and!; try done.
  intros Hr. rewrite (process_run_Raise _ _ _ _ _ _ _ _ _ _ Hb He).
  rewrite job_handler_run. simpl. rewrite Hr. simpl. split.
  - by apply find_one_replace_one.
  - set_solver.
Qed.

Lemma error_record_reports_no_cheating_witness :
  let id := "job-1" in
  let run := process_s3_user_video_analysis attitude_down_env id "skala25a"
               "iv001/Q1.mp4" "iv001" "Q1" (Some "manual") in
  let e := Exception "mariadb is down" in
  let d := error_data id "iv001" "Q1" (Some "manual") e 100 in
  analysis_id d = id
  ∧ status d = "error"
  ∧ error d = Some (str e)
  ∧ cheating_detection d = Some no_cheating_detected
  ∧ (replace_one_session attitude_down_env d = None →
     find_one id (analysis_results (run sample_world).2) = Some d
     ∧ ReplaceOne d ∈ trace (run sample_world).2).
Proof.
  apply (error_record_reports_no_cheating attitude_down_env "job-1" "skala25a"
           "iv001/Q1.mp4" "iv001" "Q1" (Some "manual") sample_world
           (Exception "mariadb is down")
           (job_body attitude_down_env "job-1" "skala25a" "iv001/Q1.mp4"
              "iv001" "Q1" (Some "manual") sample_world).2).
  - vm_compute. reflexivity.
  - reflexivity.
Defined.

(** In that run the completed record, with both signals raised, had been
    stored before the failure. *)
Example signals_before_the_failure :
  let w1 := (job_body attitude_down_env "job-1" "skala25a" "iv001/Q1.mp4"
               "iv001" "Q1" (Some "manual") sample_world).2 in
  (λ d, (status d, suspected_copying <$> cheating_detection d,
         suspected_impersonation <$> cheating_detection d))
    <$> find_one "job-1" (analysis_results w1)
  = Some ("completed", Some true, Some true).
Proof. vm_compute. reflexivity. Qed.

(** ** Progress of a job *)

(** The status updates of a run whose [try] block reaches its end. *)
Lemma completed_run_progress E id bucket key user q session w w1 :
  job_body E id bucket key user q session w = (Return (), w1) →
  ∃ t,
    trace (process_s3_user_video_analysis E id bucket key user q session w).2
      = trace w ++ t
    ∧ progress_of id t = [10; 30; 60; 80; 100]%Z.
Proof.
  intros Hb. rewrite (process_run_Return _ _ _ _ _ _ _ _ _ Hb).
  apply job_body_Return in Hb
    as (path & emotion & gaze & gpt & saved & _ & _ & _ & _ & _ & _ & _ & _ & Ht).
  simpl. rewrite Ht, <- (assoc_L (++)). eexists. split; [done|].
  simpl. by rewrite !decide_True by done.
Qed.

(** C7.  The progress values of the status updates a job run emits, in
    order: a run whose [try] block reaches its end emits 10, 30, 60, 80, 100
    (the persisting stage, documented as 80/95, emits 80), a non-decreasing
    sequence; a run whose [try] block raises an [Exception] at any point
    emits 0 last. *)
Theorem job_progress_sequence E id bucket key user q session w r w1 :
  job_body E id bucket key user q session w = (r, w1) →
  r ≠ Raise CancelledError →
  ∃ t,
    trace (process_s3_user_video_analysis E id bucket key user q session w).2
      = trace w ++ t
    ∧ match r with
      | Return _ =>
        progress_of id t = [10; 30; 60; 80; 100]%Z
        ∧ Sorted Z.le (progress_of id t)
      | Raise _ => last (progress_of id t) = Some 0%Z
      end.
Proof.
  intros Hb Hr. destruct r as [[]|e].
  - destruct (completed_run_progress _ _ _ _ _ _ _ _ _ Hb) as (t & Ht & Hp).
    exists t. rewrite Hp. split_and!; try done. repeat (constructor; try done).
  - assert (isinstance_Exception e = true) as He.
    { apply not_cancelled_Exception. congruence. }
    rewrite (process_run_Raise _ _ _ _ _ _ _ _ _ _ Hb He), job_handler_run.
    destruct (job_body_trace_extends E id bucket key user q session w) as [t1 Ht1].
    rewrite Hb in Ht1. simpl in Ht1.
    cbv zeta.
    destruct (replace_one_session E _); simpl; rewrite Ht1, <- !(assoc_L (++));
      (eexists; split; [done|]);
      rewrite progress_of_app; simpl; rewrite decide_True by done;
      apply last_snoc.
Qed.

Lemma job_progress_sequence_witness :
  (∃ t,
     trace (process_s3_user_video_analysis sample_env "job-1" "skala25a"
              "iv001/Q1.mp4" "iv001" "Q1" (Some "manual") sample_world).2
       = trace sample_world ++ t
     ∧ progress_of "job-1" t = [10; 30; 60; 80; 100]%Z
     ∧ Sorted Z.le (progress_of "job-1" t))
  ∧ (∃ t,
       trace (process_s3_user_video_analysis sample_env "job-2" "skala25a"
                "iv001/Q2.mp4" "iv001" "Q2" (Some "manual") sample_world).2
         = trace sample_world ++ t
       ∧ last (progress_of "job-2" t) = Some 0%Z).
Proof.
  split.
  - apply (job_progress_sequence sample_env "job-1" "skala25a" "iv001/Q1.mp4"
             "iv001" "Q1" (Some "manual") sample_world (Return ())
             (job_body sample_env "job-1" "skala25a" "iv001/Q1.mp4" "iv001" "Q1"
                (Some "manual") sample_world).2).
    + vm_compute. reflexivity.
    + discriminate.
  - apply (job_progress_sequence sample_env "job-2" "skala25a" "iv001/Q2.mp4"
             "iv001" "Q2" (Some "manual") sample_world
             (Raise (Exception "scoring failed"))
             (job_body sample_env "job-2" "skala25a" "iv001/Q2.mp4" "iv001" "Q2"
                (Some "manual") sample_world).2).
    + vm_compute. reflexivity.
    + discriminate.
Defined.

(** The value 95 belongs to the definition of lines 708-820, which the
    later definition of the same name replaces: no run emits it. *)
Lemma job_progress_never_95 E id bucket key user q session w r w1 t :
  job_body E id bucket key user q session w = (r, w1) →
  r = Return () →
  trace (process_s3_user_video_analysis E id bucket key user q session w).2
    = trace w ++ t →
  95%Z ∉ progress_of id t.
Proof.
  intros Hb -> Ht.
  destruct (completed_run_progress _ _ _ _ _ _ _ _ _ Hb) as (t' & Ht' & Hp).
  rewrite Ht' in Ht. apply (inj (app _)) in Ht as ->. rewrite Hp.
  intros Hin. repeat (apply elem_of_cons in Hin as [?|Hin]; [done|]).
  by apply elem_of_nil in Hin.
Qed.

(** ** The single-unit start operation *)

(** C9 (the code departs from it).  When the object store has no file for
    the unit, [analyze_s3_user_video] raises the 404 inside its own [try],
    its [except Exception] catches it, and the response is a 500. *)
Theorem analyze_s3_user_video_missing_unit E request w :
  find_video_file E (default "skala25a" (S3_BUCKET_NAME E))
    (req_user_id request) (req_question_num request) = Return None →
  ∃ detail,
    analyze_s3_user_video E request w = (Raise (HTTPException 500 detail), w)
    ∧ response_status (analyze_s3_user_video E request w).1 = 500%Z
    ∧ response_status (analyze_s3_user_video E request w).1 ≠ 404%Z.
Proof.
  intros Hf. eexists.
  unfold analyze_s3_user_video, try_except, get_now, call.
  rewrite !bind_run, Hf. simpl. done.
Qed.

Lemma analyze_s3_user_video_missing_unit_witness :
  ∃ detail,
    analyze_s3_user_video no_video_env sample_request sample_world
      = (Raise (HTTPException 500 detail), sample_world)
    ∧ response_status
        (analyze_s3_user_video no_video_env sample_request sample_world).1 = 500%Z
    ∧ response_status
        (analyze_s3_user_video no_video_env sample_request sample_world).1 ≠ 404%Z.
Proof.
  apply (analyze_s3_user_video_missing_unit no_video_env sample_request sample_world).
  reflexivity.
Defined.

(** When the unit is found the response carries the new analysis id and the
    status [processing], and one job is handed to the background tasks. *)
Lemma analyze_s3_user_video_found E request w key :
  find_video_file E (default "skala25a" (S3_BUCKET_NAME E))
    (req_user_id request) (req_question_num request) = Return (Some key) →
  str_truthy key = true →
  ∃ response task,
    analyze_s3_user_video E request w = (Return (response, [task]), w)
    ∧ resp_status response = "processing"
    ∧ resp_analysis_id response =
        "manual_s3_analysis_" +:+ req_user_id request +:+ "_"
        +:+ req_question_num request +:+ "_" +:+ strftime (now w)
    ∧ bt_analysis_id task = resp_analysis_id response
    ∧ bt_key task = key.
Proof.
  intros Hf Hk. eexists _, _.
  unfold analyze_s3_user_video, try_except, get_now, call.
  rewrite !bind_run, Hf. simpl. rewrite Hk. simpl. done.
Qed.

(** The query handlers re-raise an [HTTPException] before the general
    handler: there a missing record is answered with a 404. *)
Lemma get_analysis_result_missing E id w :
  find_one_session E id = None →
  find_one id (analysis_results w) = None →
  response_status (get_analysis_result E id w).1 = 404%Z.
Proof.
  intros Hs Hf.
  unfold get_analysis_result, try_except_reraising_http, call_db, get_analysis_results.
  rewrite !bind_run, Hs. simpl. rewrite Hf. done.
Qed.

(** ** The status sink is best-effort *)

Lemma erase_sink_eq w1 w2 :
  erase_sink w1 = erase_sink w2 ↔
  analysis_results w1 = analysis_results w2
  ∧ heap w1 = heap w2
  ∧ _pending_gpt_analyses w1 = _pending_gpt_analyses w2
  ∧ _batch_processing_active w1 = _batch_processing_active w2
  ∧ now w1 = now w2
  ∧ erase_failure <$> trace w1 = erase_failure <$> trace w2.
Proof.
  destruct w1, w2. unfold erase_sink, set_trace. simpl. split.
  - intros [=]. by split_and!.
  - intros (?&?&?&?&?&?). by f_equal.
Qed.

Section sink_rules.

Lemma sink_related_same {A} (m : M A) :
  (∀ w, (m w).2 = w) → (∀ w1 w2, erase_sink w1 = erase_sink w2 → (m w1).1 = (m w2).1) →
  sink_related m m.
Proof. intros Hm Hr w1 w2 Hw. rewrite !Hm. split; [by apply Hr|done]. Qed.

Lemma sink_related_call {A} (r : outcome A) : sink_related (call r) (call r).
Proof. by apply sink_related_same. Qed.

Lemma sink_related_call_db r : sink_related (call_db r) (call_db r).
Proof. by apply sink_related_same. Qed.

Lemma sink_related_call_sync {A} (r : string + A) :
  sink_related (call_sync r) (call_sync r).
Proof. by apply sink_related_same. Qed.

Lemma sink_related_ret {A} (a : A) : sink_related (mret a) (mret a).
Proof. by apply sink_related_same. Qed.

Lemma sink_related_raise {A} e : sink_related (@raise A e) (raise e).
Proof. by apply sink_related_same. Qed.

Lemma sink_related_get_now : sink_related get_now get_now.
Proof.
  apply sink_related_same; [done|]. intros w1 w2 Hw%erase_sink_eq. simpl.
  f_equal. tauto.
Qed.

Lemma sink_related_modify f :
  (∀ w1 w2, erase_sink w1 = erase_sink w2 → erase_sink (f w1) = erase_sink (f w2)) →
  sink_related (modify f) (modify f).
Proof. intros Hf w1 w2 Hw. split; [done|by apply Hf]. Qed.

Lemma sink_related_print ev : sink_related (print ev) (print ev).
Proof.
  apply sink_related_modify. intros w1 w2 Hw%erase_sink_eq.
  apply erase_sink_eq. simpl. rewrite !fmap_app. split_and!; try tauto.
  f_equal. tauto.
Qed.

Lemma sink_related_bind {A B} (m1 m2 : M A) (f1 f2 : A → M B) :
  sink_related m1 m2 → (∀ a, sink_related (f1 a) (f2 a)) →
  sink_related (m1 ≫= f1) (m2 ≫= f2).
Proof.
  intros Hm Hf w1 w2 Hw. rewrite !bind_run.
  destruct (Hm w1 w2 Hw) as [Hr Hw'].
  destruct (m1 w1) as [[a1|e1] w1'], (m2 w2) as [[a2|e2] w2'];
    cbn [fst snd] in *; try discriminate; injection Hr as ->; [|by split].
  by apply Hf.
Qed.

Lemma sink_related_try_except {A} (b1 b2 : M A) h1 h2 :
  sink_related b1 b2 → (∀ e, sink_related (h1 e) (h2 e)) →
  sink_related (try_except b1 h1) (try_except b2 h2).
Proof.
  intros Hb Hh w1 w2 Hw. unfold try_except.
  destruct (Hb w1 w2 Hw) as [Hr Hw'].
  destruct (b1 w1) as [[a1|e1] w1'], (b2 w2) as [[a2|e2] w2'];
    cbn [fst snd] in *; try discriminate; injection Hr as ->; [by split|].
  destruct (isinstance_Exception e2); [by apply Hh|by split].
Qed.

Lemma sink_related_try_finally {A} (b1 b2 : M A) c1 c2 :
  sink_related b1 b2 → sink_related c1 c2 →
  sink_related (try_finally b1 c1) (try_finally b2 c2).
Proof.
  intros Hb Hc w1 w2 Hw. unfold try_finally.
  destruct (Hb w1 w2 Hw) as [Hr Hw'].
  destruct (b1 w1) as [r1 w1'], (b2 w2) as [r2 w2']; cbn [fst snd] in *; subst.
  destruct (Hc w1' w2' Hw') as [Hr' Hw''].
  destruct (c1 w1') as [[?|?] ?], (c2 w2') as [[?|?] ?];
    cbn [fst snd] in *; try discriminate; [by split|].
  injection Hr' as ->. by split.
Qed.

End sink_rules.

Lemma sink_related_update_analysis_status E sink id st sg p :
  sink_related (update_analysis_status (with_status_session sink E) id st sg p)
               (update_analysis_status E id st sg p).
Proof.
  intros w1 w2 Hw%erase_sink_eq. rewrite !update_analysis_status_run.
  split; [done|]. apply erase_sink_eq. simpl. rewrite !fmap_app.
  split_and!; try tauto. f_equal. tauto.
Qed.

Lemma sink_related_process E sink id bucket key user q session :
  sink_related
    (process_s3_user_video_analysis (with_status_session sink E)
       id bucket key user q session)
    (process_s3_user_video_analysis E id bucket key user q session).
Proof.
  assert (∀ d, sink_related (upsert (with_status_session sink E) d) (upsert E d)) as Hup.
  { intros d. unfold upsert.
    repeat first
      [ apply sink_related_print
      | apply sink_related_bind; [|intros ?]
      | apply sink_related_call_db ].
    apply sink_related_modify. intros w1 w2 Hw%erase_sink_eq.
    apply erase_sink_eq. simpl. split_and!; try tauto. f_equal. tauto. }
  unfold process_s3_user_video_analysis, job_body, job_handler, job_cleanup,
    save_attitude, read_concentration_score.
  assert (sink_related (add_to_gpt_batch_queue id user q)
                       (add_to_gpt_batch_queue id user q)) as Hadd.
  { unfold add_to_gpt_batch_queue. apply sink_related_modify.
    intros w1 w2 Hw%erase_sink_eq. apply erase_sink_eq. simpl.
    destruct Hw as (?&->&->&?&->&?). by split_and!. }
  repeat first
    [ apply sink_related_update_analysis_status
    | apply Hup | apply Hadd
    | apply sink_related_print
    | apply sink_related_bind; [|intros ?]
    | apply sink_related_try_finally
    | apply sink_related_try_except; [|intros ?]
    | apply sink_related_call | apply sink_related_call_db
    | apply sink_related_call_sync | apply sink_related_get_now
    | apply sink_related_ret | apply sink_related_raise
    | case_match ].
Qed.

(** C8.  A status update never raises, whatever the sink does: the failure
    is recorded and the call returns.  And the job does not depend on the
    sink: with any other sink the run has the same outcome and leaves the
    same state (job collection, queue, flag, clock and events) up to the
    recorded outcomes of the status writes; in particular the status stored
    for the job is the same. *)
Theorem status_sink_never_aborts_job E sink id bucket key user q session w :
  (∀ st sg p,
     update_analysis_status E id st sg p w =
     (Return (),
      set_trace (λ t, t ++ [StatusUpdate id st sg p (status_session E id st sg p)]) w))
  ∧ (let run := process_s3_user_video_analysis E id bucket key user q session w in
     let run' := process_s3_user_video_analysis (with_status_session sink E)
                   id bucket key user q session w in
     run'.1 = run.1
     ∧ erase_sink run'.2 = erase_sink run.2
     ∧ analysis_results run'.2 = analysis_results run.2
     ∧ pending run'.2 = pending run.2).
Proof.
  split; [intros; apply update_analysis_status_run|].
  destruct (sink_related_process E sink id bucket key user q session w w eq_refl)
    as [Hr Hw].
  simpl. split_and!; try done.
  - apply erase_sink_eq in Hw. tauto.
  - apply erase_sink_eq in Hw. unfold pending.
    destruct Hw as (_ & -> & -> & _). done.
Qed.

(** With the sink down, the sample job completes all the same. *)
Example job_completes_with_sink_down :
  let run := process_s3_user_video_analysis sink_down_env "job-1" "skala25a"
               "iv001/Q1.mp4" "iv001" "Q1" (Some "manual") sample_world in
  run.1 = Return ()
  ∧ status <$> find_one "job-1" (analysis_results run.2) = Some "completed"
  ∧ progress_of "job-1" (trace run.2) = [10; 30; 60; 80; 100]%Z.
Proof. vm_compute. done. Qed.

(** ** The scan *)

Ltac stable_auto leaf :=
  repeat first
    [ leaf
    | stable_rule stable_bind; [|intros ?]
    | stable_rule stable_try_except; [|intros ?]
    | stable_rule stable_try_finally
    | stable_leaf
    | case_match ].

Lemma print_trace_extends ev : stable trace_extends (print ev).
Proof. intros w. by apply prefix_app_r. Qed.

Lemma sleep_trace_extends E n : stable trace_extends (sleep E n).
Proof. stable_rule stable_sleep. intros w. unfold trace_extends. simpl. reflexivity. Qed.

Lemma update_analysis_status_trace_extends E id st sg p :
  stable trace_extends (update_analysis_status E id st sg p).
Proof. intros w. rewrite update_analysis_status_run. by apply prefix_app_r. Qed.

Lemma process_trace_extends E id bucket key user q session :
  stable trace_extends (process_s3_user_video_analysis E id bucket key user q session).
Proof.
  unfold process_s3_user_video_analysis, job_handler, job_cleanup, upsert.
  stable_auto ltac:(first
    [ apply job_body_trace_extends | apply update_analysis_status_trace_extends
    | apply print_trace_extends
    | apply stable_modify; intros ?; unfold trace_extends; simpl; reflexivity ]).
Qed.

Lemma scan_unit_trace_extends E bucket u :
  stable trace_extends (scan_unit E bucket u).
Proof.
  destruct u as [user q]. unfold scan_unit.
  stable_auto ltac:(first
    [ apply process_trace_extends | apply print_trace_extends
    | apply sleep_trace_extends ]).
Qed.

Lemma scan_loop_trace_extends E bucket units :
  stable trace_extends (scan_loop E bucket units).
Proof.
  induction units as [|u units IH]; simpl.
  - stable_leaf.
  - stable_rule stable_bind; [apply scan_unit_trace_extends|by intros ?].
Qed.

Section scan.
Context (E : env) (Hnc : no_cancellation E).

Lemma sleep_run n w : sleep E n w = (Return (), set_now (λ t, (t + n)%nat) w).
Proof using Hnc. unfold sleep. by rewrite (nc_sleep E Hnc). Qed.

(** Without cancellation a job always returns: its handler takes every
    failure of a stage. *)
Lemma process_returns id bucket key user q session w :
  (process_s3_user_video_analysis E id bucket key user q session w).1 = Return ().
Proof using Hnc.
  destruct (job_body E id bucket key user q session w) as [[[]|e] w1] eqn:Hb.
  - by rewrite (process_run_Return _ _ _ _ _ _ _ _ _ Hb).
  - rewrite (process_run_Raise _ _ _ _ _ _ _ _ _ _ Hb); [done|].
    by eapply job_body_Raise.
Qed.

Lemma scan_unit_found bucket user q key w :
  find_video_file E bucket user q = Return (Some key) →
  str_truthy key = true →
  scan_unit E bucket (user, q) w =
  (Return (),
   set_now (λ t, (t + 2)%nat)
     (process_s3_user_video_analysis E
        ("auto_s3_analysis_" +:+ user +:+ "_" +:+ q +:+ "_" +:+ strftime (now w))
        bucket key user q (Some "auto_batch") w).2).
Proof using Hnc.
  intros Hf Hk. unfold scan_unit, try_except, get_now, call.
  rewrite !bind_run, Hf. simpl. rewrite Hk, bind_run.
  pose proof (process_returns
    ("auto_s3_analysis_" +:+ user +:+ "_" +:+ q +:+ "_" +:+ strftime (now w))
    bucket key user q (Some "auto_batch") w) as Hp.
  destruct (process_s3_user_video_analysis _ _ _ _ _ _ _ _) as [r w'].
  cbn [fst snd] in *. subst. by rewrite sleep_run.
Qed.

Lemma scan_unit_returns bucket u w : (scan_unit E bucket u w).1 = Return ().
Proof using Hnc.
  destruct u as [user q].
  destruct (find_video_file E bucket user q) as [[key|]|e] eqn:Hf.
  - destruct (str_truthy key) eqn:Hk; [by rewrite (scan_unit_found _ _ _ _ _ Hf Hk)|].
    unfold scan_unit, try_except, get_now, call. rewrite !bind_run, Hf. simpl.
    by rewrite Hk.
  - unfold scan_unit, try_except, get_now, call. by rewrite !bind_run, Hf.
  - unfold scan_unit, try_except, get_now, call. rewrite !bind_run, Hf. simpl.
    rewrite not_cancelled_Exception; [done|].
    intros ->. by eapply nc_find.
Qed.

Lemma scan_loop_returns bucket units w : (scan_loop E bucket units w).1 = Return ().
Proof using Hnc.
  revert w. induction units as [|u units IH]; intros w; simpl; [done|].
  rewrite bind_run. pose proof (scan_unit_returns bucket u w) as Hu.
  destruct (scan_unit E bucket u w) as [r w1]. simpl in Hu. subst. apply IH.
Qed.

Lemma scan_loop_app bucket pre post w :
  scan_loop E bucket (pre ++ post) w =
  scan_loop E bucket post (scan_loop E bucket pre w).2.
Proof using Hnc.
  revert w. induction pre as [|u pre IH]; intros w; simpl; [done|].
  rewrite !bind_run. pose proof (scan_unit_returns bucket u w) as Hu.
  destruct (scan_unit E bucket u w) as [r w1]. simpl in Hu. subst. apply IH.
Qed.

End scan.

(** C4.  In a scan over [pre ++ (user, q) :: post] none of whose awaits
    (the calls of the collaborators and the sleeps between the units) is
    cancelled, the loop reaches every unit: it runs [(user, q)] after
    [pre] and goes on with [post], whatever happened before.  If a stage of
    that unit's job raises, the error record (status [error], the message,
    the job's analysis id) is the one written to the job collection, once
    the collection accepts the write; if the job's stages succeed, the
    completed record is stored under its id and the final status update says
    [completed], and both stay in the trace to the end of the scan. *)
Theorem scan_failure_isolation E bucket pre user q post w :
  no_cancellation E →
  ∃ w1 w2 w3,
    scan_loop E bucket pre w = (Return (), w1)
    ∧ scan_unit E bucket (user, q) w1 = (Return (), w2)
    ∧ scan_loop E bucket post w2 = (Return (), w3)
    ∧ scan_loop E bucket (pre ++ (user, q) :: post) w = (Return (), w3)
    ∧ ∀ key,
        find_video_file E bucket user q = Return (Some key) →
        str_truthy key = true →
        let id := "auto_s3_analysis_" +:+ user +:+ "_" +:+ q +:+ "_"
                  +:+ strftime (now w1) in
        let body := job_body E id bucket key user q (Some "auto_batch") w1 in
        match body.1 with
        | Raise e =>
          let d := error_data id user q (Some "auto_batch") e (now body.2) in
          analysis_id d = id ∧ status d = "error" ∧ error d = Some (str e)
          ∧ (replace_one_session E d = None →
             find_one id (analysis_results w2) = Some d
             ∧ ReplaceOne d ∈ trace w3)
        | Return _ =>
          ∃ d sink_result,
            analysis_id d = id ∧ status d = "completed"
            ∧ find_one id (analysis_results w2) = Some d
            ∧ ReplaceOne d ∈ trace w3
            ∧ StatusUpdate id "completed" (Some "completed") 100 sink_result
                ∈ trace w3
        end.
Proof.
  intros Hnc.
  pose proof (scan_loop_returns E Hnc bucket pre w) as H1.
  destruct (scan_loop E bucket pre w) as [r1 w1] eqn:Hpre. simpl in H1. subst r1.
  pose proof (scan_unit_returns E Hnc bucket (user, q) w1) as H2.
  destruct (scan_unit E bucket (user, q) w1) as [r2 w2] eqn:Hunit. simpl in H2. subst r2.
  pose proof (scan_loop_returns E Hnc bucket post w2) as H3.
  destruct (scan_loop E bucket post w2) as [r3 w3] eqn:Hpost. simpl in H3. subst r3.
  exists w1, w2, w3. split_and!; try done.
  { rewrite (scan_loop_app E Hnc), Hpre. cbn [snd scan_loop].
    by rewrite bind_run, Hunit. }
  intros key Hf Hk id body.
  rewrite (scan_unit_found E Hnc _ _ _ _ _ Hf Hk) in Hunit.
  injection Hunit as Hw2. fold id in Hw2.
  pose proof (scan_loop_trace_extends E bucket post w2) as Hext.
  rewrite Hpost in Hext. unfold trace_extends in Hext. simpl in Hext.
  assert (∀ ev, ev ∈ trace w2 → ev ∈ trace w3) as Hkeep.
  { intros ev Hev. destruct Hext as [t ->]. apply elem_of_app. by left. }
  destruct body as [[[]|e] wb] eqn:Hb; subst body; simpl.
  - rewrite (process_run_Return _ _ _ _ _ _ _ _ _ Hb) in Hw2.
    apply job_body_Return in Hb
      as (path & emotion & gaze & gpt & saved & _ & _ & Hres & _ & _ & _ & _ & Hsave & Ht).
    eexists _, _. split_and!; [| |subst w2; simpl; rewrite Hres;
                                   by apply find_one_replace_one|..];
      [done|done|apply Hkeep..]; subst w2; simpl; rewrite Ht;
      rewrite !elem_of_app, !elem_of_cons; naive_solver.
  - split_and!; try done. intros Hr.
    assert (isinstance_Exception e = true) as He by by eapply job_body_Raise.
    rewrite (process_run_Raise _ _ _ _ _ _ _ _ _ _ Hb He), job_handler_run in Hw2.
    simpl in Hw2. rewrite Hr in Hw2. split.
    + subst w2. simpl. by apply find_one_replace_one.
    + apply Hkeep. subst w2. simpl. rewrite !elem_of_app, !elem_of_cons. naive_solver.
Qed.

Lemma sample_env_no_cancellation : no_cancellation sample_env.
Proof. split; intros; simpl; try case_decide; first [discriminate|reflexivity]. Qed.

Lemma scan_failure_isolation_witness :
  let bucket := "skala25a" in
  let E := sample_env in
  ∃ w1 w2 w3,
    scan_loop E bucket [("iv001", "Q1")] sample_world = (Return (), w1)
    ∧ scan_unit E bucket ("iv001", "Q2") w1 = (Return (), w2)
    ∧ scan_loop E bucket [("iv001", "Q3")] w2 = (Return (), w3)
    ∧ scan_loop E bucket ([("iv001", "Q1")] ++ ("iv001", "Q2") :: [("iv001", "Q3")])
        sample_world = (Return (), w3)
    ∧ ∀ key,
        find_video_file E bucket "iv001" "Q2" = Return (Some key) →
        str_truthy key = true →
        let id := "auto_s3_analysis_" +:+ "iv001" +:+ "_" +:+ "Q2" +:+ "_"
                  +:+ strftime (now w1) in
        let body := job_body E id bucket key "iv001" "Q2" (Some "auto_batch") w1 in
        match body.1 with
        | Raise e =>
          let d := error_data id "iv001" "Q2" (Some "auto_batch") e (now body.2) in
          analysis_id d = id ∧ status d = "error" ∧ error d = Some (str e)
          ∧ (replace_one_session E d = None →
             find_one id (analysis_results w2) = Some d
             ∧ ReplaceOne d ∈ trace w3)
        | Return _ =>
          ∃ d sink_result,
            analysis_id d = id ∧ status d = "completed"
            ∧ find_one id (analysis_results w2) = Some d
            ∧ ReplaceOne d ∈ trace w3
            ∧ StatusUpdate id "completed" (Some "completed") 100 sink_result
                ∈ trace w3
        end.
Proof.
  apply (scan_failure_isolation sample_env "skala25a" [("iv001", "Q1")]
           "iv001" "Q2" [("iv001", "Q3")] sample_world).
  apply sample_env_no_cancellation.
Defined.

(** The scan of the three sample units: the second fails in scoring, the
    first and the third are completed and queued, and the drain that follows
    the scan handles both. *)
Example scan_of_three_units :
  let run := auto_analyze_all_s3_videos sample_env sample_world in
  run.1 = Return ()
  ∧ (λ d, (analysis_id d, status d, error d)) <$> analysis_results run.2
    = [("auto_s3_analysis_iv001_Q1_100", "completed", None);
       ("auto_s3_analysis_iv001_Q2_102", "error", Some "scoring failed");
       ("auto_s3_analysis_iv001_Q3_104", "completed", None)]
  ∧ qe_analysis_id <$> batch_items (trace run.2)
    = ["auto_s3_analysis_iv001_Q1_100"; "auto_s3_analysis_iv001_Q3_104"]
  ∧ pending run.2 = []
  ∧ _batch_processing_active run.2 = false.
Proof. vm_compute. done. Qed.

(** ** Which units a scan leaves out *)

Lemma elem_of_existing_analyses k c :
  k ∈ existing_analyses c ↔ ∃ d, d ∈ c ∧ doc_key d = Some k.
Proof. unfold existing_analyses. rewrite elem_of_list_to_set. apply list_elem_of_omap. Qed.

Lemma elem_of_videos_to_analyze available existing user q :
  (user, q) ∈ videos_to_analyze available existing ↔
  listed available user q ∧ analysis_key user q ∉ existing.
Proof.
  unfold videos_to_analyze, listed. rewrite list_elem_of_bind. split.
  - intros ([u qs] & Hin & Hav). apply list_elem_of_bind in Hin as (q' & Hin & Hq).
    case_decide; [|by apply elem_of_nil in Hin].
    apply list_elem_of_singleton in Hin. simplify_eq. eauto.
  - intros [(qs & Hav & Hq) Hk]. exists (user, qs). split; [|done].
    apply list_elem_of_bind. exists q. split; [|done].
    rewrite decide_True by done. by apply list_elem_of_singleton.
Qed.

Lemma doc_key_record d user q :
  user_id d = Some user → question_num d = Some q → user ≠ "" → q ≠ "" →
  doc_key d = Some (analysis_key user q).
Proof.
  intros Hu Hq Hne1 Hne2. unfold doc_key, str_truthy. rewrite Hu, Hq. simpl.
  by rewrite !bool_decide_eq_false_2.
Qed.

Lemma doc_key_Some d k :
  doc_key d = Some k →
  ∃ user q, user_id d = Some user ∧ question_num d = Some q ∧ k = analysis_key user q.
Proof.
  unfold doc_key. destruct (user_id d) as [u|], (question_num d) as [q|]; simpl; try done.
  case_match; [|done]. intros [= <-]. eauto.
Qed.

Lemma doc_key_None d :
  doc_key d = None ↔
  user_id d = None ∨ question_num d = None
  ∨ user_id d = Some "" ∨ question_num d = Some "".
Proof.
  unfold doc_key, str_truthy.
  destruct (user_id d) as [u|], (question_num d) as [q|]; simpl; try tauto.
  destruct (decide (u = "")) as [->|Hu]; [simpl; tauto|].
  destruct (decide (q = "")) as [->|Hq].
  { rewrite bool_decide_eq_false_2 by done. simpl. tauto. }
  rewrite !bool_decide_eq_false_2 by done. simpl.
  split; [done|]. intros [?|[?|[?|?]]]; congruence.
Qed.

(** The key determines the pair when the owner ids have no underscore. *)
Lemma analysis_key_inj user q user' q' :
  contains_char "_" user = false → contains_char "_" user' = false →
  analysis_key user q = analysis_key user' q' → user = user' ∧ q = q'.
Proof.
  unfold analysis_key. revert user'.
  induction user as [|a user IH]; intros [|a' user'] H1 H2 Heq; simpl in *.
  - by simplify_eq.
  - injection Heq as <- _. by rewrite bool_decide_eq_true_2 in H2.
  - injection Heq as -> _. by rewrite bool_decide_eq_true_2 in H1.
  - apply orb_false_iff in H1 as [_ H1]. apply orb_false_iff in H2 as [_ H2].
    injection Heq as -> Heq. destruct (IH _ H1 H2 Heq) as [-> ->]. done.
Qed.

Lemma existing_analyses_set_status (f : doc → string) c :
  existing_analyses ((λ d, set_status (f d) d) <$> c) = existing_analyses c.
Proof.
  unfold existing_analyses. f_equal.
  induction c as [|d c IH]; [done|]. rewrite fmap_cons.
  change (omap doc_key (set_status (f d) d :: ((λ d, set_status (f d) d) <$> c)))
    with (from_option (λ k, k :: omap doc_key ((λ d, set_status (f d) d) <$> c))
            (omap doc_key ((λ d, set_status (f d) d) <$> c))
            (doc_key (set_status (f d) d))).
  by rewrite IH.
Qed.

(** C6 as stated fails in two ways.  A record whose [question_num] is empty
    contributes no key, so its unit stays pending although a record for the
    pair exists; and the key is the concatenation of the two ids, so the
    record of [("kim", "q_1")] also excludes the unit [("kim_q", "1")], for
    which no record exists. *)
Lemma dedup_counterexample :
  (has_record [stored_record "kim" "" "completed"] "kim" ""
   ∧ videos_to_analyze [("kim", [""])]
       (existing_analyses [stored_record "kim" "" "completed"]) = [("kim", "")])
  ∧ (¬ has_record [stored_record "kim" "q_1" "completed"] "kim_q" "1"
     ∧ videos_to_analyze [("kim_q", ["1"])]
         (existing_analyses [stored_record "kim" "q_1" "completed"]) = []).
Proof.
  split_and!.
  - eexists. split; [left|done].
  - vm_compute. reflexivity.
  - intros (d & Hd & Hu & _). apply list_elem_of_singleton in Hd as ->. done.
  - vm_compute. reflexivity.
Qed.

(** C6, amended.  For a listed unit whose two ids are not empty: a stored
    record for the pair excludes it from the pending set, whatever the
    status of the record; it is pending when no stored record contributes
    its key; when the owner ids (its own and the stored ones) contain no
    underscore, it is excluded only if a record for the pair exists.  A
    stored record that lacks [user_id] or [question_num], or has an empty
    one, excludes nothing.  The pending set does not depend on any status:
    changing the statuses of the stored records at will leaves it as it
    is. *)
Theorem dedup_regardless_of_status available c user q :
  user ≠ "" → q ≠ "" → listed available user q →
  (has_record c user q →
   (user, q) ∉ videos_to_analyze available (existing_analyses c))
  ∧ ((∀ d, d ∈ c → doc_key d ≠ Some (analysis_key user q)) →
     (user, q) ∈ videos_to_analyze available (existing_analyses c))
  ∧ (contains_char "_" user = false →
     (∀ d u, d ∈ c → user_id d = Some u → contains_char "_" u = false) →
     (user, q) ∉ videos_to_analyze available (existing_analyses c) →
     has_record c user q)
  ∧ (∀ d, doc_key d = None →
       videos_to_analyze available (existing_analyses (d :: c))
       = videos_to_analyze available (existing_analyses c))
  ∧ (∀ f : doc → string,
       videos_to_analyze available
         (existing_analyses ((λ d, set_status (f d) d) <$> c))
       = videos_to_analyze available (existing_analyses c)).
Proof.
  intros Hu Hq Hl. split_and!.
  - intros (d & Hd & Hdu & Hdq). rewrite elem_of_videos_to_analyze.
    intros [_ Hk]. apply Hk, elem_of_existing_analyses.
    exists d. split; [done|]. by apply doc_key_record.
  - intros Hc. apply elem_of_videos_to_analyze. split; [done|].
    intros (d & Hd & Hk)%elem_of_existing_analyses. by eapply Hc.
  - intros Hus Hcs Hex.
    destruct (decide (analysis_key user q ∈ existing_analyses c)) as [Hk|Hk].
    + apply elem_of_existing_analyses in Hk as (d & Hd & Hk).
      apply doc_key_Some in Hk as (u' & q' & Hdu & Hdq & Hk).
      apply analysis_key_inj in Hk as [-> ->]; [|done|by eapply Hcs].
      by exists d.
    + destruct Hex. by apply elem_of_videos_to_analyze.
  - intros d Hd. unfold existing_analyses. simpl. by rewrite Hd.
  - intros f. by rewrite existing_analyses_set_status.
Qed.

Lemma dedup_regardless_of_status_witness :
  let available := [("kim", ["q_1"; "q_2"])] in
  let c := [stored_record "kim" "q_1" "error"] in
  (has_record c "kim" "q_1" →
   ("kim", "q_1") ∉ videos_to_analyze available (existing_analyses c))
  ∧ ((∀ d, d ∈ c → doc_key d ≠ Some (analysis_key "kim" "q_1")) →
     ("kim", "q_1") ∈ videos_to_analyze available (existing_analyses c))
  ∧ (contains_char "_" "kim" = false →
     (∀ d u, d ∈ c → user_id d = Some u → contains_char "_" u = false) →
     ("kim", "q_1") ∉ videos_to_analyze available (existing_analyses c) →
     has_record c "kim" "q_1")
  ∧ (∀ d, doc_key d = None →
       videos_to_analyze available (existing_analyses (d :: c))
       = videos_to_analyze available (existing_analyses c))
  ∧ (∀ f : doc → string,
       videos_to_analyze available
         (existing_analyses ((λ d, set_status (f d) d) <$> c))
       = videos_to_analyze available (existing_analyses c)).
Proof.
  apply (dedup_regardless_of_status [("kim", ["q_1"; "q_2"])]
           [stored_record "kim" "q_1" "error"] "kim" "q_1").
  - discriminate.
  - discriminate.
  - exists ["q_1"; "q_2"]. split; left.
Defined.

(** A record left by a failed job, or by one still marked [processing],
    keeps its unit out of the next scan. *)
Example error_record_excludes_unit :
  videos_to_analyze [("kim", ["q_1"; "q_2"])]
    (existing_analyses [stored_record "kim" "q_1" "error"]) = [("kim", "q_2")]
  ∧ videos_to_analyze [("kim", ["q_1"; "q_2"])]
      (existing_analyses [stored_record "kim" "q_1" "processing"]) = [("kim", "q_2")].
Proof. vm_compute. done. Qed.

(** [check_existing_analysis] would not count a failed job's record; the
    scan, which does not call it, does. *)
Example check_existing_analysis_is_stricter :
  let c := [stored_record "kim" "q_1" "error"] in
  (check_existing_analysis sample_env "kim" "q_1" (startup c 0)).1 = Return false
  ∧ videos_to_analyze [("kim", ["q_1"])] (existing_analyses c) = [].
Proof. vm_compute. done. Qed.

(** ** The drain: its segments *)

#[local] Instance same_batch_items_preorder : PreOrder same_batch_items.
Proof.
  split; [by intros w|intros w1 w2 w3]. unfold same_batch_items. congruence.
Qed.

Lemma batch_items_app t1 t2 :
  batch_items (t1 ++ t2) = batch_items t1 ++ batch_items t2.
Proof. apply omap_app. Qed.

Lemma gpt_batch_enter_flag_set w :
  _batch_processing_active w = true → gpt_batch_enter w = (None, w).
Proof. intros H. unfold gpt_batch_enter. by rewrite H. Qed.

Lemma gpt_batch_enter_None w w' :
  gpt_batch_enter w = (None, w') →
  w' = w ∧ (_batch_processing_active w = true ∨ pending w = []).
Proof.
  unfold gpt_batch_enter.
  destruct (_batch_processing_active w) eqn:Hf; simpl; [intros [= <-]; eauto|].
  case_bool_decide; [intros [= <-]; eauto|done].
Qed.

Lemma gpt_batch_enter_Some w b w' :
  gpt_batch_enter w = (Some b, w') →
  _batch_processing_active w = false
  ∧ pending w ≠ []
  ∧ _batch_processing_active w' = true
  ∧ heap w' !! b = Some (pending w)
  ∧ pending w' = []
  ∧ b ≠ _pending_gpt_analyses w'
  ∧ is_Some (heap w' !! _pending_gpt_analyses w')
  ∧ trace w' = trace w
  ∧ analysis_results w' = analysis_results w.
Proof.
  unfold gpt_batch_enter.
  destruct (_batch_processing_active w) eqn:Hf; simpl; [done|].
  case_bool_decide as Hq; [done|]. intros [= <- <-]. simpl.
  set (b := fresh (dom (heap w))).
  set (g := fresh (dom (<[b:=pending (set_active true w)]> (heap w)))).
  assert (b ≠ g) as Hbg.
  { intros Heq. apply (is_fresh (dom (<[b:=pending (set_active true w)]> (heap w)))).
    fold g. rewrite <- Heq. rewrite dom_insert_L. set_solver. }
  split_and!; try done.
  - by rewrite lookup_insert_ne, lookup_insert_eq.
  - unfold pending. simpl. by rewrite lookup_insert_eq.
  - rewrite lookup_insert_eq. eauto.
Qed.

Lemma gpt_batch_leave_run r w :
  let res := gpt_batch_leave r w in
  _batch_processing_active res.2 = false
  ∧ heap res.2 = heap w
  ∧ _pending_gpt_analyses res.2 = _pending_gpt_analyses w
  ∧ batch_items (trace res.2) = batch_items (trace w)
  ∧ (r = Return () → res.1 = Return () ∧ trace res.2 = trace w)
  ∧ (∀ e, r = Raise e → isinstance_Exception e = false → res.1 = Raise e).
Proof.
  unfold gpt_batch_leave, try_finally, try_except, call, gpt_batch_exit, modify.
  destruct r as [[]|e]; simpl.
  - by split_and!.
  - destruct (isinstance_Exception e) eqn:He; simpl.
    + rewrite batch_items_app. simpl. rewrite app_nil_r.
      split_and!; try done. intros e' [= <-]. congruence.
    + by split_and!.
Qed.

Section drain_item.
Context (E : env).

Lemma save_attitude_same_queue row : stable same_queue (save_attitude E row).
Proof. intros w. rewrite save_attitude_run. by destruct (save_interview_attitude E row). Qed.

Lemma save_attitude_same_batch_items row :
  stable same_batch_items (save_attitude E row).
Proof.
  intros w. rewrite save_attitude_run.
  destruct (save_interview_attitude E row); [|done].
  unfold same_batch_items. simpl. rewrite batch_items_app. simpl. apply app_nil_r.
Qed.

Lemma gpt_batch_item_same_queue i n item :
  stable same_queue (gpt_batch_item E i n item).
Proof.
  unfold gpt_batch_item.
  stable_auto ltac:(first
    [ apply save_attitude_same_queue
    | stable_rule stable_sleep; by intros ?
    | apply stable_modify; by intros ? ]).
Qed.

(** What follows the first line of the loop body starts no item. *)
Lemma gpt_batch_item_items i n item w :
  batch_items (trace (gpt_batch_item E i n item w).2)
  = batch_items (trace w) ++ [item].
Proof.
  set (w1 := set_trace (λ t, t ++ [BatchItemStart i n item]) w).
  assert (batch_items (trace w1) = batch_items (trace w) ++ [item]) as <-.
  { unfold w1. simpl. by rewrite batch_items_app. }
  assert (∀ ev, batch_items [ev] = [] → stable same_batch_items (print ev)) as Hprint.
  { intros ev Hev w'. unfold same_batch_items. simpl.
    rewrite batch_items_app, Hev. apply app_nil_r. }
  assert (∀ k, stable same_batch_items (sleep E k)) as Hsleep
    by (intros k; stable_rule stable_sleep; by intros ?).
  unfold gpt_batch_item.
  match goal with
  | |- batch_items (trace (try_except (_ ;; ?rest) ?h w).2) = _ =>
    change (same_batch_items w1 (try_except rest h w1).2);
    generalize w1; change (stable same_batch_items (try_except rest h))
  end.
  stable_auto ltac:(first
    [ apply save_attitude_same_batch_items
    | apply Hsleep
    | apply Hprint; reflexivity ]).
Qed.

(** The loop body takes every [Exception]: it can only be left by a
    cancellation. *)
Lemma gpt_batch_item_Raise i n item w e w' :
  gpt_batch_item E i n item w = (Raise e, w') → isinstance_Exception e = false.
Proof.
  unfold gpt_batch_item, try_except. intros H.
  repeat case_match; by simplify_eq.
Qed.

End drain_item.

(** ** The drain under concurrent triggers *)

Section machine_facts.
Context (E : env).

(** One segment of a task that is in its loop. *)
Lemma task_step_Draining b k w :
  let res := task_step E (Draining b k) w in
  heap res.2 = heap w
  ∧ _pending_gpt_analyses res.2 = _pending_gpt_analyses w
  ∧ match default [] (heap w !! b) !! k with
    | Some item =>
      batch_items (trace res.2) = batch_items (trace w) ++ [item]
      ∧ ((res.1 = Draining b (S k)
          ∧ _batch_processing_active res.2 = _batch_processing_active w)
         ∨ (∃ e, res.1 = Finished (Raise e)
                 ∧ _batch_processing_active res.2 = false))
    | None =>
      res.1 = Finished (Return ())
      ∧ _batch_processing_active res.2 = false
      ∧ trace res.2 = trace w
    end.
Proof.
  unfold task_step. destruct (default [] (heap w !! b) !! k) as [item|] eqn:Hk.
  - pose proof (gpt_batch_item_same_queue E (S k) (length (default [] (heap w !! b)))
                  item w) as (Hh & Hp & Hf).
    pose proof (gpt_batch_item_items E (S k) (length (default [] (heap w !! b)))
                  item w) as Hi.
    destruct (gpt_batch_item E _ _ item w) as [[[]|e] w1] eqn:Hitem; simpl in *.
    + split_and!; try done. by left.
    + pose proof (gpt_batch_leave_run (Raise e) w1) as (Hf' & Hh' & Hp' & Hi' & _ & Hr).
      apply gpt_batch_item_Raise in Hitem.
      specialize (Hr e eq_refl Hitem).
      destruct (gpt_batch_leave (Raise e) w1) as [r w2]. simpl in *. subst r.
      split_and!; try congruence. right. eauto.
  - pose proof (gpt_batch_leave_run (Return ()) w) as (Hf' & Hh' & Hp' & _ & Hr & _).
    destruct (Hr eq_refl) as [Hr1 Hr2].
    destruct (gpt_batch_leave (Return ()) w) as [r w2]. simpl in *. by subst r.
Qed.

Lemma machine_inv_startup c t : machine_inv {| shared := startup c t; tasks := [] |}.
Proof.
  split; simpl.
  - rewrite lookup_singleton_eq. eauto.
  - split; [done|]. by intros (i & b & k & ?).
  - by intros i j b k b' k' ?.
  - by intros i b k ?.
Qed.

Lemma machine_inv_step s l s' : machine_inv s → step E s l s' → machine_inv s'.
Proof.
  intros [Hq Hflag Hsingle Hbatch] Hstep.
  destruct Hstep as [s|s i t Hi|s id user question|s d|s n].
  - (* a new trigger *)
    assert (∀ j b k, (tasks s ++ [Created]) !! j = Some (Draining b k) →
                     tasks s !! j = Some (Draining b k)) as Hold.
    { intros j b k Hj. apply lookup_app_Some in Hj as [Hj|[_ Hj]]; [done|].
      by apply list_lookup_singleton_Some in Hj as [_ ?]. }
    split; simpl.
    + done.
    + rewrite Hflag. split; intros (j & b & k & Hj); exists j, b, k.
      * by apply lookup_app_l_Some.
      * by apply Hold.
    + intros j1 j2 b k b' k' H1%Hold H2%Hold. eauto.
    + intros j b k Hj%Hold. eauto.
  - (* a task runs its next segment *)
    assert (i < length (tasks s))%nat as Hlen by by eapply lookup_lt_Some.
    destruct t as [|b k|r].
    + (* entry *)
      simpl. destruct (gpt_batch_enter (shared s)) as [[b|] w'] eqn:Henter; simpl.
      * apply gpt_batch_enter_Some in Henter
          as (Hf & _ & Hf' & Hb & _ & Hbq & Hq' & _).
        assert (∀ j b' k', <[i:=Draining b 0]> (tasks s) !! j = Some (Draining b' k') →
                           j = i ∧ b' = b) as Honly.
        { intros j b' k' Hj. apply list_lookup_insert_Some in Hj as [(-> & [= <- <-] & _)|[_ Hj]];
            [done|].
          assert (_batch_processing_active (shared s) = true) by (apply Hflag; eauto).
          congruence. }
        split; simpl.
        -- done.
        -- split; [|done]. intros _. exists i, b, 0%nat.
           by apply list_lookup_insert_eq.
        -- intros j1 j2 b1 k1 b2 k2 [-> _]%Honly [-> _]%Honly. done.
        -- intros j b' k' [-> ->]%Honly. split; [by rewrite Hb|done].
      * apply gpt_batch_enter_None in Henter as [-> _].
        assert (∀ j b k, <[i:=Finished (Return ())]> (tasks s) !! j = Some (Draining b k) ↔
                         tasks s !! j = Some (Draining b k)) as Hsame.
        { intros j b k. rewrite list_lookup_insert_Some. split.
          - intros [(_ & [=] & _)|[_ ?]]. done.
          - intros Hj. right. split; [congruence|done]. }
        split; simpl.
        -- done.
        -- rewrite Hflag. by setoid_rewrite Hsame.
        -- intros j1 j2 b1 k1 b2 k2 H1%Hsame H2%Hsame. eauto.
        -- intros j b k Hj%Hsame. eauto.
    + (* one pass through the loop, or the way out *)
      pose proof (task_step_Draining b k (shared s)) as (Hh & Hp & Hcase).
      destruct (task_step E (Draining b k) (shared s)) as [t' w'] eqn:Hts.
      simpl in *.
      assert (∀ j b' k', <[i:=t']> (tasks s) !! j = Some (Draining b' k') →
                is_draining t' = true ∧ tasks s !! j = Some (Draining b' k') ∨
                (j = i ∧ t' = Draining b' k')) as Hold.
      { intros j b' k' Hj.
        apply list_lookup_insert_Some in Hj as [(-> & -> & _)|[Hne Hj]]; [by right|].
        specialize (Hsingle _ _ _ _ _ _ Hi Hj). done. }
      assert (is_draining t' = true → ∃ k', t' = Draining b k'
                ∧ _batch_processing_active w' = _batch_processing_active (shared s))
        as Hstay.
      { destruct (default [] (heap (shared s) !! b) !! k).
        - destruct Hcase as [_ [[-> ?]|(e & -> & _)]]; [eauto|done].
        - destruct Hcase as (-> & _). done. }
      assert (is_draining t' = false → _batch_processing_active w' = false) as Hgo.
      { destruct (default [] (heap (shared s) !! b) !! k).
        - destruct Hcase as [_ [[-> ?]|(e & -> & ?)]]; done.
        - by destruct Hcase as (-> & ? & _). }
      split; simpl.
      * by rewrite Hh, Hp.
      * destruct (is_draining t') eqn:Hd.
        -- destruct (Hstay eq_refl) as (k' & -> & ->).
           split; intros _; [|apply Hflag; eauto].
           exists i, b, k'. by apply list_lookup_insert_eq.
        -- rewrite (Hgo eq_refl). split; [done|].
           intros (j & b' & k' & [[? _]|[_ ->]]%Hold); done.
      * intros j1 j2 b1 k1 b2 k2 H1 H2.
        apply Hold in H1 as [[_ H1]|[-> _]], H2 as [[_ H2]|[-> _]]; eauto.
      * intros j b' k' [[_ Hj]|[-> ->]]%Hold; rewrite Hh, Hp; [eauto|].
        destruct (Hstay eq_refl) as (k'' & [= <- _] & _). eauto.
    + (* a finished task stays as it is *)
      simpl. rewrite list_insert_id by done. by split.
  - (* a job adds an entry to the queue *)
    split; simpl.
    + apply lookup_alter_is_Some. done.
    + done.
    + done.
    + intros j b k Hj. destruct (Hbatch _ _ _ Hj) as [Hb Hne].
      split; [|done]. by rewrite lookup_alter_ne.
  - by split.
  - by split.
Qed.

Lemma machine_inv_run s L s' : machine_inv s → run E s L s' → machine_inv s'.
Proof. intros Hs Hrun. induction Hrun; eauto using machine_inv_step. Qed.

Lemma machine_inv_reachable s : reachable E s → machine_inv s.
Proof.
  intros (c & t & L & Hrun).
  eapply machine_inv_run; [apply machine_inv_startup|done].
Qed.

End machine_facts.

Lemma enqueued_snoc L l :
  enqueued (L ++ [l]) =
  enqueued L ++ match l with LEnqueue e => [e] | _ => [] end.
Proof. unfold enqueued. rewrite omap_app. by destruct l. Qed.

Lemma step_task_inv E s i t s' :
  tasks s !! i = Some t → step E s (LTask i) s' →
  shared s' = (task_step E t (shared s)).2
  ∧ tasks s' = <[i := (task_step E t (shared s)).1]> (tasks s).
Proof.
  intros Hi Hstep. inversion Hstep as [|s0 i0 t0 Hi0| | |]; subst. simpl.
  rewrite Hi in Hi0. by injection Hi0 as <-.
Qed.

Lemma pending_enqueue id user question w :
  is_Some (heap w !! _pending_gpt_analyses w) →
  pending (add_to_gpt_batch_queue id user question w).2 =
  pending w ++ [ {| qe_analysis_id := id; qe_user_id := user;
                    qe_question_num := question; added_at := now w |} ].
Proof.
  intros [q Hq]. unfold pending. simpl. by rewrite lookup_alter_eq, Hq.
Qed.

(** While a task is in its loop: its list object keeps the snapshot, the
    items started are the first ones of the snapshot, and the queue holds
    what was enqueued since the task entered. *)
Lemma drain_run_inv E i b q0 s1 L s2 :
  machine_inv s1 →
  tasks s1 !! i = Some (Draining b 0) →
  heap (shared s1) !! b = Some q0 →
  pending (shared s1) = [] →
  run E s1 L s2 →
  (∃ k, tasks s2 !! i = Some (Draining b k)
        ∧ heap (shared s2) !! b = Some q0
        ∧ (k ≤ length q0)%nat
        ∧ batch_items (trace (shared s2))
          = batch_items (trace (shared s1)) ++ take k q0
        ∧ pending (shared s2) = enqueued L)
  ∨ (∃ r, tasks s2 !! i = Some (Finished r)).
Proof.
  intros Hinv Hi Hb Hq Hrun. induction Hrun as [s|s L s' l s'' Hrun IH Hstep].
  { left. exists 0%nat. rewrite take_0, app_nil_r. split_and!; try done. lia. }
  specialize (IH Hinv Hi Hb Hq).
  pose proof (machine_inv_run E _ _ _ Hinv Hrun) as Hinv'.
  rewrite enqueued_snoc.
  destruct IH as [(k & Hik & Hbk & Hle & Hitems & Hpend)|(r & Hir)].
  - (* the task is in its loop *)
    destruct Hstep as [s'|s' j t Hj|s' id user question|s' d|s' n];
      cbn [shared tasks].
    + left. exists k. rewrite app_nil_r. split_and!; try done.
      by apply lookup_app_l_Some.
    + destruct (decide (j = i)) as [->|Hne].
      * rewrite Hik in Hj. injection Hj as <-.
        pose proof (task_step_Draining E b k (shared s')) as (Hh & Hp & Hcase).
        rewrite Hbk in Hcase. change (default [] (Some q0)) with q0 in Hcase.
        assert (i < length (tasks s'))%nat by by eapply lookup_lt_Some.
        destruct (q0 !! k) as [item|] eqn:Hk.
        -- destruct Hcase as [Hit [[Ht Hf]|(e & Ht & Hf)]].
           ++ left. exists (S k). rewrite Ht, list_lookup_insert_eq by done.
              rewrite Hh, Hit, Hitems, app_nil_r, <- (assoc_L (++)).
              rewrite (take_S_r _ _ _ Hk). split_and!; try done.
              ** apply lookup_lt_Some in Hk. lia.
              ** unfold pending in *. by rewrite Hh, Hp.
           ++ right. exists (Raise e). by rewrite Ht, list_lookup_insert_eq.
        -- destruct Hcase as (Ht & _). right. exists (Return ()).
           by rewrite Ht, list_lookup_insert_eq.
      * destruct t as [|b' k'|r].
        -- (* another trigger finds the flag set *)
           assert (_batch_processing_active (shared s') = true) as Hf.
           { apply (inv_flag _ Hinv'). eauto. }
           simpl. rewrite (gpt_batch_enter_flag_set _ Hf). simpl.
           left. exists k. rewrite app_nil_r, list_lookup_insert_ne by done.
           by split_and!.
        -- by specialize (inv_single _ Hinv' _ _ _ _ _ _ Hik Hj).
        -- simpl. left. exists k. rewrite app_nil_r, list_lookup_insert_ne by done.
           by split_and!.
    + (* an entry is added: to the queue, not to the snapshot *)
      left. exists k. destruct (inv_batch _ Hinv' _ _ _ Hik) as [_ Hbq].
      rewrite pending_enqueue by apply (inv_queue _ Hinv').
      rewrite Hpend. split_and!; try done.
      simpl. by rewrite lookup_alter_ne.
    + left. exists k. rewrite app_nil_r. by split_and!.
    + left. exists k. rewrite app_nil_r. by split_and!.
  - (* the task has finished *)
    right. exists r.
    destruct Hstep as [s'|s' j t Hj|s' id user question|s' d|s' n];
      cbn [shared tasks]; try done.
    + by apply lookup_app_l_Some.
    + destruct (decide (j = i)) as [->|Hne].
      * rewrite Hir in Hj. injection Hj as <-. simpl.
        by rewrite list_insert_id.
      * by rewrite list_lookup_insert_ne.
Qed.

(** C1.  In every state the process can reach, whatever the number and the
    timing of the triggers: at most one call of [process_gpt_batch] is in
    its loop; the flag is set exactly while one is; and a trigger that runs
    while the flag is set returns at once, leaving the queue, the job
    collection and the trace as they were, so that it handles no entry. *)
Theorem drain_single_flight E s :
  reachable E s →
  (∀ i j b k b' k',
     tasks s !! i = Some (Draining b k) →
     tasks s !! j = Some (Draining b' k') → i = j)
  ∧ (_batch_processing_active (shared s) = true ↔
     ∃ i b k, tasks s !! i = Some (Draining b k))
  ∧ (_batch_processing_active (shared s) = true →
     process_gpt_batch E (shared s) = (Return (), shared s)
     ∧ ∀ i s', tasks s !! i = Some Created → step E s (LTask i) s' →
         shared s' = shared s
         ∧ tasks s' = <[i := Finished (Return ())]> (tasks s)).
Proof.
  intros Hinv%machine_inv_reachable. split_and!.
  - apply (inv_single _ Hinv).
  - apply (inv_flag _ Hinv).
  - intros Hf. split.
    + unfold process_gpt_batch. by rewrite (gpt_batch_enter_flag_set _ Hf).
    + intros i s' Hi Hstep.
      destruct (step_task_inv _ _ _ _ _ Hi Hstep) as [-> ->]. simpl.
      by rewrite (gpt_batch_enter_flag_set _ Hf).
Qed.

(** C2.  A drain handles the entries that were in the queue when it
    entered, and no other.  On entry the task's own list object receives
    the queue's content and the queue becomes a new, empty list.  From then
    on, while the task is in its loop: its list still holds that snapshot;
    the items started since the entry are the first [k] of the snapshot;
    the queue holds exactly the entries enqueued since, in order.  When the
    task leaves the loop at its end, it has started the whole snapshot and
    nothing else, the entries enqueued meanwhile are still in the queue, the
    flag is down, and the next trigger takes them as its snapshot. *)
Theorem drain_snapshot E s i b s1 L s2 k :
  reachable E s →
  tasks s !! i = Some Created →
  step E s (LTask i) s1 →
  tasks s1 !! i = Some (Draining b 0) →
  run E s1 L s2 →
  tasks s2 !! i = Some (Draining b k) →
  let q0 := pending (shared s) in
  heap (shared s1) !! b = Some q0
  ∧ pending (shared s1) = []
  ∧ heap (shared s2) !! b = Some q0
  ∧ batch_items (trace (shared s2)) = batch_items (trace (shared s)) ++ take k q0
  ∧ pending (shared s2) = enqueued L
  ∧ ∀ s3,
      step E s2 (LTask i) s3 →
      tasks s3 !! i = Some (Finished (Return ())) →
      batch_items (trace (shared s3)) = batch_items (trace (shared s)) ++ q0
      ∧ pending (shared s3) = enqueued L
      ∧ _batch_processing_active (shared s3) = false
      ∧ ∀ j s4,
          tasks s3 !! j = Some Created →
          enqueued L ≠ [] →
          step E s3 (LTask j) s4 →
          ∃ b', tasks s4 !! j = Some (Draining b' 0)
                ∧ heap (shared s4) !! b' = Some (enqueued L).
Proof.
  intros Hreach Hi Hstep Hi1 Hrun Hi2 q0.
  pose proof (machine_inv_reachable E _ Hreach) as Hinv.
  pose proof (machine_inv_step E _ _ _ Hinv Hstep) as Hinv1.
  assert (i < length (tasks s))%nat as Hlen by by eapply lookup_lt_Some.
  destruct (step_task_inv _ _ _ _ _ Hi Hstep) as [Hw1 Ht1].
  pose proof Hi1 as Hi1'.
  rewrite Ht1, list_lookup_insert_eq in Hi1 by done. simpl in Hw1, Hi1.
  destruct (gpt_batch_enter (shared s)) as [[b0|] w1] eqn:Henter; [|done].
  simpl in Hw1, Hi1. injection Hi1 as ->.
  apply gpt_batch_enter_Some in Henter
    as (_ & _ & _ & Hb & Hq & _ & _ & Htr & _).
  rewrite <- Hw1 in Hb, Hq, Htr.
  destruct (drain_run_inv E i b q0 s1 L s2 Hinv1 Hi1' Hb Hq Hrun)
    as [(k' & Hik & Hbk & Hle & Hitems & Hpend)|(r & Hir)]; [|congruence].
  rewrite Hi2 in Hik. injection Hik as <-. rewrite Htr in Hitems.
  split_and!; try done.
  intros s3 Hstep3 Hi3.
  pose proof (machine_inv_run E _ _ _ Hinv1 Hrun) as Hinv2.
  assert (i < length (tasks s2))%nat as Hlen2 by by eapply lookup_lt_Some.
  destruct (step_task_inv _ _ _ _ _ Hi2 Hstep3) as [Hw3 Ht3].
  rewrite Ht3, list_lookup_insert_eq in Hi3 by done.
  pose proof (task_step_Draining E b k (shared s2)) as (Hh & Hp & Hcase).
  rewrite Hbk in Hcase. change (default [] (Some q0)) with q0 in Hcase.
  destruct (q0 !! k) as [item|] eqn:Hk.
  { destruct Hcase as [_ [[Ht _]|(e & Ht & _)]]; congruence. }
  destruct Hcase as (_ & Hf & Htr3). rewrite <- Hw3 in Hh, Hp, Hf, Htr3.
  apply lookup_ge_None in Hk. rewrite take_ge in Hitems by done.
  assert (pending (shared s3) = enqueued L) as Hpend3.
  { unfold pending in *. by rewrite Hh, Hp. }
  split_and!; try done; [by rewrite Htr3|].
  intros j s4 Hj Hne Hstep4.
  assert (j < length (tasks s3))%nat as Hlen3 by by eapply lookup_lt_Some.
  destruct (step_task_inv _ _ _ _ _ Hj Hstep4) as [Hw4 Ht4]. simpl in Hw4, Ht4.
  destruct (gpt_batch_enter (shared s3)) as [[b'|] w4] eqn:Henter; simpl in *.
  - exists b'. rewrite Ht4, list_lookup_insert_eq by done. split; [done|].
    apply gpt_batch_enter_Some in Henter as (_ & _ & _ & Hb' & _).
    by rewrite Hw4, Hb', Hpend3.
  - apply gpt_batch_enter_None in Henter as [_ [?|?]]; congruence.
Qed.

(** C3.  A call of [process_gpt_batch] that sets the flag leaves it unset
    when it ends: run to its end in one go, whether the loop is exhausted or
    cancelled, and, in the event loop, by whichever segment takes it out of
    its loop, with whatever result. *)
Theorem drain_releases_flag E w b w1 :
  gpt_batch_enter w = (Some b, w1) →
  _batch_processing_active w1 = true
  ∧ _batch_processing_active (process_gpt_batch E w).2 = false
  ∧ ∀ k w2 r w3,
      task_step E (Draining b k) w2 = (Finished r, w3) →
      _batch_processing_active w3 = false.
Proof.
  intros Henter. split_and!.
  - by apply gpt_batch_enter_Some in Henter as (_ & _ & ? & _).
  - unfold process_gpt_batch. rewrite Henter.
    unfold try_finally, gpt_batch_exit, modify.
    by destruct (try_except _ _ w1) as [r w2].
  - intros k w2 r w3 Hts.
    pose proof (task_step_Draining E b k w2) as (_ & _ & Hcase).
    rewrite Hts in Hcase. cbn [fst snd] in Hcase.
    destruct (default [] (heap w2 !! b) !! k).
    + by destruct Hcase as [_ [[[=] _]|(e & _ & ?)]].
    + by destruct Hcase as (_ & ? & _).
Qed.

(** ** The sample run of the machine *)

Lemma step_do_task E i s t :
  tasks s !! i = Some t → step E s (LTask i) (do_task E i s).
Proof. intros Hi. unfold do_task. rewrite Hi. by constructor. Qed.

Lemma sample_queued_reachable : reachable sample_env sample_queued.
Proof.
  exists (analysis_results sample_completed_world), 100%nat,
    [LTrigger; LTrigger; LEnqueue (sample_entry "job-1" "Q1" 100)].
  apply (run_step _ _ [LTrigger; LTrigger] (do_trigger (do_trigger sample_started))
           (LEnqueue _)).
  - apply (run_step _ _ [LTrigger] (do_trigger sample_started) LTrigger).
    + apply (run_step _ _ [] sample_started LTrigger); [apply run_refl|].
      apply step_trigger.
    + apply step_trigger.
  - apply (step_enqueue sample_env (do_trigger (do_trigger sample_started))
             "job-1" "iv001" "Q1").
Qed.

Lemma sample_draining_step :
  step sample_env sample_queued (LTask 0) sample_draining.
Proof. by apply step_do_task with (t := Created). Qed.

Lemma sample_draining_reachable : reachable sample_env sample_draining.
Proof.
  destruct sample_queued_reachable as (c & t & L & Hrun).
  exists c, t, (L ++ [LTask 0%nat]).
  eapply run_step; [done|apply sample_draining_step].
Qed.

Lemma sample_item_done_run :
  run sample_env sample_draining
    [LTask 1; LEnqueue (sample_entry "job-2" "Q3" 100); LTask 0]
    sample_item_done.
Proof.
  apply (run_step _ _ [LTask 1%nat; LEnqueue _] sample_late_entry (LTask 0)).
  - apply (run_step _ _ [LTask 1%nat] sample_second_trigger (LEnqueue _)).
    + apply (run_step _ _ [] sample_draining (LTask 1)); [apply run_refl|].
      by apply step_do_task with (t := Created).
    + apply (step_enqueue sample_env sample_second_trigger "job-2" "iv001" "Q3").
  - by apply step_do_task with (t := Draining 2 0).
Qed.

Lemma drain_single_flight_witness :
  let s := sample_draining in
  (∀ i j b k b' k',
     tasks s !! i = Some (Draining b k) →
     tasks s !! j = Some (Draining b' k') → i = j)
  ∧ (_batch_processing_active (shared s) = true ↔
     ∃ i b k, tasks s !! i = Some (Draining b k))
  ∧ (_batch_processing_active (shared s) = true →
     process_gpt_batch sample_env (shared s) = (Return (), shared s)
     ∧ ∀ i s', tasks s !! i = Some Created → step sample_env s (LTask i) s' →
         shared s' = shared s
         ∧ tasks s' = <[i := Finished (Return ())]> (tasks s)).
Proof.
  apply (drain_single_flight sample_env sample_draining).
  apply sample_draining_reachable.
Defined.

(** The two triggers of the sample: the first is in its loop, the second
    has returned, the flag is set, and the state of the second trigger is
    the one it found. *)
Example second_trigger_is_a_no_op :
  tasks sample_second_trigger = [Draining 2 0; Finished (Return ())]
  ∧ shared sample_second_trigger = shared sample_draining
  ∧ _batch_processing_active (shared sample_draining) = true.
Proof. vm_compute. done. Qed.

Lemma drain_snapshot_witness :
  let E := sample_env in
  let s := sample_queued in
  let s1 := sample_draining in
  let s2 := sample_item_done in
  let L := [LTask 1; LEnqueue (sample_entry "job-2" "Q3" 100); LTask 0] in
  let q0 := pending (shared s) in
  heap (shared s1) !! 2%positive = Some q0
  ∧ pending (shared s1) = []
  ∧ heap (shared s2) !! 2%positive = Some q0
  ∧ batch_items (trace (shared s2)) = batch_items (trace (shared s)) ++ take 1 q0
  ∧ pending (shared s2) = enqueued L
  ∧ ∀ s3,
      step E s2 (LTask 0) s3 →
      tasks s3 !! 0%nat = Some (Finished (Return ())) →
      batch_items (trace (shared s3)) = batch_items (trace (shared s)) ++ q0
      ∧ pending (shared s3) = enqueued L
      ∧ _batch_processing_active (shared s3) = false
      ∧ ∀ j s4,
          tasks s3 !! j = Some Created →
          enqueued L ≠ [] →
          step E s3 (LTask j) s4 →
          ∃ b', tasks s4 !! j = Some (Draining b' 0)
                ∧ heap (shared s4) !! b' = Some (enqueued L).
Proof.
  apply (drain_snapshot sample_env sample_queued 0 2%positive sample_draining
           [LTask 1; LEnqueue (sample_entry "job-2" "Q3" 100); LTask 0]
           sample_item_done 1).
  - apply sample_queued_reachable.
  - reflexivity.
  - apply sample_draining_step.
  - reflexivity.
  - apply sample_item_done_run.
  - reflexivity.
Defined.

(** In the sample the snapshot is the first job's entry; the second job's
    entry, enqueued during the drain, is not started by it and is the whole
    queue when the drain ends. *)
Example late_entry_waits_for_next_drain :
  let s3 := do_task sample_env 0 sample_item_done in
  tasks s3 = [Finished (Return ()); Finished (Return ())]
  ∧ batch_items (trace (shared s3)) = [sample_entry "job-1" "Q1" 100]
  ∧ pending (shared s3) = [sample_entry "job-2" "Q3" 100]
  ∧ _batch_processing_active (shared s3) = false.
Proof. vm_compute. done. Qed.

Lemma drain_releases_flag_witness :
  let w := sample_completed_world in
  _batch_processing_active (gpt_batch_enter w).2 = true
  ∧ _batch_processing_active (process_gpt_batch cancelled_env w).2 = false
  ∧ ∀ k w2 r w3,
      task_step cancelled_env (Draining 2 k) w2 = (Finished r, w3) →
      _batch_processing_active w3 = false.
Proof.
  apply (drain_releases_flag cancelled_env sample_completed_world 2%positive
           (gpt_batch_enter sample_completed_world).2).
  reflexivity.
Defined.

(** The drain of the sample queue: run to its end, and cancelled inside the
    commentary call.  Both leave the flag unset, the second passes the
    cancellation on. *)
Example drain_ends_with_flag_unset :
  (let run := process_gpt_batch sample_env sample_completed_world in
   run.1 = Return () ∧ _batch_processing_active run.2 = false
   ∧ batch_items (trace run.2) = [sample_entry "job-1" "Q1" 100])
  ∧ (let run := process_gpt_batch cancelled_env sample_completed_world in
     run.1 = Raise CancelledError ∧ _batch_processing_active run.2 = false).
Proof. vm_compute. done. Qed.

(** ** The segments make up the call *)

Lemma run_task_Finished E n r w : run_task E n (Finished r) w = (Finished r, w).
Proof. induction n as [|n IH]; simpl; [done|apply IH]. Qed.

Lemma run_task_S E n t w :
  run_task E (S n) t w =
  run_task E n (task_step E t w).1 (task_step E t w).2.
Proof. simpl. by destruct (task_step E t w). Qed.

Lemma try_bind_run {A B} (m : M A) (f : A → M B) h c w :
  try_finally (try_except (m ≫= f) h) c w =
  match m w with
  | (Return a, w1) => try_finally (try_except (f a) h) c w1
  | (Raise e, w1) => try_finally (try_except (raise e) h) c w1
  end.
Proof.
  unfold try_finally, try_except, raise. rewrite bind_run.
  by destruct (m w) as [[a|e] w1].
Qed.

Lemma run_task_loop E b q rest : ∀ k w,
  heap w !! b = Some q →
  drop k q = rest →
  run_task E (S (length rest)) (Draining b k) w =
  (Finished
     (try_finally
        (try_except (gpt_batch_loop E (length q) (S k) rest)
                    (λ e, print (BatchError (str e))))
        gpt_batch_exit w).1,
   (try_finally
        (try_except (gpt_batch_loop E (length q) (S k) rest)
                    (λ e, print (BatchError (str e))))
        gpt_batch_exit w).2).
Proof.
  induction rest as [|item rest IH]; intros k w Hb Hdrop.
  - assert (q !! k = None) as Hk.
    { apply lookup_ge_None. apply drop_nil_inv in Hdrop. lia. }
    rewrite run_task_S. unfold task_step. rewrite Hb. simpl default. rewrite Hk.
    unfold gpt_batch_leave. cbn [run_task gpt_batch_loop].
    by destruct (try_finally _ _ w).
  - assert (q !! k = Some item ∧ drop (S k) q = rest) as [Hk Hdrop'].
    { pose proof (lookup_drop q k 0) as Hk. rewrite Hdrop, Nat.add_0_r in Hk.
      symmetry in Hk. split; [done|].
      rewrite (drop_S _ _ _ Hk) in Hdrop. by injection Hdrop. }
    cbn [length gpt_batch_loop]. rewrite run_task_S, try_bind_run.
    unfold task_step. rewrite Hb. simpl default. rewrite Hk.
    pose proof (gpt_batch_item_same_queue E (S k) (length q) item w) as (Hh & _).
    destruct (gpt_batch_item E (S k) (length q) item w) as [[[]|e] w1] eqn:Hitem.
    + simpl in Hh. cbn [fst snd]. apply IH; [by rewrite Hh|done].
    + unfold gpt_batch_leave.
      change (call (Raise e)) with (@raise () e).
      destruct (try_finally _ _ w1) as [r w2]. cbn [fst snd].
      apply run_task_Finished.
Qed.

(** Run without interleaving, the segments of a task compute what the call
    [process_gpt_batch] computes. *)
Lemma run_task_process_gpt_batch E w :
  run_task E (2 + length (pending w)) Created w =
  (Finished (process_gpt_batch E w).1, (process_gpt_batch E w).2).
Proof.
  change (2 + length (pending w))%nat with (S (S (length (pending w)))).
  rewrite run_task_S. unfold process_gpt_batch. cbn [task_step].
  destruct (gpt_batch_enter w) as [[b|] w1] eqn:Henter; cbn [fst snd].
  - apply gpt_batch_enter_Some in Henter as (_ & _ & _ & Hb & _).
    rewrite Hb. simpl default.
    apply (run_task_loop E b (pending w) (pending w) 0 w1 Hb (drop_0 _)).
  - apply run_task_Finished.
Qed.

(** * Further properties of the orchestration code *)

(** ** What a job touches *)

#[local] Instance job_frame_preorder id user q : PreOrder (job_frame id user q).
Proof.
  split.
  - intros w. split_and!; try done. exists []. by rewrite app_nil_r.
  - intros w1 w2 w3 (Hr1 & Hp1 & Hf1 & l1 & Hl1 & Ho1) (Hr2 & Hp2 & Hf2 & l2 & Hl2 & Ho2).
    split_and!; try congruence.
    + intros id' Hne. by rewrite Hr2, Hr1.
    + exists (l1 ++ l2). rewrite Hl2, Hl1, (assoc_L (++)). split; [done|].
      by apply Forall_app.
Qed.

Lemma job_frame_trace id user q f w : job_frame id user q w (set_trace f w).
Proof. split_and!; try done. exists []. by rewrite app_nil_r. Qed.

Lemma update_analysis_status_job_frame E id user q id0 st sg p :
  stable (job_frame id user q) (update_analysis_status E id0 st sg p).
Proof. intros w. rewrite update_analysis_status_run. apply job_frame_trace. Qed.

Lemma upsert_job_frame E id user q d :
  analysis_id d = id → stable (job_frame id user q) (upsert E d).
Proof.
  intros Hd w. rewrite upsert_run. destruct (replace_one_session E d); [reflexivity|].
  split_and!; try done.
  - intros id' Hne. simpl. rewrite Hd. by apply find_one_replace_one_ne.
  - exists []. by rewrite app_nil_r.
Qed.

Lemma add_to_gpt_batch_queue_job_frame id user q :
  stable (job_frame id user q) (add_to_gpt_batch_queue id user q).
Proof.
  intros w. split_and!; try done. unfold pending. simpl.
  rewrite lookup_alter_eq.
  destruct (heap w !! _pending_gpt_analyses w) as [l|]; simpl.
  - eexists. split; [done|]. by apply Forall_singleton.
  - exists []. done.
Qed.

Lemma process_job_frame E id bucket key user q session :
  stable (job_frame id user q)
    (process_s3_user_video_analysis E id bucket key user q session).
Proof.
  unfold process_s3_user_video_analysis, job_body, job_handler, job_cleanup,
    save_attitude, read_concentration_score.
  stable_auto ltac:(first
    [ apply update_analysis_status_job_frame
    | apply add_to_gpt_batch_queue_job_frame
    | apply upsert_job_frame; reflexivity
    | apply stable_modify; intros ?; apply job_frame_trace ]).
Qed.

(** X1.  A job changes no record but the one of its own analysis id: the
    record stored under any other id is the same before and after the run,
    whatever the outcome of the run.  It leaves the flag alone, keeps the
    queue object, and removes nothing from the queue: the entries it adds are
    entries of its own id, user and question. *)
Theorem job_touches_only_its_own id' E id bucket key user q session w :
  id' ≠ id →
  let w' := (process_s3_user_video_analysis E id bucket key user q session w).2 in
  find_one id' (analysis_results w') = find_one id' (analysis_results w)
  ∧ _pending_gpt_analyses w' = _pending_gpt_analyses w
  ∧ _batch_processing_active w' = _batch_processing_active w
  ∧ ∃ l, pending w' = pending w ++ l ∧ Forall (own_entry id user q) l.
Proof.
  intros Hne.
  destruct (process_job_frame E id bucket key user q session w) as (Hr & Hp & Hf & Hl).
  split_and!; try done. by apply Hr.
Qed.

Lemma job_touches_only_its_own_witness :
  let w := sample_completed_world in
  let w' := (process_s3_user_video_analysis attitude_down_env "job-2" "skala25a"
               "iv001/Q2.mp4" "iv001" "Q2" (Some "manual") w).2 in
  find_one "job-1" (analysis_results w') = find_one "job-1" (analysis_results w)
  ∧ _pending_gpt_analyses w' = _pending_gpt_analyses w
  ∧ _batch_processing_active w' = _batch_processing_active w
  ∧ ∃ l, pending w' = pending w ++ l ∧ Forall (own_entry "job-2" "iv001" "Q2") l.
Proof.
  apply (job_touches_only_its_own "job-1" attitude_down_env "job-2" "skala25a"
           "iv001/Q2.mp4" "iv001" "Q2" (Some "manual") sample_completed_world).
  discriminate.
Defined.

(** The queue after a run of the [try] block that reaches its end. *)
Lemma job_body_Return_heap E id bucket key user q session w w' :
  job_body E id bucket key user q session w = (Return (), w') →
  heap w' =
    alter (λ l, l ++ [ {| qe_analysis_id := id; qe_user_id := user;
                          qe_question_num := q; added_at := now w |} ])
          (_pending_gpt_analyses w) (heap w)
  ∧ _pending_gpt_analyses w' = _pending_gpt_analyses w.
Proof.
  intros H. unfold job_body in H.
  rewrite !bind_run, !update_analysis_status_run in H.
  unfold call_db, call in H.
  destruct (makedirs E (temp_dir_of E id)); [done|].
  destruct (download_file E bucket key (temp_dir_of E id)) as [path|]; [|done].
  rewrite !bind_run, !update_analysis_status_run in H.
  destruct (emotion_analyze_video E path) as [emotion|]; [|done].
  rewrite !bind_run, !update_analysis_status_run in H.
  destruct (eye_tracking_analyze_video E path user q key) as [gaze|]; [|done].
  rewrite !bind_run in H.
  destruct (read_concentration_score gaze _) as [[c|e] w1] eqn:Hc; [|done].
  assert (heap w1 = heap w ∧ _pending_gpt_analyses w1 = _pending_gpt_analyses w
          ∧ now w1 = now w) as (Hh & Hp & Hn).
  { unfold read_concentration_score in Hc.
    destruct (basic_scores gaze) as [bs|]; [destruct (concentration_score bs)|];
      unfold mret, M_ret, raise in Hc; by simplify_eq. }
  clear Hc. rewrite !bind_run, !update_analysis_status_run in H.
  unfold get_now in H. rewrite !bind_run, upsert_run in H.
  destruct (replace_one_session E _); [done|].
  unfold add_to_gpt_batch_queue, modify, call_sync in H. rewrite !bind_run in H.
  destruct (analyze_keywords E _) as [|gpt]; [done|].
  rewrite !bind_run, save_attitude_run in H.
  destruct (save_interview_attitude E _); [|done].
  rewrite update_analysis_status_run in H. simplify_eq. simpl.
  by rewrite Hh, Hp, Hn.
Qed.

Lemma save_calls_app t1 t2 : save_calls (t1 ++ t2) = save_calls t1 ++ save_calls t2.
Proof. apply omap_app. Qed.

(** X2.  A job whose stages all succeed adds exactly one entry to the end
    of the queue, carrying its analysis id, user, question and the time of
    the run; it stores the completed record under its id; and it makes
    exactly one save call to the evaluation database, for a row of its user
    in which the question number has lost its [Q].  The call answers whether
    the row was saved; the job does not look at the answer, so it completes
    also when the answer is [False]. *)
Theorem completed_job_enqueues_once E id bucket key user q session w w1 :
  is_Some (heap w !! _pending_gpt_analyses w) →
  job_body E id bucket key user q session w = (Return (), w1) →
  let w' := (process_s3_user_video_analysis E id bucket key user q session w).2 in
  pending w' = pending w ++ [ {| qe_analysis_id := id; qe_user_id := user;
                                  qe_question_num := q; added_at := now w |} ]
  ∧ (∃ d, find_one id (analysis_results w') = Some d ∧ status d = "completed"
          ∧ user_id d = Some user ∧ question_num d = Some q)
  ∧ ∃ row saved,
      save_calls (trace w') = save_calls (trace w) ++ [(row, saved)]
      ∧ save_interview_attitude E row = Return saved
      ∧ ia_user_id row = user
      ∧ ia_question_num row = remove_char "q" (remove_char "Q" q).
Proof.
  intros [l Hl] Hb w'. subst w'.
  rewrite (process_run_Return _ _ _ _ _ _ _ _ _ Hb).
  destruct (job_body_Return_heap _ _ _ _ _ _ _ _ _ Hb) as [Hh Hp].
  apply job_body_Return in Hb
    as (path & emotion & gaze & gpt & saved & _ & _ & Hres & _ & _ & _ & _ & Hsave & Ht).
  split_and!.
  - unfold pending. simpl. by rewrite Hh, Hp, lookup_alter_eq, Hl.
  - eexists. simpl. rewrite Hres.
    split; [by apply find_one_replace_one|by split_and!].
  - exists (job_attitude user q emotion gaze gpt), saved. simpl. rewrite Ht.
    split_and!; [|done..]. rewrite !save_calls_app. simpl.
    by rewrite app_nil_r.
Qed.

Lemma completed_job_enqueues_once_witness :
  let E := attitude_refused_env in
  let w := sample_world in
  let w' := (process_s3_user_video_analysis E "job-1" "skala25a"
               "iv001/Q1.mp4" "iv001" "Q1" (Some "manual") w).2 in
  pending w' = pending w ++ [ {| qe_analysis_id := "job-1"; qe_user_id := "iv001";
                                  qe_question_num := "Q1"; added_at := now w |} ]
  ∧ (∃ d, find_one "job-1" (analysis_results w') = Some d ∧ status d = "completed"
          ∧ user_id d = Some "iv001" ∧ question_num d = Some "Q1")
  ∧ ∃ row saved,
      save_calls (trace w') = save_calls (trace w) ++ [(row, saved)]
      ∧ save_interview_attitude E row = Return saved
      ∧ ia_user_id row = "iv001"
      ∧ ia_question_num row = remove_char "q" (remove_char "Q" "Q1").
Proof.
  apply (completed_job_enqueues_once attitude_refused_env "job-1" "skala25a"
           "iv001/Q1.mp4" "iv001" "Q1" (Some "manual") sample_world
           (job_body attitude_refused_env "job-1" "skala25a" "iv001/Q1.mp4" "iv001"
              "Q1" (Some "manual") sample_world).2).
  - vm_compute. eauto.
  - vm_compute. reflexivity.
Defined.

(** With an evaluation database that answers [False] the one call is
    recorded as not saved, and the job has completed. *)
Example job_completes_when_the_save_is_refused :
  let w' := (process_s3_user_video_analysis attitude_refused_env "job-1" "skala25a"
               "iv001/Q1.mp4" "iv001" "Q1" (Some "manual") sample_world).2 in
  snd <$> save_calls (trace w') = [false]
  ∧ status <$> find_one "job-1" (analysis_results w') = Some "completed"
  ∧ last (statuses_of "job-1" (trace w')) = Some "completed".
Proof. vm_compute. by split_and!. Qed.

(** X3.  A job never raises an [Exception] to its caller: it returns,
    unless one of its awaits was cancelled, in which case the cancellation
    goes on to the caller.  Either way the [finally] block has run, for the
    temporary directory of the job: the job's analysis id joined, as a path,
    to the upload directory of the environment. *)
Theorem job_raises_nothing_but_cancellation E id bucket key user q session w :
  let run := process_s3_user_video_analysis E id bucket key user q session w in
  (run.1 = Return () ∨
   (run.1 = Raise CancelledError
    ∧ (job_body E id bucket key user q session w).1 = Raise CancelledError))
  ∧ last (trace run.2) = Some (Cleanup (temp_dir_of E id)).
Proof.
  unfold process_s3_user_video_analysis, try_finally, try_except, job_cleanup, print,
    modify.
  destruct (job_body E id bucket key user q session w) as [[[]|e] w1] eqn:Hb; simpl.
  - split; [by left|apply last_snoc].
  - destruct e as [msg|c d|]; simpl.
    + rewrite job_handler_run. simpl. split; [by left|apply last_snoc].
    + rewrite job_handler_run. simpl. split; [by left|apply last_snoc].
    + split; [by right|apply last_snoc].
Qed.

(** The temporary directory for some values of [TEMP_UPLOAD_DIR]: the
    default, an empty value, one with a trailing separator, and an analysis
    id that is an absolute path. *)
Example temp_dir_of_cases :
  temp_dir_of sample_env "job-1" = "./src/temp_uploads/job-1"
  ∧ os_path_join "" "job-1" = "job-1"
  ∧ os_path_join "/tmp/" "job-1" = "/tmp/job-1"
  ∧ os_path_join "/tmp" "job-1" = "/tmp/job-1"
  ∧ os_path_join "/tmp" "/job-1" = "/job-1"
  ∧ os_path_join "/tmp" "" = "/tmp/".
Proof. by split_and!. Qed.

(** ** A job and the next scan *)

Lemma existing_analyses_record c d user q :
  d ∈ c → user_id d = Some user → question_num d = Some q →
  user ≠ "" → q ≠ "" →
  analysis_key user q ∈ existing_analyses c.
Proof.
  intros Hd Hu Hq Hne1 Hne2. apply elem_of_existing_analyses.
  exists d. split; [done|]. by apply doc_key_record.
Qed.

(** X4.  Once a job has run for a unit and its last write was accepted, the
    next scan leaves the unit out, whether the job completed or failed: a
    unit whose job failed is not tried again by a scan. *)
Theorem unit_of_a_finished_job_is_not_rescanned
    E id bucket key user q session w r w1 available :
  user ≠ "" → q ≠ "" →
  job_body E id bucket key user q session w = (r, w1) →
  match r with
  | Return _ => True
  | Raise e =>
    isinstance_Exception e = true
    ∧ replace_one_session E (error_data id user q session e (now w1)) = None
  end →
  let w' := (process_s3_user_video_analysis E id bucket key user q session w).2 in
  (user, q) ∉ videos_to_analyze available (existing_analyses (analysis_results w')).
Proof.
  intros Hu Hq Hb Hr w'. subst w'.
  assert (∃ d, find_one id (analysis_results
                 (process_s3_user_video_analysis E id bucket key user q session w).2)
               = Some d
               ∧ user_id d = Some user ∧ question_num d = Some q)
    as (d & Hd & Hdu & Hdq).
  { destruct r as [[]|e].
    - rewrite (process_run_Return _ _ _ _ _ _ _ _ _ Hb).
      apply job_body_Return in Hb
        as (path & emotion & gaze & gpt & saved & _ & _ & Hres & _).
      eexists. simpl. rewrite Hres. split; [by apply find_one_replace_one|by split].
    - destruct Hr as [He Hacc].
      rewrite (process_run_Raise _ _ _ _ _ _ _ _ _ _ Hb He), job_handler_run.
      simpl. rewrite Hacc. simpl.
      eexists. split; [by apply find_one_replace_one|by split]. }
  apply find_one_Some in Hd as [Hd _].
  rewrite elem_of_videos_to_analyze. intros [_ Hk]. apply Hk.
  by eapply existing_analyses_record.
Qed.

Lemma unit_of_a_finished_job_is_not_rescanned_witness :
  let w' := (process_s3_user_video_analysis sample_env "job-2" "skala25a"
               "iv001/Q2.mp4" "iv001" "Q2" (Some "manual") sample_world).2 in
  ("iv001", "Q2") ∉
    videos_to_analyze [("iv001", ["Q1"; "Q2"; "Q3"])]
      (existing_analyses (analysis_results w')).
Proof.
  apply (unit_of_a_finished_job_is_not_rescanned sample_env "job-2" "skala25a"
           "iv001/Q2.mp4" "iv001" "Q2" (Some "manual") sample_world
           (Raise (Exception "scoring failed"))
           (job_body sample_env "job-2" "skala25a" "iv001/Q2.mp4" "iv001" "Q2"
              (Some "manual") sample_world).2).
  - discriminate.
  - discriminate.
  - vm_compute. reflexivity.
  - split; reflexivity.
Defined.

(** ** The question number in the evaluation rows *)

Lemma remove_char_length c s : (String.length (remove_char c s) ≤ String.length s)%nat.
Proof.
  induction s as [|a s IH]; simpl; [done|]. case_decide; simpl; lia.
Qed.

Lemma remove_char_id c s : remove_char c s = s ↔ contains_char c s = false.
Proof.
  induction s as [|a s IH]; simpl; [done|].
  destruct (decide (a = c)) as [->|Hne].
  - rewrite bool_decide_eq_true_2 by done. simpl. split; [|done].
    intros Heq. pose proof (remove_char_length c s) as Hlen.
    rewrite Heq in Hlen. simpl in Hlen. lia.
  - rewrite bool_decide_eq_false_2 by done. simpl. rewrite <- IH.
    split; [by intros [=]|by intros ->].
Qed.

Lemma contains_char_remove_char c s : contains_char c (remove_char c s) = false.
Proof.
  induction s as [|a s IH]; simpl; [done|].
  destruct (decide (a = c)) as [->|Hne]; [done|]. simpl.
  by rewrite bool_decide_eq_false_2.
Qed.

Lemma contains_char_remove_other c c' s :
  contains_char c (remove_char c' s) = true → contains_char c s = true.
Proof.
  induction s as [|a s IH]; simpl; [done|].
  destruct (decide (a = c')) as [->|Hne]; simpl.
  - intros ?%IH. apply orb_true_iff. by right.
  - intros [?|?%IH]%orb_true_iff; apply orb_true_iff; [by left|by right].
Qed.

(** X5.  The job saves its evaluation row under the question number
    without any [Q] or [q]; the drain saves the row of the same unit under
    the question number as it is.  The two agree exactly when the question
    number contains neither letter. *)
Theorem job_and_drain_rows_question_num user q emotion gaze gpt emotion' gaze' :
  let job_row := job_attitude user q emotion gaze gpt in
  let drain_row := batch_attitude user q emotion' gaze' in
  contains_char "Q" (ia_question_num job_row) = false
  ∧ contains_char "q" (ia_question_num job_row) = false
  ∧ ia_question_num drain_row = q
  ∧ (ia_question_num job_row = ia_question_num drain_row ↔
     contains_char "Q" q = false ∧ contains_char "q" q = false).
Proof.
  simpl. split_and!.
  - destruct (contains_char "Q" (remove_char "q" (remove_char "Q" q))) eqn:Hc; [|done].
    apply contains_char_remove_other in Hc. by rewrite contains_char_remove_char in Hc.
  - apply contains_char_remove_char.
  - done.
  - split.
    + intros Heq.
      assert (String.length (remove_char "Q" q) = String.length q) as Hlen.
      { pose proof (remove_char_length "q" (remove_char "Q" q)) as H1.
        pose proof (remove_char_length "Q" q) as H2. rewrite Heq in H1. lia. }
      assert (remove_char "Q" q = q) as HQ.
      { destruct (contains_char "Q" q) eqn:Hc; [|by apply remove_char_id].
        clear Heq. exfalso. revert Hlen Hc. clear.
        induction q as [|a s IH]; simpl; [done|].
        destruct (decide (a = "Q"%char)) as [->|Hne].
        - intros Hlen _. pose proof (remove_char_length "Q" s). lia.
        - rewrite bool_decide_eq_false_2 by done. simpl. intros [=] ?. eauto. }
      rewrite HQ in Heq. split; by apply remove_char_id.
    + intros [HQ Hq]. apply remove_char_id in HQ. rewrite HQ.
      by apply remove_char_id.
Qed.

(** For the question [Q1] the job's row is filed under [1], the drain's
    under [Q1]. *)
Example rows_of_Q1 :
  ia_question_num (job_attitude "iv001" "Q1" sample_emotion (sample_gaze 0 false)
                     {| strength_keyword := ""; weakness_keyword := "" |}) = "1"
  ∧ ia_question_num (batch_attitude "iv001" "Q1" sample_emotion (sample_gaze 0 false))
    = "Q1".
Proof. done. Qed.

(** ** The pending set of a scan *)

Lemma videos_to_analyze_filter available existing :
  videos_to_analyze available existing
  = filter (λ u, analysis_key u.1 u.2 ∉ existing) (listing_units available).
Proof.
  unfold videos_to_analyze, listing_units.
  induction available as [|[user qs] available IH]; [done|].
  cbn [mbind list_bind]. rewrite filter_app, <- IH. f_equal.
  clear IH. induction qs as [|q qs IH]; [done|].
  cbn [mbind list_bind]. rewrite filter_app, <- IH.
  rewrite filter_cons, filter_nil. simpl. by destruct (decide _).
Qed.

Lemma filter_sublist_impl {A} (P Q : A → Prop)
    `{!∀ x, Decision (P x)} `{!∀ x, Decision (Q x)} (l : list A) :
  (∀ x, P x → Q x) → filter P l `sublist_of` filter Q l.
Proof.
  intros HPQ. induction l as [|x l IH]; [done|].
  rewrite !filter_cons. destruct (decide (P x)) as [HP|HP].
  - rewrite decide_True by auto. by constructor.
  - destruct (decide (Q x)); [by constructor|done].
Qed.

(** X6.  The units a scan is to process are the units of the listing whose
    key no stored record contributes, in the order of the listing and as
    often as the listing has them; with no record at all they are the whole
    listing, and further records only take units away. *)
Theorem scan_pending_set_is_the_filtered_listing available existing existing' :
  existing ⊆ existing' →
  videos_to_analyze available existing
  = filter (λ u, analysis_key u.1 u.2 ∉ existing) (listing_units available)
  ∧ videos_to_analyze available ∅ = listing_units available
  ∧ videos_to_analyze available existing'
      `sublist_of` videos_to_analyze available existing.
Proof.
  intros Hsub. split_and!.
  - apply videos_to_analyze_filter.
  - rewrite videos_to_analyze_filter.
    induction (listing_units available) as [|u l IH]; [done|].
    rewrite filter_cons, decide_True by set_solver. by f_equal.
  - rewrite !videos_to_analyze_filter. apply filter_sublist_impl.
    intros u Hu Hin. apply Hu. by apply Hsub.
Qed.

Lemma scan_pending_set_is_the_filtered_listing_witness :
  let available := [("iv001", ["Q1"; "Q2"]); ("iv002", ["Q1"])] in
  let existing : gset string := {["iv001_Q2"]} in
  let existing' : gset string := {["iv001_Q2"; "iv002_Q1"]} in
  videos_to_analyze available existing
  = filter (λ u, analysis_key u.1 u.2 ∉ existing) (listing_units available)
  ∧ videos_to_analyze available ∅ = listing_units available
  ∧ videos_to_analyze available existing'
      `sublist_of` videos_to_analyze available existing.
Proof.
  apply (scan_pending_set_is_the_filtered_listing
           [("iv001", ["Q1"; "Q2"]); ("iv002", ["Q1"])]
           {["iv001_Q2"]} {["iv001_Q2"; "iv002_Q1"]}).
  apply union_subseteq_l.
Defined.

(** ** A scan that does not start *)

(** X7.  When the listing of the object store raises, or the job collection
    cannot be read, the scan ends without touching a unit: an [Exception]
    leaves one event and nothing else, a cancellation leaves the state as it
    was and ends the scan's task. *)
Theorem scan_aborts_when_it_cannot_list E w e :
  list_available_users_and_questions E "skala25a" = Raise e
  ∨ (∃ available msg,
       list_available_users_and_questions E "skala25a" = Return available
       ∧ find_session E = Some msg ∧ e = Exception msg) →
  auto_analyze_all_s3_videos E w =
  if isinstance_Exception e
  then (Return (), set_trace (λ t, t ++ [ScanError (str e)]) w)
  else (Raise e, w).
Proof.
  unfold auto_analyze_all_s3_videos, try_except, call, call_db.
  intros [Hl|(available & msg & Hl & Hs & ->)]; rewrite !bind_run, Hl; simpl.
  - done.
  - by rewrite Hs.
Qed.

Lemma scan_aborts_when_it_cannot_list_witness :
  auto_analyze_all_s3_videos listing_down_env sample_world =
  (Return (), set_trace (λ t, t ++ [ScanError "bucket unreachable"]) sample_world).
Proof.
  apply (scan_aborts_when_it_cannot_list listing_down_env sample_world
           (Exception "bucket unreachable")).
  left. reflexivity.
Defined.

(** ** Coroutines that are not cancelled *)

Lemma uncancelled_ret {A} (a : A) : uncancelled (mret a : M A).
Proof. intros w. cbn. discriminate. Qed.

Lemma uncancelled_call {A} (r : outcome A) :
  r ≠ Raise CancelledError → uncancelled (call r).
Proof. by intros H w. Qed.

Lemma uncancelled_call_db r : uncancelled (call_db r).
Proof. intros w. unfold call_db. simpl. by destruct r. Qed.

Lemma uncancelled_modify f : uncancelled (modify f).
Proof. intros w. cbn. discriminate. Qed.

Lemma uncancelled_sleep E n : no_cancellation E → uncancelled (sleep E n).
Proof. intros Hnc w. unfold sleep. rewrite (nc_sleep E Hnc). cbn. discriminate. Qed.

Lemma uncancelled_get_now : uncancelled get_now.
Proof. intros w. cbn. discriminate. Qed.

Lemma uncancelled_get_analysis_results : uncancelled get_analysis_results.
Proof. intros w. cbn. discriminate. Qed.

Lemma uncancelled_get_pending : uncancelled get_pending.
Proof. intros w. cbn. discriminate. Qed.

Lemma uncancelled_bind {A B} (m : M A) (f : A → M B) :
  uncancelled m → (∀ a, uncancelled (f a)) → uncancelled (m ≫= f).
Proof.
  intros Hm Hf w. rewrite bind_run. specialize (Hm w).
  destruct (m w) as [[a|e] w1]; simpl in *; [apply Hf|].
  intros [= ->]. by apply Hm.
Qed.

Lemma uncancelled_try_except {A} (body : M A) handler :
  uncancelled body → (∀ e, uncancelled (handler e)) →
  uncancelled (try_except body handler).
Proof.
  intros Hb Hh w. unfold try_except. specialize (Hb w).
  destruct (body w) as [[a|e] w1]; simpl in *; [done|].
  destruct (isinstance_Exception e) eqn:He; [apply Hh|done].
Qed.

Lemma uncancelled_try_finally {A} (body : M A) cleanup :
  uncancelled body → uncancelled cleanup → uncancelled (try_finally body cleanup).
Proof.
  intros Hb Hc w. unfold try_finally. specialize (Hb w).
  destruct (body w) as [r w1]; simpl in *. specialize (Hc w1).
  destruct (cleanup w1) as [[?|e] w2]; simpl in *; [done|].
  intros [= ->]. by apply Hc.
Qed.

Lemma returns_uncancelled (m : M unit) :
  (∀ w, (m w).1 = Return ()) → uncancelled m.
Proof. intros H w. by rewrite H. Qed.

(** A [try] block that is not cancelled, under a handler that returns. *)
Lemma try_except_returns (body : M unit) handler :
  uncancelled body → (∀ e w, (handler e w).1 = Return ()) →
  ∀ w, (try_except body handler w).1 = Return ().
Proof.
  intros Hb Hh w. unfold try_except. specialize (Hb w).
  destruct (body w) as [[[]|e] w1]; simpl in *; [done|].
  destruct e; simpl; first [apply Hh|done].
Qed.

Ltac uncancelled_auto leaf :=
  repeat first
    [ leaf
    | apply uncancelled_bind; [|intros ?]
    | apply uncancelled_try_except; [|intros ?]
    | apply uncancelled_try_finally
    | apply uncancelled_ret
    | apply uncancelled_call_db
    | apply uncancelled_get_now
    | apply uncancelled_get_analysis_results
    | apply uncancelled_get_pending
    | apply uncancelled_modify
    | case_match ].

Section returns.
Context (E : env) (Hnc : no_cancellation E).

Lemma gpt_batch_item_uncancelled i n item : uncancelled (gpt_batch_item E i n item).
Proof using Hnc.
  unfold gpt_batch_item, save_attitude.
  uncancelled_auto ltac:(first
    [ apply uncancelled_call; first [eapply nc_gpt|eapply nc_attitude]; exact Hnc
    | apply uncancelled_sleep; exact Hnc ]).
Qed.

Lemma gpt_batch_loop_uncancelled n i items : uncancelled (gpt_batch_loop E n i items).
Proof using Hnc.
  revert i. induction items as [|item items IH]; intros i; simpl.
  - apply uncancelled_ret.
  - apply uncancelled_bind; [apply gpt_batch_item_uncancelled|by intros ?].
Qed.

Lemma process_gpt_batch_returns w : (process_gpt_batch E w).1 = Return ().
Proof using Hnc.
  unfold process_gpt_batch. destruct (gpt_batch_enter w) as [[b|] w1]; [|done].
  unfold try_finally, gpt_batch_exit, modify.
  pose proof (try_except_returns
    (gpt_batch_loop E (length (default [] (heap w1 !! b))) 1
       (default [] (heap w1 !! b)))
    (λ e, print (BatchError (str e)))
    (gpt_batch_loop_uncancelled _ _ _) (λ _ _, eq_refl) w1) as Hr.
  by destruct (try_except _ _ w1) as [r w2].
Qed.

Lemma check_and_trigger_gpt_batch_returns w :
  (check_and_trigger_gpt_batch E w).1 = Return ().
Proof using Hnc.
  unfold check_and_trigger_gpt_batch. apply try_except_returns; [|done].
  uncancelled_auto ltac:(first
    [ apply uncancelled_call; eapply nc_list; exact Hnc
    | apply returns_uncancelled, process_gpt_batch_returns ]).
Qed.

Lemma auto_analyze_all_s3_videos_returns w :
  (auto_analyze_all_s3_videos E w).1 = Return ().
Proof using Hnc.
  unfold auto_analyze_all_s3_videos. apply try_except_returns; [|done].
  uncancelled_auto ltac:(first
    [ apply uncancelled_call; eapply nc_list; exact Hnc
    | apply returns_uncancelled; intros ?; by apply scan_loop_returns
    | apply returns_uncancelled, check_and_trigger_gpt_batch_returns ]).
Qed.

End returns.

(** X8.  As long as no await is cancelled, neither a call of a
    collaborator nor one of the sleeps of the scan and the drain
    ([asyncio.sleep], lines 1270 and 1416), the scan, the trigger check and
    the drain end normally in every state: whatever a collaborator raises is
    taken by a handler on the way. *)
Theorem background_coroutines_end_normally E w :
  no_cancellation E →
  (auto_analyze_all_s3_videos E w).1 = Return ()
  ∧ (check_and_trigger_gpt_batch E w).1 = Return ()
  ∧ (process_gpt_batch E w).1 = Return ().
Proof.
  intros Hnc. split_and!.
  - by apply auto_analyze_all_s3_videos_returns.
  - by apply check_and_trigger_gpt_batch_returns.
  - by apply process_gpt_batch_returns.
Qed.

Lemma background_coroutines_end_normally_witness :
  (auto_analyze_all_s3_videos sample_env sample_world).1 = Return ()
  ∧ (check_and_trigger_gpt_batch sample_env sample_world).1 = Return ()
  ∧ (process_gpt_batch sample_env sample_world).1 = Return ().
Proof.
  apply (background_coroutines_end_normally sample_env sample_world).
  exact sample_env_no_cancellation.
Defined.

(** A cancelled sleep is not taken by any handler: the scan is left by the
    cancellation after its first unit, the drain after its first entry, and
    the entry the drain had not reached is in the queue no more. *)
Example cancelled_sleep_ends_scan_and_drain :
  let scan := auto_analyze_all_s3_videos sleep_cancelled_env sample_world in
  let drain := process_gpt_batch sleep_cancelled_env sample_all_analysed in
  scan.1 = Raise CancelledError
  ∧ status <$> analysis_results scan.2 = ["completed"]
  ∧ drain.1 = Raise CancelledError
  ∧ qe_analysis_id <$> pending sample_all_analysed = ["job-Q1"; "job-Q3"]
  ∧ qe_analysis_id <$> batch_items (trace drain.2) = ["job-Q1"]
  ∧ pending drain.2 = []
  ∧ _batch_processing_active drain.2 = false.
Proof. vm_compute. by split_and!. Qed.

(** ** The drain run in one go *)

#[local] Instance same_analysis_results_preorder : PreOrder same_analysis_results.
Proof.
  split; [by intros w|intros w1 w2 w3]. unfold same_analysis_results. congruence.
Qed.

Lemma gpt_batch_item_same_analysis_results E i n item :
  stable same_analysis_results (gpt_batch_item E i n item).
Proof.
  unfold gpt_batch_item, save_attitude.
  stable_auto ltac:(first
    [ stable_rule stable_sleep; by intros ?
    | apply stable_modify; by intros ? ]).
Qed.


(** The loop starts the items in their order and stops only where an item
    is left by a cancellation. *)
Lemma gpt_batch_loop_run E n items : ∀ i w,
  let res := gpt_batch_loop E n i items w in
  same_queue w res.2
  ∧ analysis_results res.2 = analysis_results w
  ∧ (∀ e, res.1 = Raise e → isinstance_Exception e = false)
  ∧ ∃ k, batch_items (trace res.2) = batch_items (trace w) ++ take k items
         ∧ (res.1 = Return () → take k items = items).
Proof.
  induction items as [|item items IH]; intros i w; simpl.
  - split_and!; [done..|]. exists 0%nat. by rewrite app_nil_r.
  - rewrite bind_run.
    pose proof (gpt_batch_item_same_queue E i n item w) as Hq.
    pose proof (gpt_batch_item_same_analysis_results E i n item w) as Ha.
    pose proof (gpt_batch_item_items E i n item w) as Hi.
    destruct (gpt_batch_item E i n item w) as [[[]|e] w1] eqn:Hitem; cbn [fst snd] in *.
    + destruct (IH (S i) w1) as (Hq' & Ha' & He' & k & Hk & Hret).
      split_and!.
      * by etrans.
      * unfold same_analysis_results in Ha. congruence.
      * done.
      * exists (S k). split.
        -- rewrite Hk, Hi, <- app_assoc. done.
        -- intros Hr. simpl. f_equal. by apply Hret.
    + split_and!; [done|done| |].
      * intros e' [= <-]. by eapply gpt_batch_item_Raise.
      * exists 1%nat. split; [|done]. rewrite Hi. simpl. by rewrite ?take_0.
Qed.



(** With a commentary call that is cancelled, the queued entry is gone and
    the call is left by the cancellation. *)
Example cancelled_drain_loses_its_entry :
  let res := process_gpt_batch cancelled_env sample_completed_world in
  pending sample_completed_world = [sample_entry "job-1" "Q1" 100]
  ∧ res.1 = Raise CancelledError
  ∧ pending res.2 = []
  ∧ batch_items (trace res.2) = [sample_entry "job-1" "Q1" 100].
Proof. by split_and!. Qed.

(** ** Entries the drain skips *)

(** X10.  An entry whose record is missing, or lacks a stage result (as
    the record of a failed job does), is skipped: the drain makes no
    commentary call for it and saves no row, and goes on. *)
Theorem drain_skips_entry_without_results E i n item w :
  find_one_session E (qe_analysis_id item) = None →
  match find_one (qe_analysis_id item) (analysis_results w) with
  | None => True
  | Some d =>
    match emotion_analysis d, eye_tracking_analysis d with
    | Some emotion, Some gaze => emotion_truthy emotion && gaze_truthy gaze = false
    | _, _ => True
    end
  end →
  gpt_batch_item E i n item w =
  (Return (),
   set_trace (λ t, t ++ [BatchItemStart i n item;
                         BatchItemSkipped (qe_analysis_id item)]) w).
Proof.
  intros Hs Hd. unfold gpt_batch_item, try_except, print, modify, call_db,
    get_analysis_results.
  rewrite !bind_run, Hs. simpl.
  destruct w as [c h p a t tr]. unfold set_trace. simpl in *.
  destruct (find_one (qe_analysis_id item) c) as [d|]; simpl.
  - destruct (emotion_analysis d) as [emotion|], (eye_tracking_analysis d) as [gaze|];
      simpl; rewrite <- ?app_assoc; try done.
    rewrite Hd. simpl. by rewrite <- app_assoc.
  - by rewrite <- app_assoc.
Qed.

Lemma drain_skips_entry_without_results_witness :
  gpt_batch_item sample_env 1 1 (sample_entry "job-9" "Q9" 100) sample_world =
  (Return (),
   set_trace (λ t, t ++ [BatchItemStart 1 1 (sample_entry "job-9" "Q9" 100);
                         BatchItemSkipped "job-9"]) sample_world).
Proof.
  apply (drain_skips_entry_without_results sample_env 1 1
           (sample_entry "job-9" "Q9" 100) sample_world).
  - reflexivity.
  - exact I.
Defined.

(** ** The records the module stores *)

Lemma elem_of_replace_one id d c d' : d' ∈ replace_one id d c → d' ∈ c ∨ d' = d.
Proof.
  induction c as [|x c IH]; simpl.
  - intros ->%list_elem_of_singleton. by right.
  - destruct (decide (analysis_id x = id)).
    + intros [->|?]%elem_of_cons; [by right|]. left. by right.
    + intros [->|[?|?]%IH]%elem_of_cons; [left; by left|left; by right|by right].
Qed.

#[local] Instance records_from_preorder P : PreOrder (records_from P).
Proof.
  split; [intros w d; by left|].
  intros w1 w2 w3 H12 H23 d [Hd|Hd]%H23; [by apply H12|by right].
Qed.

Lemma records_from_mono (P Q : doc → Prop) w w' :
  (∀ d, P d → Q d) → records_from P w w' → records_from Q w w'.
Proof. intros HPQ H d [?|?]%H; [by left|right; by apply HPQ]. Qed.

Lemma records_from_same P w w' :
  analysis_results w' = analysis_results w → records_from P w w'.
Proof. intros Heq d. rewrite Heq. by left. Qed.

Lemma records_from_Forall (P Q : doc → Prop) w w' :
  records_from P w w' → (∀ d, P d → Q d) →
  Forall Q (analysis_results w) → Forall Q (analysis_results w').
Proof.
  intros H HPQ Hw. apply Forall_forall. intros d [Hd|Hd]%H; [|by apply HPQ].
  by eapply Forall_forall in Hw.
Qed.

Lemma update_analysis_status_records_from E P id st sg p :
  stable (records_from P) (update_analysis_status E id st sg p).
Proof. intros w. rewrite update_analysis_status_run. by apply records_from_same. Qed.

Lemma upsert_records_from E (P : doc → Prop) d :
  P d → stable (records_from P) (upsert E d).
Proof.
  intros Hd w. rewrite upsert_run. destruct (replace_one_session E d); [reflexivity|].
  intros d' [?| ->]%elem_of_replace_one; [by left|by right].
Qed.

Lemma process_records_from E id bucket key user q session :
  stable (records_from (job_record user q))
    (process_s3_user_video_analysis E id bucket key user q session).
Proof.
  unfold process_s3_user_video_analysis, job_body, job_handler, job_cleanup,
    save_attitude, read_concentration_score, add_to_gpt_batch_queue.
  stable_auto ltac:(first
    [ apply update_analysis_status_records_from
    | apply upsert_records_from; split_and!; [done|done|by left]
    | apply upsert_records_from; split_and!; [done|done|by right]
    | apply stable_modify; intros ?; by apply records_from_same ]).
Qed.

Lemma scan_unit_records_from E bucket user q :
  stable (records_from (job_record user q)) (scan_unit E bucket (user, q)).
Proof.
  unfold scan_unit.
  stable_auto ltac:(first
    [ apply process_records_from
    | stable_rule stable_sleep; intros ?; by apply records_from_same
    | apply stable_modify; intros ?; by apply records_from_same ]).
Qed.

Lemma scan_loop_records_from E bucket units :
  stable (records_from (λ d, ∃ u, u ∈ units ∧ job_record u.1 u.2 d))
    (scan_loop E bucket units).
Proof.
  induction units as [|[user q] units IH]; simpl.
  - stable_leaf.
  - stable_rule stable_bind.
    + intros w. eapply records_from_mono; [|apply scan_unit_records_from].
      intros d Hd. exists (user, q). split; [left|done].
    + intros _ w. eapply records_from_mono; [|apply IH].
      intros d (u & Hu & Hd). exists u. split; [by right|done].
Qed.

Lemma process_gpt_batch_same_analysis_results E :
  stable same_analysis_results (process_gpt_batch E).
Proof.
  intros w. unfold process_gpt_batch, same_analysis_results.
  destruct (gpt_batch_enter w) as [[b|] w1] eqn:Henter.
  - apply gpt_batch_enter_Some in Henter as (_ & _ & _ & _ & _ & _ & _ & _ & Ha).
    rewrite <- Ha. cbv zeta.
    generalize (default [] (heap w1 !! b)). intros items.
    generalize (length items), 1%nat. intros n i.
    cut (stable same_analysis_results
           (try_finally
              (try_except (gpt_batch_loop E n i items)
                          (λ e, print (BatchError (str e))))
              gpt_batch_exit)); [intros Hst; apply Hst|].
    stable_rule stable_try_finally; [|apply stable_modify; by intros ?].
    stable_rule stable_try_except; [|intros ?; apply stable_modify; by intros ?].
    revert i. induction items as [|item items IH]; intros i; simpl.
    + stable_leaf.
    + stable_rule stable_bind; [apply gpt_batch_item_same_analysis_results|done].
  - by apply gpt_batch_enter_None in Henter as [-> _].
Qed.

Lemma check_and_trigger_gpt_batch_same_analysis_results E :
  stable same_analysis_results (check_and_trigger_gpt_batch E).
Proof.
  unfold check_and_trigger_gpt_batch.
  stable_auto ltac:(first
    [ apply process_gpt_batch_same_analysis_results
    | apply stable_modify; by intros ? ]).
Qed.

Lemma auto_analyze_all_s3_videos_records_from E w available :
  list_available_users_and_questions E "skala25a" = Return available →
  records_from
    (λ d, ∃ u, u ∈ videos_to_analyze available (existing_analyses (analysis_results w))
               ∧ job_record u.1 u.2 d)
    w (auto_analyze_all_s3_videos E w).2.
Proof.
  intros Hl. unfold auto_analyze_all_s3_videos, try_except, call, call_db,
    get_analysis_results.
  rewrite !bind_run, Hl. simpl.
  destruct (find_session E); simpl; [by apply records_from_same|].
  rewrite !bind_run. simpl. case_bool_decide; simpl; [reflexivity|].
  rewrite ?bind_run.
  pose proof (scan_loop_records_from E "skala25a"
    (videos_to_analyze available (existing_analyses (analysis_results w))) w) as Hs.
  destruct (scan_loop E "skala25a" _ w) as [[[]|e] w1]; cbn [fst snd] in *.
  - pose proof (check_and_trigger_gpt_batch_same_analysis_results E w1) as Hc.
    destruct (check_and_trigger_gpt_batch E w1) as [[[]|e] w2]; cbn [fst snd] in *.
    + intros d. rewrite Hc. apply Hs.
    + destruct (isinstance_Exception e); intros d; simpl; rewrite Hc; apply Hs.
  - by destruct (isinstance_Exception e).
Qed.

Lemma auto_analyze_all_s3_videos_terminal E w :
  Forall terminal_status (analysis_results w) →
  Forall terminal_status (analysis_results (auto_analyze_all_s3_videos E w).2).
Proof.
  intros Hw.
  destruct (list_available_users_and_questions E "skala25a") as [available|e] eqn:Hl.
  - eapply records_from_Forall;
      [by apply auto_analyze_all_s3_videos_records_from| |done].
    by intros d (_ & _ & _ & _ & ?).
  - unfold auto_analyze_all_s3_videos, try_except, call.
    rewrite !bind_run, Hl. simpl. by destruct (isinstance_Exception e).
Qed.

(** X11.  Every record in the job collection after a scan was there before
    the scan or is the record of a unit the scan had to process, with that
    unit's user and question and the status [completed] or [error].  A job,
    a scan and a drain store no record with any other status: from a
    collection of such records they lead to a collection of such records. *)
Theorem module_stores_completed_or_error_records
    E w available id bucket key user q session :
  list_available_users_and_questions E "skala25a" = Return available →
  (∀ d, d ∈ analysis_results (auto_analyze_all_s3_videos E w).2 →
     d ∈ analysis_results w
     ∨ ∃ u, u ∈ videos_to_analyze available (existing_analyses (analysis_results w))
            ∧ user_id d = Some u.1 ∧ question_num d = Some u.2
            ∧ (status d = "completed" ∨ status d = "error"))
  ∧ (Forall terminal_status (analysis_results w) →
     Forall terminal_status (analysis_results (auto_analyze_all_s3_videos E w).2)
     ∧ Forall terminal_status
         (analysis_results
            (process_s3_user_video_analysis E id bucket key user q session w).2)
     ∧ Forall terminal_status (analysis_results (process_gpt_batch E w).2)).
Proof.
  intros Hl. split.
  - intros d Hd. by apply (auto_analyze_all_s3_videos_records_from E w available Hl).
  - intros Hw. split_and!.
    + by apply auto_analyze_all_s3_videos_terminal.
    + eapply records_from_Forall; [apply process_records_from| |done].
      by intros d (_ & _ & ?).
    + by rewrite (process_gpt_batch_same_analysis_results E w).
Qed.

Lemma module_stores_completed_or_error_records_witness :
  let E := sample_env in
  let w := sample_world in
  let available := [("iv001", ["Q1"; "Q2"; "Q3"])] in
  (∀ d, d ∈ analysis_results (auto_analyze_all_s3_videos E w).2 →
     d ∈ analysis_results w
     ∨ ∃ u, u ∈ videos_to_analyze available (existing_analyses (analysis_results w))
            ∧ user_id d = Some u.1 ∧ question_num d = Some u.2
            ∧ (status d = "completed" ∨ status d = "error"))
  ∧ (Forall terminal_status (analysis_results w) →
     Forall terminal_status (analysis_results (auto_analyze_all_s3_videos E w).2)
     ∧ Forall terminal_status
         (analysis_results
            (process_s3_user_video_analysis E "job-1" "skala25a" "iv001/Q1.mp4"
               "iv001" "Q1" (Some "manual") w).2)
     ∧ Forall terminal_status (analysis_results (process_gpt_batch E w).2)).
Proof.
  apply (module_stores_completed_or_error_records sample_env sample_world
           [("iv001", ["Q1"; "Q2"; "Q3"])] "job-1" "skala25a" "iv001/Q1.mp4"
           "iv001" "Q1" (Some "manual")).
  reflexivity.
Defined.

(** ** Cancelling *)

Lemma update_one_cancel_None id c :
  Forall (λ d, analysis_id d = id → status d ≠ "processing") c →
  update_one_cancel id c = None.
Proof.
  induction 1 as [|d c Hd _ IH]; simpl; [done|].
  rewrite decide_False by (intros [??]; by apply Hd). by rewrite IH.
Qed.

Lemma cancel_analysis_nothing_processing update_one_session id w :
  Forall terminal_status (analysis_results w) →
  (cancel_analysis update_one_session id w).2 = w
  ∧ response_status (cancel_analysis update_one_session id w).1
    = match update_one_session id with None => 404%Z | Some _ => 500%Z end.
Proof.
  intros Hw. unfold cancel_analysis, try_except_reraising_http, call_db,
    get_analysis_results.
  rewrite !bind_run. destruct (update_one_session id); simpl; [done|].
  rewrite update_one_cancel_None; [done|].
  eapply Forall_impl; [done|]. by intros d [->| ->] _.
Qed.

(** X12.  The cancel operation only matches a record whose status is
    [processing], and the module stores none: on a job collection that a
    scan or a job has written, every cancel request is answered with a 404
    (a 500 when the database cannot be reached) and changes nothing. *)
Theorem cancel_finds_nothing_to_cancel
    E w update_one_session id' id bucket key user q session :
  Forall terminal_status (analysis_results w) →
  let after_scan := (auto_analyze_all_s3_videos E w).2 in
  let after_job :=
    (process_s3_user_video_analysis E id bucket key user q session w).2 in
  let answer := match update_one_session id' with
                | None => 404%Z
                | Some _ => 500%Z
                end in
  (cancel_analysis update_one_session id' after_scan).2 = after_scan
  ∧ response_status (cancel_analysis update_one_session id' after_scan).1 = answer
  ∧ (cancel_analysis update_one_session id' after_job).2 = after_job
  ∧ response_status (cancel_analysis update_one_session id' after_job).1 = answer.
Proof.
  intros Hw. cbv zeta.
  rewrite (and_assoc (_ = _) (response_status _ = _)). split.
  - apply cancel_analysis_nothing_processing.
    by apply auto_analyze_all_s3_videos_terminal.
  - apply cancel_analysis_nothing_processing.
    eapply records_from_Forall; [apply process_records_from| |done].
    by intros d (_ & _ & ?).
Qed.

Lemma cancel_finds_nothing_to_cancel_witness :
  let after_scan := (auto_analyze_all_s3_videos sample_env sample_world).2 in
  let after_job :=
    (process_s3_user_video_analysis sample_env "job-1" "skala25a" "iv001/Q1.mp4"
       "iv001" "Q1" (Some "manual") sample_world).2 in
  (cancel_analysis (λ _, None) "job-1" after_scan).2 = after_scan
  ∧ response_status (cancel_analysis (λ _, None) "job-1" after_scan).1 = 404%Z
  ∧ (cancel_analysis (λ _, None) "job-1" after_job).2 = after_job
  ∧ response_status (cancel_analysis (λ _, None) "job-1" after_job).1 = 404%Z.
Proof.
  apply (cancel_finds_nothing_to_cancel sample_env sample_world (λ _, None)
           "job-1" "job-1" "skala25a" "iv001/Q1.mp4" "iv001" "Q1" (Some "manual")).
  apply Forall_nil_2.
Defined.

(** A record that something else stored with the status [processing] is
    cancelled once: the second request finds nothing. *)
Example cancel_twice :
  let w := startup [stored_record "iv001" "Q1" "processing"] 100 in
  let id := "auto_s3_analysis_iv001_Q1_0" in
  let first := cancel_analysis (λ _, None) id w in
  response_status first.1 = 200%Z
  ∧ status <$> find_one id (analysis_results first.2) = Some "cancelled"
  ∧ response_status (cancel_analysis (λ _, None) id first.2).1 = 404%Z.
Proof. by split_and!. Qed.

(** ** From the start request to the stored record *)

(** A job that is not cancelled, on a job collection that accepts its
    writes, ends with a record stored under its analysis id. *)
Lemma process_stores_record E id bucket key user q session w :
  no_cancellation E →
  (∀ d, replace_one_session E d = None) →
  ∃ d, find_one id
         (analysis_results
            (process_s3_user_video_analysis E id bucket key user q session w).2)
       = Some d
       ∧ analysis_id d = id ∧ session_id d = session ∧ job_record user q d.
Proof.
  intros Hnc Hacc.
  destruct (job_body E id bucket key user q session w) as [[[]|e] w1] eqn:Hb.
  - rewrite (process_run_Return _ _ _ _ _ _ _ _ _ Hb).
    apply job_body_Return in Hb
        as (path & emotion & gaze & gpt & saved & _ & _ & Hres & _).
    eexists. simpl. rewrite Hres. split; [by apply find_one_replace_one|].
    split_and!; [done|done|]. split_and!; [done|done|by left].
  - rewrite (process_run_Raise _ _ _ _ _ _ _ _ _ _ Hb (job_body_Raise _ _ _ _ _ _ _ _ _ _ Hnc Hb)),
      job_handler_run.
    simpl. rewrite Hacc. simpl.
    eexists. split; [by apply find_one_replace_one|].
    split_and!; [done|done|]. split_and!; [done|done|by right].
Qed.

(** X13.  When the unit's file is found, the start request answers with a
    new analysis id and the status [processing] and hands one job to the
    background tasks, storing nothing itself.  Once that job has run (not
    cancelled, its writes accepted), the query for the id of the response
    returns a record of that id, of the request's user and question, whose
    status is [completed] or [error]: [processing] is a status of the
    response only, no stored record has it. *)
Theorem started_job_ends_in_a_stored_record E request w key :
  no_cancellation E →
  (∀ d, replace_one_session E d = None) →
  (∀ id, find_one_session E id = None) →
  find_video_file E (default "skala25a" (S3_BUCKET_NAME E))
    (req_user_id request) (req_question_num request) = Return (Some key) →
  str_truthy key = true →
  ∃ response task,
    analyze_s3_user_video E request w = (Return (response, [task]), w)
    ∧ resp_status response = "processing"
    ∧ let w' := (run_background_task E task w).2 in
      ∃ d, get_analysis_result E (resp_analysis_id response) w' = (Return d, w')
           ∧ analysis_id d = resp_analysis_id response
           ∧ user_id d = Some (req_user_id request)
           ∧ question_num d = Some (req_question_num request)
           ∧ (status d = "completed" ∨ status d = "error").
Proof.
  intros Hnc Hacc Hfind Hf Hk. eexists _, _. split_and!.
  - unfold analyze_s3_user_video, try_except, get_now, call.
    rewrite !bind_run, Hf. simpl. rewrite Hk. simpl. reflexivity.
  - done.
  - cbv zeta. unfold run_background_task. cbn [bt_analysis_id bt_bucket bt_key
      bt_user_id bt_question_num bt_session_id resp_analysis_id].
    match goal with
    | |- context [process_s3_user_video_analysis E ?id ?b ?k ?u ?q ?s w] =>
      destruct (process_stores_record E id b k u q s w Hnc Hacc)
        as (d & Hd & Hid & _ & Hu & Hq & Hst)
    end.
    exists d. split_and!; try done.
    unfold get_analysis_result, try_except_reraising_http, call_db,
      get_analysis_results.
    rewrite !bind_run, Hfind. simpl. by rewrite Hd.
Qed.

Lemma started_job_ends_in_a_stored_record_witness :
  ∃ response task,
    analyze_s3_user_video sample_env sample_request sample_world
      = (Return (response, [task]), sample_world)
    ∧ resp_status response = "processing"
    ∧ let w' := (run_background_task sample_env task sample_world).2 in
      ∃ d, get_analysis_result sample_env (resp_analysis_id response) w'
             = (Return d, w')
           ∧ analysis_id d = resp_analysis_id response
           ∧ user_id d = Some (req_user_id sample_request)
           ∧ question_num d = Some (req_question_num sample_request)
           ∧ (status d = "completed" ∨ status d = "error").
Proof.
  apply (started_job_ends_in_a_stored_record sample_env sample_request sample_world
           (req_user_id sample_request +:+ "/" +:+ req_question_num sample_request
            +:+ ".mp4")).
  - exact sample_env_no_cancellation.
  - reflexivity.
  - reflexivity.
  - reflexivity.
  - reflexivity.
Defined.

(** ** A scan with nothing to do *)

Lemma process_gpt_batch_Raise E w e :
  (process_gpt_batch E w).1 = Raise e → isinstance_Exception e = false.
Proof.
  unfold process_gpt_batch.
  destruct (gpt_batch_enter w) as [[b|] w1]; [|done]. cbv zeta.
  destruct (gpt_batch_loop_run E (length (default [] (heap w1 !! b)))
              (default [] (heap w1 !! b)) 1 w1) as (_ & _ & He & _).
  unfold try_finally, try_except, gpt_batch_exit, modify.
  destruct (gpt_batch_loop E _ 1 _ w1) as [[[]|e'] w2]; cbn [fst snd] in *; [done|].
  rewrite (He e' eq_refl). cbn [fst snd]. intros [= <-]. by apply He.
Qed.

(** X14.  A scan that finds every listed unit recorded returns at once and
    leaves the state as it is: entries waiting in the queue stay there, the
    drain is not tried.  The trigger check, in the same state, is the drain
    itself. *)
Theorem scan_with_nothing_to_do_does_not_drain E w available :
  list_available_users_and_questions E "skala25a" = Return available →
  find_session E = None →
  videos_to_analyze available (existing_analyses (analysis_results w)) = [] →
  auto_analyze_all_s3_videos E w = (Return (), w)
  ∧ check_and_trigger_gpt_batch E w = process_gpt_batch E w.
Proof.
  intros Hl Hs Htodo. split.
  - unfold auto_analyze_all_s3_videos, try_except, call, call_db, get_analysis_results.
    rewrite !bind_run, Hl. simpl. rewrite Hs. simpl.
    rewrite ?bind_run. simpl. by rewrite Htodo.
  - unfold check_and_trigger_gpt_batch, try_except, call, call_db,
      get_analysis_results, get_pending.
    rewrite !bind_run, Hl. simpl. rewrite Hs. simpl.
    rewrite ?bind_run. simpl. rewrite ?bind_run. simpl. rewrite Htodo. simpl.
    case_bool_decide as Hq; simpl.
    + pose proof (process_gpt_batch_Raise E w) as He.
      destruct (process_gpt_batch E w) as [[[]|e] w1]; [done|].
      by rewrite (He e eq_refl).
    + assert (pending w = []) as Hp by (apply length_zero_iff_nil; lia).
      unfold process_gpt_batch, gpt_batch_enter. rewrite Hp.
      by rewrite orb_true_r.
Qed.

Lemma scan_with_nothing_to_do_does_not_drain_witness :
  auto_analyze_all_s3_videos sample_env sample_all_analysed
  = (Return (), sample_all_analysed)
  ∧ check_and_trigger_gpt_batch sample_env sample_all_analysed
    = process_gpt_batch sample_env sample_all_analysed.
Proof.
  apply (scan_with_nothing_to_do_does_not_drain sample_env sample_all_analysed
           [("iv001", ["Q1"; "Q2"; "Q3"])]).
  - reflexivity.
  - reflexivity.
  - vm_compute. reflexivity.
Defined.

(** In that state two entries wait; the scan leaves them, the trigger
    check starts both. *)
Example waiting_entries_after_a_scan :
  let w := sample_all_analysed in
  qe_analysis_id <$> pending w = ["job-Q1"; "job-Q3"]
  ∧ pending (auto_analyze_all_s3_videos sample_env w).2 = pending w
  ∧ pending (check_and_trigger_gpt_batch sample_env w).2 = []
  ∧ batch_items (trace (check_and_trigger_gpt_batch sample_env w).2)
    = batch_items (trace w) ++ pending w.
Proof. vm_compute. by split_and!. Qed.

(** ** A listed unit without a file *)

Lemma scan_unit_file_missing E bucket user q w :
  file_missing (find_video_file E bucket user q) →
  ∃ ev, scan_unit E bucket (user, q) w = (Return (), set_trace (λ t, t ++ [ev]) w)
        ∧ batch_items [ev] = [].
Proof.
  unfold file_missing, scan_unit, try_except, get_now, call. rewrite !bind_run.
  destruct (find_video_file E bucket user q) as [[key|]|e]; simpl.
  - intros ->. by eexists.
  - intros _. by eexists.
  - intros ->. by eexists.
Qed.

Lemma update_analysis_status_same_batch_items E id st sg p :
  stable same_batch_items (update_analysis_status E id st sg p).
Proof.
  intros w. rewrite update_analysis_status_run. unfold same_batch_items. simpl.
  rewrite batch_items_app. apply app_nil_r.
Qed.

Lemma upsert_same_batch_items E d : stable same_batch_items (upsert E d).
Proof.
  intros w. rewrite upsert_run. destruct (replace_one_session E d); [done|].
  unfold same_batch_items. simpl. rewrite batch_items_app. apply app_nil_r.
Qed.

Lemma process_same_batch_items E id bucket key user q session :
  stable same_batch_items
    (process_s3_user_video_analysis E id bucket key user q session).
Proof.
  assert (∀ ev, batch_items [ev] = [] → stable same_batch_items (print ev)) as Hprint.
  { intros ev Hev w'. unfold same_batch_items. simpl.
    rewrite batch_items_app, Hev. apply app_nil_r. }
  unfold process_s3_user_video_analysis, job_body, job_handler, job_cleanup,
    read_concentration_score, add_to_gpt_batch_queue.
  stable_auto ltac:(first
    [ apply update_analysis_status_same_batch_items
    | apply upsert_same_batch_items
    | apply save_attitude_same_batch_items
    | apply Hprint; reflexivity
    | apply stable_modify; by intros ? ]).
Qed.

Lemma scan_loop_same_batch_items E bucket units :
  stable same_batch_items (scan_loop E bucket units).
Proof.
  assert (∀ ev, batch_items [ev] = [] → stable same_batch_items (print ev)) as Hprint.
  { intros ev Hev w'. unfold same_batch_items. simpl.
    rewrite batch_items_app, Hev. apply app_nil_r. }
  induction units as [|[user q] units IH]; simpl.
  - stable_leaf.
  - stable_rule stable_bind; [|done]. unfold scan_unit.
    stable_auto ltac:(first
      [ apply process_same_batch_items
      | apply Hprint; reflexivity
      | stable_rule stable_sleep; by intros ?
      | apply stable_modify; by intros ? ]).
Qed.

Lemma records_from_keeps_absent user q k w w' :
  records_from (job_record user q) w w' →
  analysis_key user q ≠ k →
  k ∉ existing_analyses (analysis_results w) →
  k ∉ existing_analyses (analysis_results w').
Proof.
  intros Hr Hne Hk. rewrite elem_of_existing_analyses. intros (d & Hd & Hkey).
  apply Hr in Hd as [Hd|(Hu & Hq & _)].
  - apply Hk, elem_of_existing_analyses. eauto.
  - apply doc_key_Some in Hkey as (u' & q' & Hu' & Hq' & ->). congruence.
Qed.

Lemma scan_loop_keeps_absent E bucket k units : ∀ w,
  (∀ u, u ∈ units → analysis_key u.1 u.2 = k →
        file_missing (find_video_file E bucket u.1 u.2)) →
  k ∉ existing_analyses (analysis_results w) →
  k ∉ existing_analyses (analysis_results (scan_loop E bucket units w).2).
Proof.
  induction units as [|[user q] units IH]; intros w Hunits Hk; cbn [scan_loop];
    [done|].
  rewrite bind_run.
  assert (k ∉ existing_analyses
                (analysis_results (scan_unit E bucket (user, q) w).2)) as Hk1.
  { destruct (decide (analysis_key user q = k)) as [Heq|Hne].
    - destruct (scan_unit_file_missing E bucket user q w) as (ev & -> & _); [|done].
      apply (Hunits (user, q)); [left|done].
    - eapply records_from_keeps_absent; [apply scan_unit_records_from|done..]. }
  destruct (scan_unit E bucket (user, q) w) as [[[]|e] w1]; cbn [fst snd] in *; [|done].
  apply IH; [|done]. intros u Hu. apply Hunits. by right.
Qed.

(** X15.  A listed unit for which the object store finds no file gets no
    job and no record, so it is pending again at the end of the scan, and
    the trigger check that ends the scan finds a pending unit and does not
    drain: the scan ends in the state its loop left, no queued entry is
    started.  (Units with the same key are taken to lack a file too.) *)
Theorem unit_without_file_keeps_the_scan_from_draining E w available user q :
  list_available_users_and_questions E "skala25a" = Return available →
  find_session E = None →
  (user, q) ∈ videos_to_analyze available (existing_analyses (analysis_results w)) →
  (∀ user' q', listed available user' q' →
     analysis_key user' q' = analysis_key user q →
     file_missing (find_video_file E "skala25a" user' q')) →
  let w' := (auto_analyze_all_s3_videos E w).2 in
  w' = (scan_loop E "skala25a"
          (videos_to_analyze available (existing_analyses (analysis_results w))) w).2
  ∧ (user, q) ∈ videos_to_analyze available (existing_analyses (analysis_results w'))
  ∧ batch_items (trace w') = batch_items (trace w).
Proof.
  intros Hl Hs Hin Hfile. cbv zeta.
  set (todo := videos_to_analyze available (existing_analyses (analysis_results w)))
    in *.
  assert (auto_analyze_all_s3_videos E w =
          try_except (scan_loop E "skala25a" todo;; check_and_trigger_gpt_batch E)
            (λ e, print (ScanError (str e))) w) as ->.
  { unfold auto_analyze_all_s3_videos, try_except, call, call_db, get_analysis_results.
    rewrite !bind_run, Hl. simpl. rewrite Hs. simpl. rewrite ?bind_run. simpl.
    fold todo. rewrite bool_decide_eq_false_2; [done|].
    intros Hnil. rewrite Hnil in Hin. by apply elem_of_nil in Hin. }
  pose proof Hin as [Hlisted Hk]%elem_of_videos_to_analyze.
  pose proof (scan_loop_keeps_absent E "skala25a" (analysis_key user q) todo w) as Hk1.
  pose proof (scan_loop_same_batch_items E "skala25a" todo w) as Hb.
  assert (∀ e w1, scan_loop E "skala25a" todo w = (Raise e, w1) →
                  isinstance_Exception e = false) as Hraise.
  { clear. generalize todo. clear. intros units. revert w.
    induction units as [|[user q] units IH]; intros w e w1; cbn [scan_loop];
      [done|].
    rewrite bind_run.
    destruct (scan_unit E "skala25a" (user, q) w) as [[[]|e'] w2] eqn:Hu.
    - apply IH.
    - intros [= <- <-]. revert Hu. unfold scan_unit, try_except.
      intros Hu. repeat case_match; by simplify_eq. }
  unfold try_except. rewrite bind_run.
  destruct (scan_loop E "skala25a" todo w) as [[[]|e] w1]; cbn [fst snd] in *.
  - assert ((user, q) ∈ videos_to_analyze available
                          (existing_analyses (analysis_results w1))) as Hin1.
    { apply elem_of_videos_to_analyze. split; [done|]. apply Hk1; [|done].
      intros [u' q'] [Hl' _]%elem_of_videos_to_analyze. by apply Hfile. }
    assert (check_and_trigger_gpt_batch E w1 = (Return (), w1)) as ->.
    { unfold check_and_trigger_gpt_batch, try_except, call, call_db,
        get_analysis_results, get_pending.
      rewrite !bind_run, Hl. simpl. rewrite Hs. simpl. rewrite ?bind_run. simpl.
      rewrite ?bind_run. simpl.
      rewrite (bool_decide_eq_false_2 (length _ = 0%nat)); [done|].
      intros Hnil%length_zero_iff_nil. rewrite Hnil in Hin1.
      by apply elem_of_nil in Hin1. }
    by split_and!.
  - rewrite (Hraise e w1 eq_refl). cbn [fst snd]. split_and!; [done| |done].
    apply elem_of_videos_to_analyze. split; [done|]. apply Hk1; [|done].
    intros [u' q'] [Hl' _]%elem_of_videos_to_analyze. by apply Hfile.
Qed.

Lemma unit_without_file_keeps_the_scan_from_draining_witness :
  let E := missing_file_env in
  let w := sample_world in
  let available := [("iv001", ["Q1"; "Q2"; "Q3"])] in
  let w' := (auto_analyze_all_s3_videos E w).2 in
  w' = (scan_loop E "skala25a"
          (videos_to_analyze available (existing_analyses (analysis_results w))) w).2
  ∧ ("iv001", "Q3")
      ∈ videos_to_analyze available (existing_analyses (analysis_results w'))
  ∧ batch_items (trace w') = batch_items (trace w).
Proof.
  apply (unit_without_file_keeps_the_scan_from_draining missing_file_env
           sample_world [("iv001", ["Q1"; "Q2"; "Q3"])] "iv001" "Q3").
  - reflexivity.
  - reflexivity.
  - vm_compute. repeat constructor.
  - intros user' q' (qs & Hav & Hq) Hkey.
    apply list_elem_of_singleton in Hav. injection Hav as -> ->.
    repeat (apply elem_of_cons in Hq as [->|Hq]);
      [discriminate Hkey|discriminate Hkey|exact I|].
    by apply elem_of_nil in Hq.
Defined.

(** There the scan leaves the entry of the completed unit in the queue. *)
Example scan_with_a_missing_file :
  let w' := (auto_analyze_all_s3_videos missing_file_env sample_world).2 in
  status <$> analysis_results w' = ["completed"; "error"]
  ∧ qe_question_num <$> pending w' = ["Q1"]
  ∧ batch_items (trace w') = [].
Proof. vm_compute. by split_and!. Qed.

(** ** Every entry is started once *)

Lemma remaining_no_draining w ts :
  (∀ i b k, ts !! i ≠ Some (Draining b k)) → ts ≫= remaining_of w = [].
Proof.
  induction ts as [|t ts IH]; intros Hts; [done|].
  cbn [mbind list_bind]. rewrite IH; [|intros i b k; apply (Hts (S i) b k)].
  destruct t as [|b k|r]; [done| |done]. by destruct (Hts 0%nat b k).
Qed.

Lemma remaining_insert_only w ts : ∀ i t',
  (i < length ts)%nat →
  (∀ j b k, j ≠ i → ts !! j ≠ Some (Draining b k)) →
  <[i := t']> ts ≫= remaining_of w = remaining_of w t'.
Proof.
  induction ts as [|t ts IH]; intros i t' Hi Hts; simpl in Hi; [lia|].
  destruct i as [|i];
    [change (<[0%nat := t']> (t :: ts)) with (t' :: ts)
    |change (<[S i := t']> (t :: ts)) with (t :: <[i := t']> ts)];
    cbn [mbind list_bind].
  - rewrite remaining_no_draining, app_nil_r; [done|].
    intros j b k. apply (Hts (S j) b k). lia.
  - rewrite IH; [|lia|intros j b k Hj; apply (Hts (S j) b k); lia].
    destruct t as [|b k|r]; [done| |done]. by destruct (Hts 0%nat b k).
Qed.

Lemma remaining_only w ts i t :
  ts !! i = Some t →
  (∀ j b k, j ≠ i → ts !! j ≠ Some (Draining b k)) →
  ts ≫= remaining_of w = remaining_of w t.
Proof.
  intros Hi Hts. rewrite <- (list_insert_id ts i t Hi) at 1.
  apply remaining_insert_only; [by eapply lookup_lt_Some|done].
Qed.

Lemma remaining_insert_idle w ts : ∀ i t t',
  ts !! i = Some t → remaining_of w t = [] → remaining_of w t' = [] →
  <[i := t']> ts ≫= remaining_of w = ts ≫= remaining_of w.
Proof.
  induction ts as [|t0 ts IH]; intros i t t' Hi Ht Ht'; [done|].
  destruct i as [|i];
    [change (<[0%nat := t']> (t0 :: ts)) with (t' :: ts)
    |change (<[S i := t']> (t0 :: ts)) with (t0 :: <[i := t']> ts)];
    cbn [mbind list_bind].
  - injection Hi as ->. by rewrite Ht, Ht'.
  - f_equal. by eapply IH.
Qed.

Lemma remaining_ext w w' ts :
  (∀ t, t ∈ ts → remaining_of w' t = remaining_of w t) →
  ts ≫= remaining_of w' = ts ≫= remaining_of w.
Proof.
  induction ts as [|t ts IH]; intros Hts; [done|].
  cbn [mbind list_bind]. rewrite Hts by left. f_equal.
  apply IH. intros t' Ht'. apply Hts. by right.
Qed.

Section conservation.
Context (E : env) (Hnc : no_cancellation E).

Lemma gpt_batch_item_returns i n item w :
  (gpt_batch_item E i n item w).1 = Return ().
Proof using Hnc.
  pose proof (gpt_batch_item_uncancelled E Hnc i n item w) as Hu.
  destruct (gpt_batch_item E i n item w) as [[[]|e] w1] eqn:Hitem; [done|].
  apply gpt_batch_item_Raise in Hitem. by destruct e.
Qed.

(** What a step adds to the entries started, still before a drain, or
    waiting: the entry it enqueues, if it is an enqueue. *)
Lemma conservation_step s l s' :
  machine_inv s → step E s l s' →
  batch_items (trace (shared s')) ++ remaining s' ++ pending (shared s')
  = (batch_items (trace (shared s)) ++ remaining s ++ pending (shared s))
    ++ match l with LEnqueue e => [e] | _ => [] end.
Proof using Hnc.
  intros Hinv Hstep.
  destruct Hstep as [s|s i t Hi|s id user question|s d|s n];
    unfold remaining; cbn [shared tasks].
  - rewrite bind_app. cbn [mbind list_bind remaining_of].
    by rewrite !app_nil_r.
  - rewrite app_nil_r. destruct t as [|b k|r].
    + (* the entry of a trigger *)
      cbn [task_step].
      destruct (gpt_batch_enter (shared s)) as [[b|] w1] eqn:Henter; cbn [fst snd].
      * apply gpt_batch_enter_Some in Henter
          as (Hf & _ & _ & Hb & Hp & _ & _ & Ht & _).
        assert (∀ j b' k', tasks s !! j ≠ Some (Draining b' k')) as Hidle.
        { intros j b' k' Hj.
          assert (_batch_processing_active (shared s) = true); [|congruence].
          apply (inv_flag _ Hinv). eauto. }
        rewrite remaining_insert_only;
          [|by eapply lookup_lt_Some|by intros j b' k' _].
        rewrite (remaining_no_draining _ _ Hidle).
        cbn [remaining_of]. rewrite Hb, Hp, Ht. simpl. by rewrite app_nil_r.
      * apply gpt_batch_enter_None in Henter as [-> _].
        by rewrite (remaining_insert_idle _ _ _ _ _ Hi).
    + (* a pass through the loop, or the way out of it *)
      pose proof (task_step_Draining E b k (shared s)) as (Hh & Hp & Hcase).
      assert (∀ j b' k', j ≠ i → tasks s !! j ≠ Some (Draining b' k')) as Hothers.
      { intros j b' k' Hne Hj. apply Hne. by eapply (inv_single _ Hinv). }
      rewrite remaining_insert_only; [|by eapply lookup_lt_Some|done].
      rewrite (remaining_only _ _ _ _ Hi Hothers).
      assert (pending (task_step E (Draining b k) (shared s)).2 = pending (shared s))
        as -> by (unfold pending; by rewrite Hh, Hp).
      destruct (default [] (heap (shared s) !! b) !! k) as [item|] eqn:Hk.
      * destruct Hcase as [Hitems _].
        assert ((task_step E (Draining b k) (shared s)).1 = Draining b (S k)) as ->.
        { unfold task_step. rewrite Hk.
          pose proof (gpt_batch_item_returns (S k)
            (length (default [] (heap (shared s) !! b))) item (shared s)) as Hr.
          by destruct (gpt_batch_item E _ _ item (shared s)) as [[[]|e] w1]. }
        cbn [remaining_of]. rewrite Hitems, Hh, (drop_S _ _ _ Hk).
        by rewrite <- !(assoc_L (++)).
      * destruct Hcase as (-> & _ & ->). cbn [remaining_of].
        rewrite drop_ge; [done|]. by apply lookup_ge_None.
    + cbn [task_step fst snd]. by rewrite list_insert_id.
  - rewrite pending_enqueue by apply (inv_queue _ Hinv).
    rewrite (remaining_ext (shared s)); [by rewrite !(assoc_L (++))|].
    intros [|b k|r] Ht; [done| |done].
    apply list_elem_of_lookup in Ht as [j Hj].
    destruct (inv_batch _ Hinv _ _ _ Hj) as [_ Hne].
    cbn [remaining_of]. simpl. by rewrite lookup_alter_ne.
  - by rewrite app_nil_r.
  - by rewrite app_nil_r.
Qed.

Lemma conservation_run c t L s :
  run E {| shared := startup c t; tasks := [] |} L s →
  enqueued L = batch_items (trace (shared s)) ++ remaining s ++ pending (shared s).
Proof using Hnc.
  intros Hrun.
  remember {| shared := startup c t; tasks := [] |} as s0 eqn:Hs0.
  induction Hrun as [s|s L s' l s'' Hrun IH Hstep]; [by subst|].
  rewrite enqueued_snoc, (conservation_step s' l s''); [|..|done].
  - by rewrite <- IH.
  - eapply machine_inv_run; [|done]. subst s. apply machine_inv_startup.
Qed.

End conservation.

(** X16.  Along every run of the process in which no await is cancelled
    (neither a call of a collaborator nor the sleep between two entries of a
    drain), whatever the interleaving of jobs, triggers and drains: the
    entries enqueued so far, in the order of their enqueueing, are the
    entries the drains have started, in the order they started them,
    followed by the entries the active drain has still before it, followed
    by the queue.  So every entry is started at most once, in the order of
    its arrival, and none is lost. *)
Theorem entries_are_started_once_in_order E c t L s :
  no_cancellation E →
  run E {| shared := startup c t; tasks := [] |} L s →
  enqueued L = batch_items (trace (shared s)) ++ remaining s ++ pending (shared s).
Proof. intros Hnc Hrun. by eapply conservation_run. Qed.

Lemma sample_item_done_from_startup :
  run sample_env
    {| shared := startup (analysis_results sample_completed_world) 100; tasks := [] |}
    [LTrigger; LTrigger; LEnqueue (sample_entry "job-1" "Q1" 100); LTask 0;
     LTask 1; LEnqueue (sample_entry "job-2" "Q3" 100); LTask 0]
    sample_item_done.
Proof.
  apply (run_step _ _ [LTrigger; LTrigger; LEnqueue _; LTask 0%nat; LTask 1%nat;
                       LEnqueue _] sample_late_entry (LTask 0)).
  - apply (run_step _ _ [LTrigger; LTrigger; LEnqueue _; LTask 0%nat; LTask 1%nat]
             sample_second_trigger (LEnqueue _)).
    + apply (run_step _ _ [LTrigger; LTrigger; LEnqueue _; LTask 0%nat]
               sample_draining (LTask 1)).
      * apply (run_step _ _ [LTrigger; LTrigger; LEnqueue _] sample_queued (LTask 0)).
        -- apply (run_step _ _ [LTrigger; LTrigger]
                    (do_trigger (do_trigger sample_started)) (LEnqueue _)).
           ++ apply (run_step _ _ [LTrigger] (do_trigger sample_started) LTrigger).
              ** apply (run_step _ _ [] sample_started LTrigger); [apply run_refl|].
                 apply step_trigger.
              ** apply step_trigger.
           ++ apply (step_enqueue sample_env (do_trigger (do_trigger sample_started))
                       "job-1" "iv001" "Q1").
        -- by apply step_do_task with (t := Created).
      * by apply step_do_task with (t := Created).
    + apply (step_enqueue sample_env sample_second_trigger "job-2" "iv001" "Q3").
  - by apply step_do_task with (t := Draining 2 0).
Qed.

Lemma entries_are_started_once_in_order_witness :
  enqueued [LTrigger; LTrigger; LEnqueue (sample_entry "job-1" "Q1" 100); LTask 0;
            LTask 1; LEnqueue (sample_entry "job-2" "Q3" 100); LTask 0]
  = batch_items (trace (shared sample_item_done))
    ++ remaining sample_item_done ++ pending (shared sample_item_done).
Proof.
  apply (entries_are_started_once_in_order sample_env
           (analysis_results sample_completed_world) 100 _ sample_item_done).
  - exact sample_env_no_cancellation.
  - exact sample_item_done_from_startup.
Defined.

(** In the sample, the first entry has been started, the drain has nothing
    before it, and the entry that came later waits in the queue. *)
Example sample_item_done_entries :
  qe_analysis_id <$> batch_items (trace (shared sample_item_done)) = ["job-1"]
  ∧ remaining sample_item_done = []
  ∧ qe_analysis_id <$> pending (shared sample_item_done) = ["job-2"].
Proof. vm_compute. by split_and!. Qed.

(** ** Routes that are never served *)

Lemma first_match_Some m path rs e params :
  first_match m path rs = Some (e, params) →
  ∃ i pattern,
    rs !! i = Some (m, pattern, e)
    ∧ match_path pattern path = Some params
    ∧ ∀ j pattern' e', (j < i)%nat → rs !! j = Some (m, pattern', e') →
        match_path pattern' path = None.
Proof.
  induction rs as [|[[m' pat] e0] rs IH]; simpl; [done|].
  destruct (decide (m' = m)) as [->|Hne].
  - destruct (match_path pat path) as [ps|] eqn:Hm.
    + intros [= <- <-]. exists 0%nat, pat. split_and!; [done..|]. intros; lia.
    + intros (i & pattern & Hi & Hp & Hfirst)%IH. exists (S i), pattern.
      split_and!; [done..|]. intros [|j] pattern' e' Hj; simpl.
      * by intros [= <- <-].
      * intros Hl. eapply Hfirst; [|done]. lia.
  - intros (i & pattern & Hi & Hp & Hfirst)%IH. exists (S i), pattern.
    split_and!; [done..|]. intros [|j] pattern' e' Hj; simpl.
    + intros [= ? _ _]. by subst.
    + intros Hl. eapply Hfirst; [|done]. lia.
Qed.

(** X17.  The route [/analysis/recent] is declared after
    [/analysis/{analysis_id}], which matches its path: no request is ever
    served by [get_recent_analyses].  A request for the recent analyses is
    served by [get_analysis_result] with the analysis id [recent], and is
    answered with a 404 unless a record has that id. *)
Theorem recent_analyses_route_is_shadowed E w m path :
  find_one_session E "recent" = None →
  find_one "recent" (analysis_results w) = None →
  (∀ params, dispatch m path ≠ Some (ep_get_recent_analyses, params))
  ∧ dispatch GET ["analysis"; "recent"] = Some (ep_get_analysis_result, ["recent"])
  ∧ response_status (get_analysis_result E "recent" w).1 = 404%Z.
Proof.
  intros Hs Hf. split_and!.
  - intros params Hd. apply first_match_Some in Hd as (i & pattern & Hi & Hp & Hfirst).
    assert (i = 6%nat ∧ m = GET ∧ pattern = [Lit "analysis"; Lit "recent"])
      as (-> & -> & ->).
    { unfold routes in Hi.
      do 20 (destruct i as [|i]; [by simplify_eq/=|]). done. }
    assert (path = ["analysis"; "recent"]) as ->.
    { destruct path as [|a [|b [|c path]]]; simpl in Hp; repeat case_decide;
        by simplify_eq. }
    by specialize (Hfirst 4%nat [Lit "analysis"; Param] ep_get_analysis_result
                     ltac:(lia) eq_refl).
  - reflexivity.
  - unfold get_analysis_result, try_except_reraising_http, call_db,
      get_analysis_results.
    rewrite !bind_run, Hs. simpl. by rewrite Hf.
Qed.

Lemma recent_analyses_route_is_shadowed_witness :
  (∀ params,
     dispatch GET ["analysis"; "recent"] ≠ Some (ep_get_recent_analyses, params))
  ∧ dispatch GET ["analysis"; "recent"] = Some (ep_get_analysis_result, ["recent"])
  ∧ response_status (get_analysis_result sample_env "recent" sample_all_analysed).1
    = 404%Z.
Proof.
  apply (recent_analyses_route_is_shadowed sample_env sample_all_analysed GET
           ["analysis"; "recent"]).
  - reflexivity.
  - reflexivity.
Defined.

(** Every other route is served: its own path reaches it. *)
Example other_routes_are_served :
  dispatch GET ["analysis"; "job-1"; "status"] = Some (ep_get_analysis_status, ["job-1"])
  ∧ dispatch GET ["analysis"; "job-1"; "llm-comment"]
    = Some (ep_get_llm_comment, ["job-1"])
  ∧ dispatch POST ["analysis"; "job-1"; "cancel"] = Some (ep_cancel_analysis, ["job-1"])
  ∧ dispatch GET ["interview-attitude"; "iv001"; "Q1"]
    = Some (ep_get_interview_attitude_by_user_question, ["iv001"; "Q1"])
  ∧ dispatch GET ["auto-analysis"; "status"] = Some (ep_get_auto_analysis_status, [])
  ∧ dispatch POST ["gpt-batch"; "trigger"] = Some (ep_trigger_gpt_batch, []).
Proof. by split_and!. Qed.

(** ** The trigger request and the drain it starts *)




(** While the sample drain is in its loop and a later entry waits, the
    trigger request answers that it started batch processing for one entry;
    the drain it hands over leaves that entry where it is. *)
Example trigger_request_during_a_drain :
  let w := shared sample_late_entry in
  _batch_processing_active w = true
  ∧ (∃ response,
       trigger_gpt_batch w = (Return (response, [co_process_gpt_batch]), w)
       ∧ tr_message response = "GPT 배치 처리를 시작했습니다."
       ∧ tr_pending_count response = 1%nat)
  ∧ run_coroutine sample_env co_process_gpt_batch w = (Return (), w).
Proof. split_and!; [done| |done]. eexists. by split_and!. Qed.

(** ** The entry of a job that failed after it was queued *)

(** X19.  A job puts its entry into the queue before its last stages.  If
    the job then fails and its error record is stored, the record under the
    entry's analysis id is the error record, which carries no stage result:
    when the drain comes to an entry of that id it skips it, so no
    commentary is made and no row is saved for the unit. *)
Theorem entry_of_a_failed_job_is_skipped
    E id bucket key user q session w e w1 item i n :
  job_body E id bucket key user q session w = (Raise e, w1) →
  isinstance_Exception e = true →
  replace_one_session E (error_data id user q session e (now w1)) = None →
  find_one_session E id = None →
  qe_analysis_id item = id →
  let w' := (process_s3_user_video_analysis E id bucket key user q session w).2 in
  find_one id (analysis_results w') = Some (error_data id user q session e (now w1))
  ∧ gpt_batch_item E i n item w' =
    (Return (),
     set_trace (λ t, t ++ [BatchItemStart i n item; BatchItemSkipped id]) w').
Proof.
  intros Hb He Hacc Hs Hid. cbv zeta.
  rewrite (process_run_Raise _ _ _ _ _ _ _ _ _ _ Hb He), job_handler_run.
  cbv zeta. rewrite Hacc. cbn [fst snd].
  match goal with
  | |- find_one id (analysis_results ?w0) = _ ∧ _ => set (w' := w0)
  end.
  assert (find_one id (analysis_results w')
          = Some (error_data id user q session e (now w1))) as Hrec
    by (by apply find_one_replace_one).
  clearbody w'. split; [done|].
  unfold gpt_batch_item, try_except, print, modify, call_db, get_analysis_results.
  rewrite !bind_run, Hid, Hs. simpl. rewrite Hrec. simpl.
  destruct w'. unfold set_trace. simpl. by rewrite <- app_assoc.
Qed.

Lemma entry_of_a_failed_job_is_skipped_witness :
  let e := Exception "mariadb is down" in
  let item := sample_entry "job-2" "Q1" 100 in
  let w' :=
    (process_s3_user_video_analysis attitude_down_env "job-2" "skala25a"
       "iv001/Q1.mp4" "iv001" "Q1" (Some "manual") sample_world).2 in
  find_one "job-2" (analysis_results w')
  = Some (error_data "job-2" "iv001" "Q1" (Some "manual") e 100)
  ∧ gpt_batch_item attitude_down_env 1 1 item w' =
    (Return (),
     set_trace (λ t, t ++ [BatchItemStart 1 1 item; BatchItemSkipped "job-2"]) w').
Proof.
  apply (entry_of_a_failed_job_is_skipped attitude_down_env "job-2" "skala25a"
           "iv001/Q1.mp4" "iv001" "Q1" (Some "manual") sample_world
           (Exception "mariadb is down")
           (job_body attitude_down_env "job-2" "skala25a" "iv001/Q1.mp4" "iv001" "Q1"
              (Some "manual") sample_world).2
           (sample_entry "job-2" "Q1" 100) 1 1).
  - vm_compute. reflexivity.
  - reflexivity.
  - reflexivity.
  - reflexivity.
  - reflexivity.
Defined.

(** There the entry is in the queue when the job has failed. *)
Example failed_job_left_its_entry :
  pending
    (process_s3_user_video_analysis attitude_down_env "job-2" "skala25a"
       "iv001/Q1.mp4" "iv001" "Q1" (Some "manual") sample_world).2
  = [sample_entry "job-2" "Q1" 100].
Proof. reflexivity. Qed.

(** ** The object store behind the handlers *)

(** X20.  The search request and the start request ask the object store
    the same question and change no state, but answer a missing file
    differently: the start request is accepted exactly when the search
    reports the file as found, with the key and the bucket of the reported
    address; when the search answers, with status 200, that the file was not
    found, the start request is answered with a 500. *)
Theorem search_and_start_agree E request w :
  let found :=
    find_specific_video E (req_user_id request) (req_question_num request) w in
  let started := analyze_s3_user_video E request w in
  found.2 = w ∧ started.2 = w
  ∧ match found.1 with
    | Return r =>
      response_status found.1 = 200%Z
      ∧ if fv_found r
        then ∃ response task,
               started.1 = Return (response, [task])
               ∧ fv_s3_key r = Some (bt_key task)
               ∧ fv_s3_url r
                 = Some ("s3://" +:+ bt_bucket task +:+ "/" +:+ bt_key task)
        else response_status started.1 = 500%Z
    | Raise e =>
      response_status found.1 = 500%Z ∧ response_status started.1 = 500%Z
    end.
Proof.
  cbv zeta. unfold find_specific_video, analyze_s3_user_video, try_except, call,
    get_now.
  rewrite !bind_run. cbn [fst snd]. rewrite ?bind_run.
  destruct (find_video_file E _ _ _) as [[key|]|e]; cbn [fst snd].
  - destruct (str_truthy key) eqn:Hk; simpl; rewrite ?Hk; simpl.
    + split_and!; try done. by eexists _, _.
    + by split_and!.
  - by split_and!.
  - destruct e; simpl; by split_and!.
Qed.

(** The sample object store holds no file for any unit: the search answers
    200 with [found: false], the start request 500. *)
Example search_and_start_without_file :
  response_status (find_specific_video no_video_env "iv001" "Q1" sample_world).1
  = 200%Z
  ∧ response_status (analyze_s3_user_video no_video_env sample_request sample_world).1
    = 500%Z.
Proof. by split. Qed.

(** X21.  The environment variable [S3_BUCKET_NAME] is read by the
    handlers only: the scan, the trigger check, the drain and a job behave
    the same whatever its value, the scan and the trigger check listing the
    bucket [skala25a].  The start request looks the file up in the bucket
    the variable names, and the job it hands over is a job on that bucket. *)
Theorem background_work_ignores_the_bucket_variable
    E bucket w id b key user q session request :
  auto_analyze_all_s3_videos (with_bucket bucket E) w = auto_analyze_all_s3_videos E w
  ∧ check_and_trigger_gpt_batch (with_bucket bucket E) w
    = check_and_trigger_gpt_batch E w
  ∧ process_gpt_batch (with_bucket bucket E) w = process_gpt_batch E w
  ∧ process_s3_user_video_analysis (with_bucket bucket E) id b key user q session w
    = process_s3_user_video_analysis E id b key user q session w
  ∧ (find_video_file E (default "skala25a" bucket)
       (req_user_id request) (req_question_num request) = Return (Some key) →
     str_truthy key = true →
     ∃ response task,
       analyze_s3_user_video (with_bucket bucket E) request w
       = (Return (response, [task]), w)
       ∧ bt_bucket task = default "skala25a" bucket ∧ bt_key task = key).
Proof.
  split_and!; [reflexivity..|].
  intros Hf Hk. unfold analyze_s3_user_video, try_except, get_now, call.
  rewrite !bind_run. cbn [S3_BUCKET_NAME with_bucket find_video_file].
  rewrite Hf. simpl. rewrite Hk. simpl. by eexists _, _.
Qed.

Lemma background_work_ignores_the_bucket_variable_witness :
  let E := with_bucket (Some "interviews") sample_env in
  auto_analyze_all_s3_videos E sample_world
  = auto_analyze_all_s3_videos sample_env sample_world
  ∧ ∃ response task,
      analyze_s3_user_video E sample_request sample_world
      = (Return (response, [task]), sample_world)
      ∧ bt_bucket task = "interviews".
Proof.
  destruct (background_work_ignores_the_bucket_variable sample_env
              (Some "interviews") sample_world "job-1" "interviews" "iv001/Q1.mp4"
              "iv001" "Q1" (Some "manual") sample_request)
    as (Hscan & _ & _ & _ & Hstart).
  split; [exact Hscan|].
  destruct (Hstart eq_refl eq_refl) as (response & task & Hr & Hb & _).
  exists response, task. split; [exact Hr|exact Hb].
Defined.

(** X22.  The listing request reports as [total_videos] the number of
    units of the listing: the number of units a scan over that listing
    processes when no record is stored, and an upper bound of the number it
    processes otherwise. *)
Theorem listing_totals_bound_the_scan E w available existing :
  list_available_users_and_questions E (default "skala25a" (S3_BUCKET_NAME E))
  = Return available →
  ∃ r, get_available_users_and_questions E w = (Return r, w)
       ∧ av_total_users r = length available
       ∧ av_total_videos r = length (videos_to_analyze available ∅)
       ∧ (length (videos_to_analyze available existing) ≤ av_total_videos r)%nat.
Proof.
  intros Hl. unfold get_available_users_and_questions, try_except, call.
  rewrite !bind_run, Hl. eexists. split_and!; try done; cbn [av_total_videos].
  - rewrite videos_to_analyze_filter. clear.
    induction available as [|[user qs] available IH]; [done|].
    cbn [fmap list_fmap sum_list sum_list_with compose snd].
    unfold listing_units in *. cbn [mbind list_bind].
    rewrite filter_app, length_app, <- IH. f_equal.
    clear. induction qs as [|q qs IH]; [done|].
    cbn [mbind list_bind]. rewrite filter_app, length_app, <- IH.
    rewrite filter_cons, decide_True by set_solver. done.
  - rewrite !videos_to_analyze_filter.
    assert (sum_list (length ∘ snd <$> available) = length (listing_units available))
      as ->.
    { clear. induction available as [|[user qs] available IH]; [done|].
      cbn [fmap list_fmap sum_list sum_list_with compose snd].
      unfold listing_units in *. cbn [mbind list_bind].
      rewrite length_app, <- IH. f_equal.
      clear. induction qs as [|q qs IH]; [done|].
      cbn [mbind list_bind]. rewrite length_app, <- IH. done. }
    apply length_filter.
Qed.

Lemma listing_totals_bound_the_scan_witness :
  ∃ r, get_available_users_and_questions sample_env sample_world
       = (Return r, sample_world)
       ∧ av_total_users r = 1%nat
       ∧ av_total_videos r
         = length (videos_to_analyze [("iv001", ["Q1"; "Q2"; "Q3"])] ∅)
       ∧ (length (videos_to_analyze [("iv001", ["Q1"; "Q2"; "Q3"])] {["iv001_Q2"]})
          ≤ av_total_videos r)%nat.
Proof.
  apply (listing_totals_bound_the_scan sample_env sample_world
           [("iv001", ["Q1"; "Q2"; "Q3"])] {["iv001_Q2"]}).
  reflexivity.
Defined.

(** ** Start-up, restart and the health report *)

(** X23.  At start-up the scan is started after the evaluation database's
    connection pool, inside the same [try]: the scan is started exactly
    when the pool could be created, and a failure of the pool leaves the
    process without a scan.  The restart request starts the scan whatever
    the state. *)
Theorem startup_starts_the_scan_after_the_pool create_pool w :
  (startup_event create_pool w).2 = w
  ∧ ((startup_event create_pool w).1 = Return [co_auto_analyze_all_s3_videos]
     ↔ ∃ u, create_pool = Return u)
  ∧ (∀ e, create_pool = Raise e → isinstance_Exception e = true →
          (startup_event create_pool w).1 = Return [])
  ∧ ∃ response,
      restart_auto_analysis w
      = (Return (response, [co_auto_analyze_all_s3_videos]), w).
Proof.
  unfold startup_event, restart_auto_analysis, try_except, call, get_now.
  rewrite !bind_run. split_and!.
  - destruct create_pool as [[]|e]; [done|]. cbn [fst snd].
    by destruct (isinstance_Exception e).
  - destruct create_pool as [[]|e]; cbn [fst snd].
    + split; [by eexists|done].
    + split; [|by intros [u [=]]].
      by destruct (isinstance_Exception e).
  - intros e -> He. cbn [fst snd]. by rewrite He.
  - by eexists.
Qed.

Lemma startup_starts_the_scan_after_the_pool_witness :
  (startup_event (Raise (Exception "pool refused")) sample_world).1 = Return []
  ∧ (startup_event (Return ()) sample_world).1
    = Return [co_auto_analyze_all_s3_videos].
Proof.
  split.
  - destruct (startup_starts_the_scan_after_the_pool
                (Raise (Exception "pool refused")) sample_world)
      as (_ & _ & Hfail & _).
    exact (Hfail (Exception "pool refused") eq_refl eq_refl).
  - destruct (startup_starts_the_scan_after_the_pool (Return ()) sample_world)
      as (_ & [_ Hok] & _).
    apply Hok. by exists ().
Defined.

(** X24.  The health report never raises on a failed probe and its overall
    status is [healthy] whatever the probes find; the status of a service
    is [healthy] exactly when its probe succeeded, and carries the error
    message otherwise. *)
Theorem health_report_is_always_healthy mongodb_probe mariadb_probe s3_probe E w :
  mariadb_probe ≠ Raise CancelledError →
  (∀ bucket, s3_probe bucket ≠ Raise CancelledError) →
  ∃ r, health_check mongodb_probe mariadb_probe s3_probe E w = (Return r, w)
       ∧ hr_status r = "healthy"
       ∧ (hs_mongodb (hr_services r) = "healthy" ↔ mongodb_probe = None)
       ∧ (hs_mariadb (hr_services r) = "healthy" ↔ mariadb_probe = Return ())
       ∧ (hs_s3 (hr_services r) = "healthy"
          ↔ s3_probe (default "skala25a" (S3_BUCKET_NAME E)) = Return ()).
Proof.
  intros Hm Hs3. specialize (Hs3 (default "skala25a" (S3_BUCKET_NAME E))).
  unfold health_check, try_except, call, call_db, get_now.
  rewrite !bind_run. cbn [fst snd].
  destruct mongodb_probe as [msg|]; cbn [fst snd isinstance_Exception];
    rewrite ?bind_run; cbn [fst snd];
    (destruct mariadb_probe as [[]|e1]; [|destruct e1; try done]);
    cbn [fst snd isinstance_Exception]; rewrite ?bind_run; cbn [fst snd];
    (destruct (s3_probe _) as [[]|e2]; [|destruct e2; try done]);
    cbn [fst snd isinstance_Exception]; rewrite ?bind_run; cbn [fst snd];
    eexists; (split; [reflexivity|]); cbn; by split_and!.
Qed.

Lemma health_report_is_always_healthy_witness :
  ∃ r, health_check (Some "no primary") (Raise (Exception "pool closed"))
         (λ _, Raise (Exception "access denied")) sample_env sample_world
       = (Return r, sample_world)
       ∧ hr_status r = "healthy"
       ∧ (hs_mongodb (hr_services r) = "healthy" ↔ Some "no primary" = None)
       ∧ (hs_mariadb (hr_services r) = "healthy"
          ↔ Raise (Exception "pool closed") = Return ())
       ∧ (hs_s3 (hr_services r) = "healthy"
          ↔ Raise (Exception "access denied") = Return ()).
Proof.
  apply (health_report_is_always_healthy (Some "no primary")
           (Raise (Exception "pool closed")) (λ _, Raise (Exception "access denied"))
           sample_env sample_world).
  - discriminate.
  - discriminate.
Defined.

(** ** The answers of the result query *)

(** X25.  The result query changes no state.  It answers 500 when the job
    collection cannot be reached, 404 when no record has the analysis id,
    and otherwise returns the first record stored under that id. *)
Theorem result_query_answers E id w :
  let res := get_analysis_result E id w in
  res.2 = w
  ∧ match find_one_session E id, find_one id (analysis_results w) with
    | Some _, _ => response_status res.1 = 500%Z
    | None, None => response_status res.1 = 404%Z
    | None, Some d =>
      res.1 = Return d ∧ analysis_id d = id ∧ d ∈ analysis_results w
    end.
Proof.
  cbv zeta. unfold get_analysis_result, try_except_reraising_http, call_db,
    get_analysis_results.
  rewrite !bind_run.
  destruct (find_one_session E id); cbn [fst snd]; [done|].
  destruct (find_one id (analysis_results w)) as [d|] eqn:Hd; cbn [fst snd]; [|done].
  apply find_one_Some in Hd as [??]. by split_and!.
Qed.

(** ** The status of a failed job *)

(** X26.  A job whose stage raises reports the status [failed] in its last
    status update, and stores its record with the status [error]: the
    status query for the job answers [error], with no completion time. *)
Theorem failed_job_is_stored_as_error E id bucket key user q session w e w1 :
  job_body E id bucket key user q session w = (Raise e, w1) →
  isinstance_Exception e = true →
  replace_one_session E (error_data id user q session e (now w1)) = None →
  find_one_session E id = None →
  let w' := (process_s3_user_video_analysis E id bucket key user q session w).2 in
  last (statuses_of id (trace w')) = Some "failed"
  ∧ ∃ r, get_analysis_status E id w' = (Return r, w')
         ∧ sr_analysis_id r = id
         ∧ sr_status r = "error"
         ∧ sr_completed_at r = None.
Proof.
  intros Hb He Hacc Hs. cbv zeta.
  rewrite (process_run_Raise _ _ _ _ _ _ _ _ _ _ Hb He), job_handler_run.
  cbv zeta. rewrite Hacc. cbn [fst snd]. split.
  - simpl. unfold statuses_of. rewrite !omap_app. simpl.
    rewrite decide_True by done. simpl. rewrite !app_nil_r. apply last_snoc.
  - unfold get_analysis_status, try_except_reraising_http, call_db,
      get_analysis_results.
    rewrite !bind_run, Hs. cbn [fst snd].
    match goal with
    | |- context [find_one id (analysis_results ?w0)] =>
      assert (find_one id (analysis_results w0)
              = Some (error_data id user q session e (now w1))) as ->
        by (by apply find_one_replace_one)
    end.
    by eexists.
Qed.

Lemma failed_job_is_stored_as_error_witness :
  let w' :=
    (process_s3_user_video_analysis sample_env "job-2" "skala25a" "iv001/Q2.mp4"
       "iv001" "Q2" (Some "manual") sample_world).2 in
  last (statuses_of "job-2" (trace w')) = Some "failed"
  ∧ ∃ r, get_analysis_status sample_env "job-2" w' = (Return r, w')
         ∧ sr_analysis_id r = "job-2"
         ∧ sr_status r = "error"
         ∧ sr_completed_at r = None.
Proof.
  apply (failed_job_is_stored_as_error sample_env "job-2" "skala25a" "iv001/Q2.mp4"
           "iv001" "Q2" (Some "manual") sample_world
           (Exception "scoring failed")
           (job_body sample_env "job-2" "skala25a" "iv001/Q2.mp4" "iv001" "Q2"
              (Some "manual") sample_world).2).
  - vm_compute. reflexivity.
  - reflexivity.
  - reflexivity.
  - reflexivity.
Defined.

(** ** [check_existing_analysis] and the scan *)

(** X27.  [check_existing_analysis] changes no state and never raises: it
    answers [True] exactly when the job collection can be read and holds a
    record of the unit with the status [completed].  Whenever it answers
    [True], the scan leaves the unit out; the converse fails for a unit
    whose only record is an error record, which the scan leaves out as
    well. *)
Theorem check_existing_analysis_is_narrower_than_the_scan E user q w available :
  user ≠ "" → q ≠ "" →
  let res := check_existing_analysis E user q w in
  res.2 = w
  ∧ (∃ b, res.1 = Return b)
  ∧ (res.1 = Return true ↔
     find_session E = None
     ∧ ∃ d, d ∈ analysis_results w ∧ user_id d = Some user
            ∧ question_num d = Some q ∧ status d = "completed")
  ∧ (res.1 = Return true →
     (user, q) ∉ videos_to_analyze available (existing_analyses (analysis_results w))).
Proof.
  intros Hu Hq. cbv zeta.
  assert (check_existing_analysis E user q w =
          (Return (match find_session E with
                   | Some _ => false
                   | None =>
                     bool_decide
                       (Exists (λ d, user_id d = Some user ∧ question_num d = Some q
                                     ∧ status d = "completed") (analysis_results w))
                   end), w)) as ->.
  { unfold check_existing_analysis, try_except, call_db, get_analysis_results.
    rewrite !bind_run. by destruct (find_session E). }
  cbn [fst snd].
  assert (Return (match find_session E with
                  | Some _ => false
                  | None =>
                    bool_decide
                      (Exists (λ d, user_id d = Some user ∧ question_num d = Some q
                                    ∧ status d = "completed") (analysis_results w))
                  end) = Return true ↔
          find_session E = None
          ∧ ∃ d, d ∈ analysis_results w ∧ user_id d = Some user
                 ∧ question_num d = Some q ∧ status d = "completed") as Hiff.
  { destruct (find_session E) as [msg|].
    - split; [by intros [=]|by intros [[=] _]].
    - split.
      + intros [= Hb]. apply bool_decide_eq_true, Exists_exists in Hb. by split.
      + intros [_ Hd]. f_equal. by apply bool_decide_eq_true, Exists_exists. }
  split_and!; [done|by eexists|done|].
  intros (_ & d & Hd & Hdu & Hdq & _)%Hiff.
  rewrite elem_of_videos_to_analyze. intros [_ Hk]. apply Hk.
  by eapply existing_analyses_record.
Qed.

Lemma check_existing_analysis_is_narrower_than_the_scan_witness :
  let w := sample_completed_world in
  let res := check_existing_analysis sample_env "iv001" "Q1" w in
  res.2 = w
  ∧ (∃ b, res.1 = Return b)
  ∧ (res.1 = Return true ↔
     find_session sample_env = None
     ∧ ∃ d, d ∈ analysis_results w ∧ user_id d = Some "iv001"
            ∧ question_num d = Some "Q1" ∧ status d = "completed")
  ∧ (res.1 = Return true →
     ("iv001", "Q1")
       ∉ videos_to_analyze [("iv001", ["Q1"; "Q2"; "Q3"])]
           (existing_analyses (analysis_results w))).
Proof.
  apply (check_existing_analysis_is_narrower_than_the_scan sample_env "iv001" "Q1"
           sample_completed_world [("iv001", ["Q1"; "Q2"; "Q3"])]).
  - discriminate.
  - discriminate.
Defined.
